(** * Common Cloud Resource Names: parser, URN codec and filesystem backend

    A shallow embedding of
    - [pkg/parser] ([parseCCRNFields], [parseURNCCRNField], [parseURNFields],
      [Parse]),
    - [pkg/apis/parsed_resource.go] ([ParsedResource] and its [URN] method),
    - [pkg/validation/filesystem_backend.go] ([LoadCRDs], [processFile],
      [storeCRD], [Refresh]),
    together with the properties the specification states about them, and
    of
    - the other methods of [ParsedResource] ([CCRN], [GetKind], [ApiGroup],
      [ToResourceMap]) and [ExtractCCRNKeyFromURN],
    - [GetURNTemplate] and [LoadCRDsFromDirectory] of the filesystem
      backend,
    - [pkg/validation/kubernetes_backend.go] ([Refresh], [GetCRD]),
    - [pkg/validation]'s [CCRNValidator.ValidateCCRN],
    with properties read off the code.

    Go strings are byte sequences; they are modelled by [string], whose
    characters are 8-bit [ascii] values.  Go maps are modelled by [gmap];
    the order in which [range] visits a map is left open and appears as an
    explicit permutation of the map's entries. *)

From Stdlib Require Import String Ascii List Arith Lia Bool.
From stdpp Require Import gmap strings list fin_maps sorting.

(** The proofs below compute with string concatenation. *)
#[local] Arguments String.append !_ _ / : simpl nomatch.

(** ** The part of Go's [strings] package the code uses *)

Module GoStrings.

(** [s[n:]] for [n <= len(s)]. *)
Fixpoint drop (n : nat) (s : string) : string :=
  match n, s with
  | O, _ => s
  | S n', String _ s' => drop n' s'
  | S _, EmptyString => EmptyString
  end.

(** [strings.HasPrefix(s, prefix)]. *)
Definition HasPrefix (s pre : string) : bool := String.prefix pre s.

(** [strings.HasSuffix(s, suffix)]:
    [len(s) >= len(suffix) && s[len(s)-len(suffix):] == suffix]. *)
Definition HasSuffix (s suf : string) : bool :=
  (String.length suf <=? String.length s)%nat
  && String.eqb (drop (String.length s - String.length suf) s) suf.

(** [strings.TrimPrefix(s, prefix)]. *)
Definition TrimPrefix (s pre : string) : string :=
  if HasPrefix s pre then drop (String.length pre) s else s.

(** A string given by the values of its bytes. *)
Definition bytes (codes : list nat) : string :=
  fold_right (fun n s => String (ascii_of_nat n) s) EmptyString codes.

(** The white space of [unicode.IsSpace], each code point in its UTF-8
    encoding: U+0009 to U+000D, U+0020, U+0085, U+00A0, U+1680, U+2000 to
    U+200A, U+2028, U+2029, U+202F, U+205F and U+3000. *)
Definition spaceRunes : list string :=
  List.map bytes
    [[9]; [10]; [11]; [12]; [13]; [32];
     [194; 133]; [194; 160];
     [225; 154; 128];
     [226; 128; 128]; [226; 128; 129]; [226; 128; 130]; [226; 128; 131];
     [226; 128; 132]; [226; 128; 133]; [226; 128; 134]; [226; 128; 135];
     [226; 128; 136]; [226; 128; 137]; [226; 128; 138];
     [226; 128; 168]; [226; 128; 169];
     [226; 128; 175];
     [226; 129; 159];
     [227; 128; 128]].

(** [utf8.RuneStart(b)]: [b] is not a continuation byte [10xxxxxx]. *)
Definition RuneStart (b : ascii) : bool :=
  let n := nat_of_ascii b in
  negb ((128 <=? n)%nat && (n <? 192)%nat).

(** A string of continuation bytes. *)
Fixpoint continuationBytes (s : string) : bool :=
  match s with
  | EmptyString => true
  | String b s' => negb (RuneStart b) && continuationBytes s'
  end.

(** [x] is the encoding of one white-space code point. *)
Definition isSpaceRune (x : string) : bool := existsb (String.eqb x) spaceRunes.

(** One turn of the loop of [strings.TrimLeftFunc(s, unicode.IsSpace)]: the
    rune at the front of [s] is decoded and, when it is white space, the
    text after it is returned.  Bytes that do not decode to a white-space
    code point (invalid UTF-8 among them) stop the loop. *)
Definition stripSpaceRune (s : string) : option string :=
  match List.find (fun x => String.prefix x s) spaceRunes with
  | Some x => Some (drop (String.length x) s)
  | None => None
  end.

(** The loop itself; it runs at most [len(s)] times. *)
Fixpoint trimLeftLoop (fuel : nat) (s : string) : string :=
  match fuel with
  | O => s
  | S fuel' =>
      match stripSpaceRune s with
      | Some rest => trimLeftLoop fuel' rest
      | None => s
      end
  end.

Definition trimLeft (s : string) : string := trimLeftLoop (String.length s) s.

(** [strings.TrimRightFunc(s, unicode.IsSpace)]: the white-space runes at
    the end of [s] removed.  With [r] the trimmed text after the first
    byte [c], the text [c r] ends in a white-space rune only if it is one
    (lemmas [trimRight_step] and [trimRight_id] are the loop of the
    source). *)
Fixpoint trimRight (s : string) : string :=
  match s with
  | EmptyString => EmptyString
  | String c s' =>
      let r := trimRight s' in
      if isSpaceRune (String c r) then EmptyString else String c r
  end.

(** [strings.TrimSpace(s)]. *)
Definition TrimSpace (s : string) : string := trimRight (trimLeft s).

(** [strings.Cut(s, sep)]: the text before and after the first occurrence
    of [sep]; this is the [Index] step on which [genSplit] and [Replace]
    are built. *)
Fixpoint Cut (s sep : string) : option (string * string) :=
  if String.prefix sep s then Some (EmptyString, drop (String.length sep) s)
  else match s with
       | EmptyString => None
       | String c s' =>
           match Cut s' sep with
           | Some (a, b) => Some (String c a, b)
           | None => None
           end
       end.

(** [strings.Contains(s, substr)]. *)
Definition Contains (s sub : string) : bool :=
  match Cut s sub with Some _ => true | None => false end.

(** [strings.SplitN(s, sep, n)] for [n >= 0] and a non-empty [sep]: at most
    [n] substrings, the last one being the unsplit remainder. *)
Fixpoint SplitN (s sep : string) (n : nat) : list string :=
  match n with
  | O => []
  | S n' =>
      match n' with
      | O => [s]
      | S _ =>
          match Cut s sep with
          | None => [s]
          | Some (a, b) => a :: SplitN b sep n'
          end
      end
  end.

(** [strings.Split(s, sep)] is [genSplit] with [n < 0], which bounds the
    number of substrings by [len(s) + 1]. *)
Definition Split (s sep : string) : list string :=
  SplitN s sep (S (String.length s)).

(** [strings.Replace(s, old, new, 1)]: only the first occurrence. *)
Definition Replace1 (s old new : string) : string :=
  match Cut s old with
  | Some (a, b) => a +:+ new +:+ b
  | None => s
  end.

(** [strings.Join(elems, sep)]. *)
Fixpoint Join (elems : list string) (sep : string) : string :=
  match elems with
  | [] => EmptyString
  | [x] => x
  | x :: rest => x +:+ sep +:+ Join rest sep
  end.

Definition lowerByte (c : ascii) : ascii :=
  let n := nat_of_ascii c in
  if ((65 <=? n) && (n <=? 90))%nat then ascii_of_nat (n + 32) else c.

(** [strings.ToLower(s)] for a string of ASCII bytes. *)
Fixpoint ToLowerASCII (s : string) : string :=
  match s with
  | EmptyString => EmptyString
  | String c s' => String (lowerByte c) (ToLowerASCII s')
  end.

(** A string in which the byte [c] does not occur. *)
Fixpoint free_of (c : ascii) (s : string) : bool :=
  match s with
  | EmptyString => true
  | String d s' => negb (Ascii.eqb d c) && free_of c s'
  end.

End GoStrings.

Import GoStrings.

(** ** Errors and panics *)

(** The errors the parser returns; [Error] gives the message text of the
    source. *)
Inductive error : Type :=
| ErrCCRNPrefix
| ErrFieldFormat (entry : string)
| ErrMissingCCRN
| ErrURNTooShort
| ErrURNPrefix
| ErrTemplatePrefix
| ErrSegmentCount (urnTemplate urn : string)
| ErrSegmentMismatch (part t : string)
| ErrUnknownFormat
| ErrGetTemplate (cause : string).

Definition Error (e : error) : string :=
  match e with
  | ErrCCRNPrefix => "invalid CCRN format: must start with 'ccrn='"
  | ErrFieldFormat entry => "invalid field format: " +:+ entry +:+ " (must be key=value)"
  | ErrMissingCCRN => "missing required field: ccrn"
  | ErrURNTooShort =>
      "invalid URN format: must contain at least three segments after 'urn:ccrn:'"
  | ErrURNPrefix => "invalid URN format: must start with 'urn:ccrn:'"
  | ErrTemplatePrefix => "invalid URN template: must start with 'urn:ccrn:'"
  | ErrSegmentCount urnTemplate urn =>
      "URN and template do not match in segment count. Expected format "
        +:+ urnTemplate +:+ " segments, got: " +:+ urn
  | ErrSegmentMismatch part t =>
      "URN segment '" +:+ part +:+ "' does not match template '" +:+ t +:+ "'"
  | ErrUnknownFormat => "unknown format: must start with 'ccrn=' or 'urn:ccrn:'"
  | ErrGetTemplate cause => "failed to get URN template: " +:+ cause
  end.

(** Run-time panics of the Go code that the embedding keeps apart from
    returned errors. *)
Inductive panic : Type :=
| IndexOutOfRange (index len : nat)
| SliceBoundsOutOfRange
| NilDereference.

Inductive result (A : Type) : Type :=
| Ok (a : A)
| Err (e : error)
| Panic (p : panic).

Arguments Ok {A} a.
Arguments Err {A} e.
Arguments Panic {A} p.

(** Sequencing: an error or a panic ends the call.  With these instances
    [x ← r; k] reads as the early [return] of the source. *)
#[global] Instance result_ret : MRet result := fun _ a => Ok a.
#[global] Instance result_bind : MBind result := fun _ _ k r =>
  match r with
  | Ok a => k a
  | Err e => Err e
  | Panic p => Panic p
  end.

(** [xs[i]] with Go's bounds check. *)
Definition elemAt {A : Type} (xs : list A) (i : nat) : result A :=
  match xs !! i with
  | Some x => Ok x
  | None => Panic (IndexOutOfRange i (length xs))
  end.

(** What a call without an error type of its own returns, when it does
    not panic. *)
Inductive returned (A : Type) : Type :=
| Return (a : A)
| Panicking (p : panic).

Arguments Return {A} a.
Arguments Panicking {A} p.

(** ** pkg/parser *)

Module Parser.

Definition DEFAULT_URN_TEMPLATE : string := "urn:ccrn:<ccrn>".

(** The quote stripping of [parseCCRNFields]:
    [if len(value) >= 2 && value[0] == '"' && value[len(value)-1] == '"'
       { value = value[1 : len(value)-1] }]. *)
Definition isQuote (o : option ascii) : bool :=
  match o with
  | Some c => Ascii.eqb c (ascii_of_nat 34)
  | None => false
  end.

Definition stripQuotes (value : string) : string :=
  let n := String.length value in
  if (2 <=? n)%nat && isQuote (String.get 0 value) && isQuote (String.get (n - 1) value)
  then String.substring 1 (n - 2) value
  else value.

(** The loop of [parseCCRNFields] over [fieldEntries]. *)
Fixpoint parseEntries (fieldEntries : list string) (fields : gmap string string)
  : result (gmap string string) :=
  match fieldEntries with
  | [] => Ok fields
  | entry :: rest =>
      let entry := TrimSpace entry in
      if String.eqb entry EmptyString then parseEntries rest fields
      else
        match SplitN entry "=" 2 with
        | [k; v] =>
            let key := TrimSpace k in
            let value := stripQuotes (TrimSpace v) in
            parseEntries rest (<[key := value]> fields)
        | _ => Err (ErrFieldFormat entry)
        end
  end.

Definition parseCCRNFields (ccrn : string) : result (gmap string string) :=
  if negb (HasPrefix ccrn "ccrn=") then Err ErrCCRNPrefix
  else
    let fieldsPart := TrimSpace ccrn in
    fields ← parseEntries (Split fieldsPart ",") ∅;
    match fields !! "ccrn" with
    | None => Err ErrMissingCCRN
    | Some _ => Ok fields
    end.

Definition parseURNCCRNField (urn : string) : result string :=
  let body := TrimPrefix urn "urn:ccrn:" in
  let parts := Split body "/" in
  if (length parts <? 3)%nat then Err ErrURNTooShort
  else
    p0 ← elemAt parts 0;
    p1 ← elemAt parts 1;
    Ok (p0 +:+ "/" +:+ p1).

(** [for i := 2; i < len(tmpParts); i++
       { if tmpParts[i] != "" { parts[i-1] = tmpParts[i] } }],
    run from index [i] over the remaining elements of [tmpParts]. *)
Fixpoint fillParts (i : nat) (tmpRest : list string) (parts : list string)
  : list string :=
  match tmpRest with
  | [] => parts
  | x :: tmpRest' =>
      fillParts (S i) tmpRest'
        (if String.eqb x EmptyString then parts else <[i - 1 := x]> parts)
  end.

(** [parts := make([]string, len(tmpParts)-1)] followed by the assignment of
    [parts[0]] and the loop above. *)
Definition rebuildParts (tmpParts : list string) : result (list string) :=
  t0 ← elemAt tmpParts 0;
  t1 ← elemAt tmpParts 1;
  let parts := replicate (length tmpParts - 1) EmptyString in
  if (length parts =? 0)%nat then Panic (IndexOutOfRange 0 0)
  else
    let parts := <[0 := t0 +:+ "/" +:+ t1]> parts in
    Ok (fillParts 2 (List.skipn 2 tmpParts) parts).

(** [t[1 : len(t)-1]]. *)
Definition placeholderName (t : string) : result string :=
  if (String.length t - 1 <? 1)%nat then Panic SliceBoundsOutOfRange
  else Ok (String.substring 1 (String.length t - 2) t).

(** The loop of [parseURNFields] over [templateParts], from index [i]. *)
Fixpoint matchTemplate (i : nat) (templateParts parts : list string)
    (fields : gmap string string) : result (gmap string string) :=
  match templateParts with
  | [] => Ok fields
  | t :: rest =>
      if HasPrefix t "<" && HasSuffix t ">" then
        key ← placeholderName t;
        p ← elemAt parts i;
        matchTemplate (S i) rest parts (<[key := p]> fields)
      else if String.eqb t "<ccrn>" then
        p ← elemAt parts i;
        matchTemplate (S i) rest parts (<["ccrn" := p]> fields)
      else
        p ← elemAt parts i;
        if negb (String.eqb t p) then Err (ErrSegmentMismatch p t)
        else matchTemplate (S i) rest parts fields
  end.

Definition parseURNFields (urn urnTemplate : string)
  : result (gmap string string) :=
  if negb (HasPrefix urn "urn:ccrn:") then Err ErrURNPrefix
  else if negb (HasPrefix urnTemplate "urn:ccrn:") then Err ErrTemplatePrefix
  else
    let body := TrimPrefix urn "urn:ccrn:" in
    let templateBody := TrimPrefix urnTemplate "urn:ccrn:" in
    let templateParts := Split templateBody "/" in
    let tmpParts := SplitN body "/" (length templateParts) in
    parts ← rebuildParts tmpParts;
    if (length parts <? length templateParts)%nat
    then Err (ErrSegmentCount urnTemplate urn)
    else
      fields ← matchTemplate 0 templateParts parts ∅;
      match fields !! "ccrn" with
      | None => Err ErrMissingCCRN
      | Some _ => Ok fields
      end.

(** [p.ExtractCCRNKeyFromURN(urn)]; the receiver is not used. *)
Definition ExtractCCRNKeyFromURN (urn : string) : result string :=
  ccrn ← parseURNCCRNField urn;
  Ok ccrn.

End Parser.

Import Parser.

(** ** pkg/apis: [ParsedResource] *)

Module Apis.

Record ParsedResource : Type := {
  Format : string;                (* "CCRN" or "URN" *)
  Fields : gmap string string;
  Raw : string;
  UrnTemplate : string;
}.

(** One turn of the loop of [URN]:
    [template = strings.Replace(template, "<"+key+">", value, 1)]. *)
Definition substitute (template : string) (kv : string * string) : string :=
  Replace1 template ("<" +:+ kv.1 +:+ ">") kv.2.

(** The loop of [URN] when [range p.Fields] visits the entries in the
    order [visit]. *)
Definition substituteAll (visit : list (string * string)) (template : string)
  : string :=
  foldl substitute template visit.

(** [range] over a Go map visits every entry once, in an order the
    language leaves unspecified. *)
Definition iteration_order (m : gmap string string)
    (visit : list (string * string)) : Prop :=
  visit ≡ₚ map_to_list m.

(** [p.URN(template)] for a given iteration order of [p.Fields]. *)
Definition URN_visiting (visit : list (string * string)) (p : ParsedResource)
    (template : string) : string :=
  if String.eqb template EmptyString then
    if negb (String.eqb (UrnTemplate p) EmptyString)
    then substituteAll visit (UrnTemplate p)
    else EmptyString
  else substituteAll visit template.

(** [out] is a possible return value of [p.URN(template)]. *)
Definition URN (p : ParsedResource) (template : string) (out : string) : Prop :=
  exists visit, iteration_order (Fields p) visit
                /\ out = URN_visiting visit p template.

(** [p.CCRNKey()]. *)
Definition CCRNKey (p : ParsedResource) : string :=
  match Fields p !! "ccrn" with
  | Some ccrn => ccrn
  | None => EmptyString
  end.

(** [p.Version()]. *)
Definition Version (p : ParsedResource) : string :=
  match Fields p !! "ccrn" with
  | Some ccrn =>
      match Split ccrn "/" with
      | _ :: v :: _ => v
      | _ => EmptyString
      end
  | None => EmptyString
  end.

(** [p.CCRNName()]: [strings.SplitN(ccrn, "/", 2)[0]]. *)
Definition CCRNName (p : ParsedResource) : string :=
  match Fields p !! "ccrn" with
  | Some ccrn =>
      match SplitN ccrn "/" 2 with
      | name :: _ => name
      | [] => EmptyString
      end
  | None => EmptyString
  end.

(** [p.GetKind()]: [strings.Split(ccrn, ".")[0]]. *)
Definition GetKind (p : ParsedResource) : string :=
  match Fields p !! "ccrn" with
  | Some ccrn =>
      match Split ccrn "." with
      | kind :: _ => kind
      | [] => EmptyString
      end
  | None => EmptyString
  end.

(** [p.ApiGroup()]: the name before the first slash is cut at its first
    dot; without a dot the name itself is returned.  ([SplitN] with a
    count of two returns at least one element, so the reads of index 0 do
    not panic.) *)
Definition ApiGroup (p : ParsedResource) : string :=
  match Fields p !! "ccrn" with
  | Some ccrn =>
      match SplitN ccrn "/" 2 with
      | name :: _ =>
          match SplitN name "." 2 with
          | _ :: group :: _ => group
          | [kind] => kind
          | [] => EmptyString
          end
      | [] => EmptyString
      end
  | None => EmptyString
  end.

(** One turn of the loop of [CCRN]:
    [if key != "ccrn" { ccrn += fmt.Sprintf(", %s=%s", key, value) }]. *)
Definition appendField (ccrn : string) (kv : string * string) : string :=
  if negb (String.eqb kv.1 "ccrn")
  then ccrn +:+ ", " +:+ kv.1 +:+ "=" +:+ kv.2
  else ccrn.

(** [p.CCRN()] for a given iteration order of [p.Fields]. *)
Definition CCRN_visiting (visit : list (string * string)) (p : ParsedResource)
  : string :=
  match Fields p !! "ccrn" with
  | None => EmptyString
  | Some ccrnString => foldl appendField ("ccrn=" +:+ ccrnString) visit
  end.

(** [out] is a possible return value of [p.CCRN()]. *)
Definition CCRN (p : ParsedResource) (out : string) : Prop :=
  exists visit, iteration_order (Fields p) visit /\ out = CCRN_visiting visit p.

(** The values of the [map[string]any] that [ToResourceMap] builds: a
    string, or the object under [metadata], whose values are strings. *)
Inductive any : Type :=
| AnyString (s : string)
| AnyObject (entries : gmap string string).

(** One turn of the loop of [ToResourceMap]:
    [if key == "ccrn" || key == "metadata" { continue };
     resourceObj[key] = value]. *)
Definition setField (resourceObj : gmap string any) (kv : string * string)
  : gmap string any :=
  if String.eqb kv.1 "ccrn" || String.eqb kv.1 "metadata" then resourceObj
  else <[kv.1 := AnyString kv.2]> resourceObj.

(** [p.ToResourceMap(namespace, name)] for a given iteration order of
    [p.Fields]. *)
Definition ToResourceMap_visiting (visit : list (string * string))
    (p : ParsedResource) (namespace name : string) : gmap string any :=
  foldl setField
    (<["metadata" := AnyObject (<["namespace" := namespace]> {[ "name" := name ]})]>
       {[ "ccrn" := AnyString (CCRNKey p) ]})
    visit.

(** [out] is a possible return value of [p.ToResourceMap(namespace, name)]. *)
Definition ToResourceMap (p : ParsedResource) (namespace name : string)
    (out : gmap string any) : Prop :=
  exists visit, iteration_order (Fields p) visit
                /\ out = ToResourceMap_visiting visit p namespace name.

End Apis.

Import Apis.

(** ** [ResourceParser.Parse] *)

Section ResourceParser.

(** [p.backend.GetURNTemplate(crdName, version)]: a template, or the text
    of the backend's error. *)
Variable GetURNTemplate : string -> string -> string + string.

(** [Parse] calls itself with the template the backend returns; [fuel]
    bounds the depth of that recursion and [None] says it was exhausted. *)
Fixpoint Parse (fuel : nat) (input urnTemplate : string)
  : option (result ParsedResource) :=
  if HasPrefix input "ccrn=" then
    Some (parsed ← parseCCRNFields input;
          Ok {| Format := "CCRN"; Fields := parsed; Raw := input;
                UrnTemplate := EmptyString |})
  else if HasPrefix input "urn:ccrn:" then
    if String.eqb urnTemplate EmptyString
       || String.eqb urnTemplate DEFAULT_URN_TEMPLATE then
      match parseURNCCRNField input with
      | Ok parsed =>
          let parsedResource :=
            {| Format := "URN"; Fields := {[ "ccrn" := parsed ]};
               Raw := input; UrnTemplate := EmptyString |} in
          match GetURNTemplate (CCRNName parsedResource)
                               (Version parsedResource) with
          | inr cause => Some (Err (ErrGetTemplate cause))
          | inl template =>
              match fuel with
              | O => None
              | S fuel' => Parse fuel' input template
              end
          end
      | Err e => Some (Err e)
      | Panic p => Some (Panic p)
      end
    else if negb (HasPrefix urnTemplate "urn:ccrn:") then
      Some (Err ErrTemplatePrefix)
    else
      Some (parsed ← parseURNFields input urnTemplate;
            Ok {| Format := "URN"; Fields := parsed; Raw := input;
                  UrnTemplate := EmptyString |})
  else Some (Err ErrUnknownFormat).

End ResourceParser.

(** ** pkg/validation: the filesystem backend *)

Module Validation.

Definition YAMLDocumentSeparator : string := "---".
Definition CRDKind : string := "CustomResourceDefinition".
Definition yamlExtension : string := ".yaml".
Definition ymlExtension : string := ".yml".

(** [fmt.Sprintf(URNTemplateAnnotationFormat, version)]. *)
Definition URNTemplateAnnotation (version : string) : string :=
  "ccrn/" +:+ version +:+ ".urn-template".

(** [filepath.Ext(path)]: the suffix from the last dot of the last path
    element, found by scanning from the end. *)
Fixpoint scanExt (reversed acc : string) : string :=
  match reversed with
  | EmptyString => EmptyString
  | String c r =>
      if Ascii.eqb c "/"%char then EmptyString
      else if Ascii.eqb c "."%char then String c acc
      else scanExt r (String c acc)
  end.

Definition Ext (path : string) : string := scanExt (String.rev path) EmptyString.

Definition isEmptyDocument (document : string) : bool :=
  let trimmed := TrimSpace document in
  if String.eqb trimmed EmptyString then true
  else
    forallb
      (fun line =>
         let line := TrimSpace line in
         negb (negb (String.eqb line EmptyString) && negb (HasPrefix line "#")))
      (Split trimmed (String (ascii_of_nat 10) EmptyString)).

Inductive structureError : Type :=
| WrongKind (got : string)
| EmptyGroup
| EmptyNamesKind
| NoVersions
| NoVersionWithSchema.

Inductive documentError : Type :=
| ParseYAMLFailed
| InvalidStructure (e : structureError).

Inductive loadError : Type :=
| ReadFileFailed (filePath : string)
| SplitDocumentsFailed (filePath : string)
| DocumentFailed (filePath : string) (document : nat) (e : documentError).

(** The errors of [LoadCRDs]. *)
Inductive backendError : Type :=
| BadPattern (pattern : string)
| NoFilesFound (pattern : string)
| FailedToLoadAny (errors : list loadError).

(** The error of [Refresh]: the paths that failed, each with its error. *)
Inductive refreshError : Type :=
| RefreshFailed (errors : list (string * backendError)).

(** The error of [LoadCRDsFromDirectory]: the patterns that failed, each
    with its error. *)
Inductive directoryError : Type :=
| DirectoryFailed (dir : string) (errors : list (string * backendError)).

(** What a call does: it returns (with or without an error) or panics. *)
Inductive outcome (E : Type) : Type :=
| Returns (err : option E)
| Panics (p : panic).

Arguments Returns {E} err.
Arguments Panics {E} p.

Section FilesystemBackend.

(** The structural schema and its validator belong to the Kubernetes
    libraries.  [NewSchemaValidator] stands for the conversion of the
    schema followed by [validation.NewSchemaValidator]; either may fail. *)
Variable JSONSchemaProps : Type.
Variable SchemaValidator : Type.
Variable NewSchemaValidator : JSONSchemaProps -> option SchemaValidator.

(** [apiextensionsv1.CustomResourceDefinitionVersion]; [vSchema] is the
    pointer [Schema] and, below it, the pointer [OpenAPIV3Schema]. *)
Record CustomResourceDefinitionVersion : Type := {
  vName : string;
  vServed : bool;
  vSchema : option (option JSONSchemaProps);
}.

(** The fields of [apiextensionsv1.CustomResourceDefinition] the backend
    reads. *)
Record CustomResourceDefinition : Type := {
  crdKind : string;                              (* TypeMeta.Kind *)
  crdName : string;                              (* ObjectMeta.Name *)
  crdAnnotations : option (gmap string string);  (* nil or a map *)
  specGroup : string;
  namesKind : string;
  namesPlural : string;
  namesSingular : string;
  specVersions : list CustomResourceDefinitionVersion;
}.

Record CRDInfo : Type := {
  infoName : string;
  infoPlural : string;
  infoSingular : string;
  infoGroup : string;
  infoKind : string;
  infoVersion : string;
  infoSchema : option JSONSchemaProps;
  infoURNFormat : string;
}.

(** The file system and the YAML decoder.  [Glob] is [filepath.Glob]
    ([None] for a malformed pattern), [ReadFile] is [os.ReadFile],
    [ScanLines] is the [bufio.Scanner] loop (the lines read, and whether
    [scanner.Err()] is set), [Unmarshal] is [yaml.Unmarshal] into a
    [CustomResourceDefinition]. *)
Variable Glob : string -> option (list string).
Variable ReadFile : string -> option string.
Variable ScanLines : string -> list string * bool.
Variable Unmarshal : string -> option CustomResourceDefinition.

(** [strings.ToLower], with the case mapping of Unicode. *)
Variable ToLower : string -> string.

Definition isYAMLFile (filePath : string) : bool :=
  let ext := ToLower (Ext filePath) in
  String.eqb ext yamlExtension || String.eqb ext ymlExtension.

Definition getCRDKey (group version kind : string) : string :=
  ToLower (kind +:+ "." +:+ group +:+ "/" +:+ version).

(** The three maps guarded by [crdsMutex], as a reader holding the read
    lock sees them. *)
Record Snapshot : Type := {
  sCrds : gmap string CRDInfo;
  sCrdsByFile : gmap string (list CustomResourceDefinition);
  sValidators : gmap string SchemaValidator;
}.

(** [released] is not a field of the Go struct: it records the maps at
    each release of the write lock, oldest first, that is, every state
    of the index a reader can find between two critical sections. *)
Record FilesystemBackend : Type := {
  crds : gmap string CRDInfo;
  crdsByFile : gmap string (list CustomResourceDefinition);
  validators : gmap string SchemaValidator;
  ccrnGroup : string;
  loadedPaths : list string;
  released : list Snapshot;
}.

Definition snapshot (fb : FilesystemBackend) : Snapshot :=
  {| sCrds := crds fb; sCrdsByFile := crdsByFile fb;
     sValidators := validators fb |}.

(** [fb.crdsMutex.Unlock()]. *)
Definition Unlock (fb : FilesystemBackend) : FilesystemBackend :=
  {| crds := crds fb; crdsByFile := crdsByFile fb;
     validators := validators fb; ccrnGroup := ccrnGroup fb;
     loadedPaths := loadedPaths fb;
     released := released fb ++ [snapshot fb] |}.

Definition NewOfflineBackend (group : string) : FilesystemBackend :=
  {| crds := ∅; crdsByFile := ∅; validators := ∅; ccrnGroup := group;
     loadedPaths := []; released := [] |}.

Record CRDLoadingResult : Type := {
  ProcessedFiles : nat;
  ProcessedCRDs : nat;
  SkippedCRDs : nat;
  ErrorCount : nat;
  Errors : list loadError;
  LoadedCRDKeys : list string;
}.

Definition emptyResult : CRDLoadingResult :=
  {| ProcessedFiles := 0; ProcessedCRDs := 0; SkippedCRDs := 0;
     ErrorCount := 0; Errors := []; LoadedCRDKeys := [] |}.

Definition countFile (r : CRDLoadingResult) : CRDLoadingResult :=
  {| ProcessedFiles := S (ProcessedFiles r); ProcessedCRDs := ProcessedCRDs r;
     SkippedCRDs := SkippedCRDs r; ErrorCount := ErrorCount r;
     Errors := Errors r; LoadedCRDKeys := LoadedCRDKeys r |}.

(** [result.Errors = append(result.Errors, err); result.ErrorCount++]. *)
Definition recordError (e : loadError) (r : CRDLoadingResult) : CRDLoadingResult :=
  {| ProcessedFiles := ProcessedFiles r; ProcessedCRDs := ProcessedCRDs r;
     SkippedCRDs := SkippedCRDs r; ErrorCount := S (ErrorCount r);
     Errors := Errors r ++ [e]; LoadedCRDKeys := LoadedCRDKeys r |}.

Definition countSkipped (r : CRDLoadingResult) : CRDLoadingResult :=
  {| ProcessedFiles := ProcessedFiles r; ProcessedCRDs := ProcessedCRDs r;
     SkippedCRDs := S (SkippedCRDs r); ErrorCount := ErrorCount r;
     Errors := Errors r; LoadedCRDKeys := LoadedCRDKeys r |}.

(** [result.ProcessedCRDs++] and the keys of the served versions. *)
Definition countLoaded (crd : CustomResourceDefinition) (r : CRDLoadingResult)
  : CRDLoadingResult :=
  {| ProcessedFiles := ProcessedFiles r; ProcessedCRDs := S (ProcessedCRDs r);
     SkippedCRDs := SkippedCRDs r; ErrorCount := ErrorCount r;
     Errors := Errors r;
     LoadedCRDKeys :=
       LoadedCRDKeys r
       ++ List.map (fun v => getCRDKey (specGroup crd) (vName v) (namesKind crd))
            (List.filter vServed (specVersions crd)) |}.

(** The scanner loop of [splitYAMLDocuments]: the documents closed so
    far and the text of [currentDocument]. *)
Definition splitStep (st : list string * string) (line : string)
  : list string * string :=
  let '(documents, currentDocument) := st in
  if String.eqb (TrimSpace line) YAMLDocumentSeparator then
    if (0 <? String.length currentDocument)%nat
    then (documents ++ [TrimSpace currentDocument], EmptyString)
    else (documents, currentDocument)
  else (documents, currentDocument +:+ line +:+ String (ascii_of_nat 10) EmptyString).

(** [None] is the scanner's error. *)
Definition splitYAMLDocuments (content : string) : option (list string) :=
  if String.eqb (TrimSpace content) EmptyString then Some []
  else
    let '(lines, failed) := ScanLines content in
    let '(documents, currentDocument) := foldl splitStep ([], EmptyString) lines in
    let documents :=
      if (0 <? String.length currentDocument)%nat
      then documents ++ [TrimSpace currentDocument]
      else documents in
    if failed then None else Some documents.

Definition hasSchema (version : CustomResourceDefinitionVersion) : bool :=
  match vSchema version with
  | Some (Some _) => true
  | _ => false
  end.

Definition validateCRDStructure (crd : CustomResourceDefinition)
  : option structureError :=
  if negb (String.eqb (crdKind crd) CRDKind) then Some (WrongKind (crdKind crd))
  else if String.eqb (specGroup crd) EmptyString then Some EmptyGroup
  else if String.eqb (namesKind crd) EmptyString then Some EmptyNamesKind
  else if (length (specVersions crd) =? 0)%nat then Some NoVersions
  else if negb (existsb
                  (fun version =>
                     negb (String.eqb (vName version) EmptyString)
                     && hasSchema version)
                  (specVersions crd))
       then Some NoVersionWithSchema
  else None.

Definition isCCRNRelevant (fb : FilesystemBackend)
    (crd : CustomResourceDefinition) : bool :=
  Contains (specGroup crd) (ccrnGroup fb).

Definition extractURNTemplate (crd : CustomResourceDefinition)
    (version : string) : string :=
  match crdAnnotations crd with
  | None => EmptyString
  | Some annotations =>
      match annotations !! URNTemplateAnnotation version with
      | Some urnFormat => urnFormat
      | None => EmptyString
      end
  end.

Definition setCrds (m : gmap string CRDInfo) (fb : FilesystemBackend)
  : FilesystemBackend :=
  {| crds := m; crdsByFile := crdsByFile fb; validators := validators fb;
     ccrnGroup := ccrnGroup fb; loadedPaths := loadedPaths fb;
     released := released fb |}.

Definition setValidators (m : gmap string SchemaValidator)
    (fb : FilesystemBackend) : FilesystemBackend :=
  {| crds := crds fb; crdsByFile := crdsByFile fb; validators := m;
     ccrnGroup := ccrnGroup fb; loadedPaths := loadedPaths fb;
     released := released fb |}.

Definition setCrdsByFile (m : gmap string (list CustomResourceDefinition))
    (fb : FilesystemBackend) : FilesystemBackend :=
  {| crds := crds fb; crdsByFile := m; validators := validators fb;
     ccrnGroup := ccrnGroup fb; loadedPaths := loadedPaths fb;
     released := released fb |}.

Definition setLoadedPaths (l : list string) (fb : FilesystemBackend)
  : FilesystemBackend :=
  {| crds := crds fb; crdsByFile := crdsByFile fb; validators := validators fb;
     ccrnGroup := ccrnGroup fb; loadedPaths := l; released := released fb |}.

(** [createSchemaValidator]: the backend and whether an error is
    returned. *)
Definition createSchemaValidator (crdKey : string)
    (version : CustomResourceDefinitionVersion) (fb : FilesystemBackend)
  : FilesystemBackend * bool :=
  match vSchema version with
  | Some (Some schema) =>
      match NewSchemaValidator schema with
      | Some validator => (setValidators (<[crdKey := validator]> (validators fb)) fb, false)
      | None => (fb, true)
      end
  | _ => (fb, true)
  end.

(** The loop of [storeCRD] over [crd.Spec.Versions], run with the write
    lock held.  Reading [version.Schema.OpenAPIV3Schema] through a nil
    [version.Schema] panics. *)
Fixpoint storeVersions (crd : CustomResourceDefinition)
    (versions : list CustomResourceDefinitionVersion) (fb : FilesystemBackend)
  : FilesystemBackend * option panic :=
  match versions with
  | [] => (fb, None)
  | version :: rest =>
      if negb (vServed version) then storeVersions crd rest fb
      else
        let crdKey := getCRDKey (specGroup crd) (vName version) (namesKind crd) in
        let urnFormat := extractURNTemplate crd (vName version) in
        match vSchema version with
        | None => (fb, Some NilDereference)
        | Some schema =>
            let crdInfo :=
              {| infoName := crdName crd; infoPlural := namesPlural crd;
                 infoSingular := namesSingular crd; infoGroup := specGroup crd;
                 infoKind := namesKind crd; infoVersion := vName version;
                 infoSchema := schema; infoURNFormat := urnFormat |} in
            let fb := setCrds (<[crdKey := crdInfo]> (crds fb)) fb in
            let fb := (createSchemaValidator crdKey version fb).1 in
            storeVersions crd rest fb
        end
  end.

(** [storeCRD]: one critical section; the deferred [Unlock] also runs
    when the body panics. *)
Definition storeCRD (crd : CustomResourceDefinition) (fb : FilesystemBackend)
  : FilesystemBackend * option panic :=
  let '(fb, p) := storeVersions crd (specVersions crd) fb in
  (Unlock fb, p).

Inductive documentOutcome : Type :=
| DocumentError (e : documentError)
| DocumentSkipped
| DocumentLoaded (crd : CustomResourceDefinition)
| DocumentPanic (p : panic).

Definition processSingleDocument (document : string) (fb : FilesystemBackend)
  : FilesystemBackend * documentOutcome :=
  match Unmarshal document with
  | None => (fb, DocumentError ParseYAMLFailed)
  | Some crd =>
      match validateCRDStructure crd with
      | Some e => (fb, DocumentError (InvalidStructure e))
      | None =>
          if negb (isCCRNRelevant fb crd) then (fb, DocumentSkipped)
          else
            match storeCRD crd fb with
            | (fb, Some p) => (fb, DocumentPanic p)
            | (fb, None) => (fb, DocumentLoaded crd)
            end
      end
  end.

(** The loop of [processFile] over [documents], from document [i]. *)
Fixpoint processDocuments (filePath : string) (i : nat) (documents : list string)
    (fb : FilesystemBackend) (result : CRDLoadingResult)
    (loadedCRDs : list CustomResourceDefinition)
  : FilesystemBackend * CRDLoadingResult * list CustomResourceDefinition
    * option panic :=
  match documents with
  | [] => (fb, result, loadedCRDs, None)
  | document :: rest =>
      if isEmptyDocument document
      then processDocuments filePath (S i) rest fb result loadedCRDs
      else
        match processSingleDocument document fb with
        | (fb, DocumentError e) =>
            processDocuments filePath (S i) rest fb
              (recordError (DocumentFailed filePath i e) result) loadedCRDs
        | (fb, DocumentLoaded crd) =>
            processDocuments filePath (S i) rest fb
              (countLoaded crd result) (loadedCRDs ++ [crd])
        | (fb, DocumentSkipped) =>
            processDocuments filePath (S i) rest fb (countSkipped result) loadedCRDs
        | (fb, DocumentPanic p) => (fb, result, loadedCRDs, Some p)
        end
  end.

Definition processFile (filePath : string) (fb : FilesystemBackend)
    (result : CRDLoadingResult)
  : FilesystemBackend * CRDLoadingResult * option panic :=
  let result := countFile result in
  match ReadFile filePath with
  | None => (fb, recordError (ReadFileFailed filePath) result, None)
  | Some fileContent =>
      match splitYAMLDocuments fileContent with
      | None => (fb, recordError (SplitDocumentsFailed filePath) result, None)
      | Some documents =>
          match processDocuments filePath 0 documents fb result [] with
          | (fb, result, _, Some p) => (fb, result, Some p)
          | (fb, result, loadedCRDs, None) =>
              if (0 <? length loadedCRDs)%nat
              then (Unlock (setCrdsByFile
                              (<[filePath := loadedCRDs]> (crdsByFile fb)) fb),
                    result, None)
              else (fb, result, None)
          end
      end
  end.

(** The loop of [LoadCRDs] over [matchedFiles]. *)
Fixpoint processFiles (matchedFiles : list string) (fb : FilesystemBackend)
    (result : CRDLoadingResult)
  : FilesystemBackend * CRDLoadingResult * option panic :=
  match matchedFiles with
  | [] => (fb, result, None)
  | filePath :: rest =>
      if isYAMLFile filePath then
        match processFile filePath fb result with
        | (fb, result, Some p) => (fb, result, Some p)
        | (fb, result, None) => processFiles rest fb result
        end
      else processFiles rest fb result
  end.

(** [LoadCRDs], returning also the [CRDLoadingResult] it accumulated
    (the value it logs), when it got as far as building one. *)
Definition LoadCRDs_result (pattern : string) (fb : FilesystemBackend)
  : FilesystemBackend * outcome backendError * option CRDLoadingResult :=
  match Glob pattern with
  | None => (fb, Returns (Some (BadPattern pattern)), None)
  | Some matchedFiles =>
      if (length matchedFiles =? 0)%nat
      then (fb, Returns (Some (NoFilesFound pattern)), None)
      else
        match processFiles matchedFiles fb emptyResult with
        | (fb, result, Some p) => (fb, Panics p, Some result)
        | (fb, result, None) =>
            let fb := setLoadedPaths (loadedPaths fb ++ [pattern]) fb in
            if (ProcessedCRDs result =? 0)%nat && (0 <? length (Errors result))%nat
            then (fb, Returns (Some (FailedToLoadAny (Errors result))), Some result)
            else (fb, Returns None, Some result)
        end
  end.

Definition LoadCRDs (pattern : string) (fb : FilesystemBackend)
  : FilesystemBackend * outcome backendError :=
  (LoadCRDs_result pattern fb).1.

(** The loop of [Refresh] over the paths [fb.loadedPaths] held when the
    loop started. *)
Fixpoint reloadPaths (paths : list string) (fb : FilesystemBackend)
    (allErrors : list (string * backendError))
  : FilesystemBackend * list (string * backendError) * option panic :=
  match paths with
  | [] => (fb, allErrors, None)
  | path :: rest =>
      match LoadCRDs path fb with
      | (fb, Panics p) => (fb, allErrors, Some p)
      | (fb, Returns (Some err)) => reloadPaths rest fb (allErrors ++ [(path, err)])
      | (fb, Returns None) => reloadPaths rest fb allErrors
      end
  end.

Definition clearState (fb : FilesystemBackend) : FilesystemBackend :=
  setValidators ∅ (setCrdsByFile ∅ (setCrds ∅ fb)).

Definition Refresh (fb : FilesystemBackend)
  : FilesystemBackend * outcome refreshError :=
  if (length (loadedPaths fb) =? 0)%nat then (fb, Returns None)
  else
    let fb := Unlock (clearState fb) in
    match reloadPaths (loadedPaths fb) fb [] with
    | (fb, _, Some p) => (fb, Panics p)
    | (fb, allErrors, None) =>
        if (0 <? length allErrors)%nat
        then (fb, Returns (Some (RefreshFailed allErrors)))
        else (fb, Returns None)
    end.

(** What readers do with the read lock held. *)
Definition IsResourceTypeSupported (s : Snapshot) (ccrnVersion : string) : bool :=
  bool_decide (is_Some (sCrds s !! ccrnVersion)).

Definition GetCRD (s : Snapshot) (ccrnVersion : string) : option CRDInfo :=
  sCrds s !! ccrnVersion.

(** The lookup that opens [ValidateResource]. *)
Definition lookupValidator (s : Snapshot) (ccrnVersion : string)
  : option SchemaValidator :=
  sValidators s !! ccrnVersion.

(** What a batch has to account for: one entry for each non-empty
    document of a file that can be read and split, and one for each
    file that cannot. *)
Definition entriesOfFile (filePath : string) : nat :=
  match ReadFile filePath with
  | None => 1
  | Some fileContent =>
      match splitYAMLDocuments fileContent with
      | None => 1
      | Some documents =>
          length (List.filter (fun d => negb (isEmptyDocument d)) documents)
      end
  end.

Definition entriesOfBatch (matchedFiles : list string) : nat :=
  list_sum (List.map entriesOfFile (List.filter isYAMLFile matchedFiles)).

(** The documents a batch hands to [processSingleDocument]: the
    non-empty documents of its YAML files that can be read and split. *)
Definition documentsOfFile (filePath : string) : list string :=
  match ReadFile filePath with
  | None => []
  | Some fileContent =>
      match splitYAMLDocuments fileContent with
      | None => []
      | Some documents =>
          List.filter (fun d => negb (isEmptyDocument d)) documents
      end
  end.

Definition documentsOfBatch (matchedFiles : list string) : list string :=
  flat_map documentsOfFile (List.filter isYAMLFile matchedFiles).

(** No definition in the batch has a served version without [schema]
    (the nil pointer [storeCRD] reads through). *)
Definition schemas_present (matchedFiles : list string) : Prop :=
  forall document crd,
    In document (documentsOfBatch matchedFiles) ->
    Unmarshal document = Some crd ->
    Forall (fun version => vServed version = true -> vSchema version <> None)
      (specVersions crd).

(** Every type with a validator has a descriptor. *)
Definition validators_have_descriptors (s : Snapshot) : Prop :=
  forall key, is_Some (sValidators s !! key) -> is_Some (sCrds s !! key).

(** The descriptor map and the validator map hold the same types. *)
Definition maps_agree (s : Snapshot) : Prop :=
  forall key, is_Some (sCrds s !! key) <-> is_Some (sValidators s !! key).

(** A version for which [createSchemaValidator] returns no error. *)
Definition buildable (version : CustomResourceDefinitionVersion) : bool :=
  match vSchema version with
  | Some (Some schema) =>
      match NewSchemaValidator schema with
      | Some _ => true
      | None => false
      end
  | _ => false
  end.

(** Every served version of every definition the decoder produces is
    buildable. *)
Definition validators_always_build : Prop :=
  forall document crd,
    Unmarshal document = Some crd ->
    forallb (fun version => negb (vServed version) || buildable version)
      (specVersions crd) = true.

(** The index with nothing in it. *)
Definition emptySnapshot : Snapshot :=
  {| sCrds := ∅; sCrdsByFile := ∅; sValidators := ∅ |}.

(** [GetURNTemplate], once the loops have found the definition [crd]
    whose name is [name]: the template, or the text of the error. *)
Definition templateOf (crd : CustomResourceDefinition) (name version : string)
  : string + string :=
  let annotationKey := URNTemplateAnnotation version in
  let missing :=
    inr ("URN template annotation " +:+ annotationKey
           +:+ " not found in CRD " +:+ name) in
  match crdAnnotations crd with
  | None => missing
  | Some annotations =>
      match annotations !! annotationKey with
      | Some urnFormat =>
          if negb (String.eqb urnFormat EmptyString) then inl urnFormat
          else missing
      | None => missing
      end
  end.

(** [GetURNTemplate(crdName, version)] when [range fb.crdsByFile] visits
    the files in the order [visit]: the two loops stop at the first
    definition whose name is [name]. *)
Definition GetURNTemplate_visiting
    (visit : list (string * list CustomResourceDefinition))
    (name version : string) : string + string :=
  match List.find (fun crd => String.eqb (crdName crd) name) (concat visit.*2) with
  | Some crd => templateOf crd name version
  | None => inr ("CRD " +:+ name +:+ " not found in loaded CRDs")
  end.

(** [out] is a possible return value of [GetURNTemplate(name, version)]
    for a reader that holds the read lock on [s]. *)
Definition GetURNTemplate (s : Snapshot) (name version : string)
    (out : string + string) : Prop :=
  exists visit, visit ≡ₚ map_to_list (sCrdsByFile s)
                /\ out = GetURNTemplate_visiting visit name version.

(** [filepath.Join]. *)
Variable filepathJoin : list string -> string.

Definition directoryPatterns (dir : string) : list string :=
  [filepathJoin [dir; "*.yaml"]; filepathJoin [dir; "*.yml"];
   filepathJoin [dir; "**"; "*.yaml"]; filepathJoin [dir; "**"; "*.yml"]].

(** The loop of [LoadCRDsFromDirectory] over its patterns;
    [totalLoaded] is [len(fb.crds)] after the last pattern that loaded
    without an error. *)
Fixpoint tryPatterns (patterns : list string) (fb : FilesystemBackend)
    (allErrors : list (string * backendError)) (totalLoaded : nat)
  : FilesystemBackend * list (string * backendError) * nat * option panic :=
  match patterns with
  | [] => (fb, allErrors, totalLoaded, None)
  | pattern :: rest =>
      match LoadCRDs pattern fb with
      | (fb, Panics p) => (fb, allErrors, totalLoaded, Some p)
      | (fb, Returns (Some err)) =>
          tryPatterns rest fb (allErrors ++ [(pattern, err)]) totalLoaded
      | (fb, Returns None) => tryPatterns rest fb allErrors (size (crds fb))
      end
  end.

Definition LoadCRDsFromDirectory (dir : string) (fb : FilesystemBackend)
  : FilesystemBackend * outcome directoryError :=
  match tryPatterns (directoryPatterns dir) fb [] 0 with
  | (fb, _, _, Some p) => (fb, Panics p)
  | (fb, allErrors, totalLoaded, None) =>
      if (totalLoaded =? 0)%nat && (0 <? length allErrors)%nat
      then (fb, Returns (Some (DirectoryFailed dir allErrors)))
      else (fb, Returns None)
  end.

(** The writes to the maps that the loading of a batch is made of, and
    the release of the write lock. *)
Inductive write : FilesystemBackend -> FilesystemBackend -> Prop :=
| write_descriptor (fb : FilesystemBackend) (crdKey : string) (crdInfo : CRDInfo) :
    write fb (setCrds (<[crdKey := crdInfo]> (crds fb)) fb)
| write_validator (fb : FilesystemBackend) (crdKey : string)
    (validator : SchemaValidator) :
    write fb (setValidators (<[crdKey := validator]> (validators fb)) fb)
| write_file (fb : FilesystemBackend) (filePath : string)
    (loadedCRDs : list CustomResourceDefinition) :
    write fb (setCrdsByFile (<[filePath := loadedCRDs]> (crdsByFile fb)) fb)
| write_unlock (fb : FilesystemBackend) : write fb (Unlock fb).

(** A backend made by [NewOfflineBackend] and calls of [LoadCRDs] that
    returned. *)
Inductive built : FilesystemBackend -> Prop :=
| built_new (group : string) : built (NewOfflineBackend group)
| built_load (fb : FilesystemBackend) (pattern : string)
    (fb' : FilesystemBackend) (err : option backendError) :
    built fb -> LoadCRDs pattern fb = (fb', Returns err) -> built fb'.

(** What the loading of a batch reads of the backend: the three maps
    and the group. *)
Definition index (fb : FilesystemBackend)
  : gmap string CRDInfo * gmap string (list CustomResourceDefinition)
    * gmap string SchemaValidator * string :=
  (crds fb, crdsByFile fb, validators fb, ccrnGroup fb).

(** The descriptor that [storeCRD] files for a served version. *)
Definition descriptorOf (crd : CustomResourceDefinition)
    (version : CustomResourceDefinitionVersion) : option CRDInfo :=
  match vSchema version with
  | None => None
  | Some schema =>
      Some {| infoName := crdName crd; infoPlural := namesPlural crd;
              infoSingular := namesSingular crd; infoGroup := specGroup crd;
              infoKind := namesKind crd; infoVersion := vName version;
              infoSchema := schema;
              infoURNFormat := extractURNTemplate crd (vName version) |}
  end.

(** The patterns of [paths] that match at least one file. *)
Definition matching (paths : list string) : list string :=
  List.filter
    (fun pattern =>
       match Glob pattern with
       | Some (_ :: _) => true
       | _ => false
       end)
    paths.

End FilesystemBackend.

Arguments vName {_} _.
Arguments vServed {_} _.
Arguments vSchema {_} _.
Arguments crdKind {_} _.
Arguments crdName {_} _.
Arguments crdAnnotations {_} _.
Arguments specGroup {_} _.
Arguments namesKind {_} _.
Arguments namesPlural {_} _.
Arguments namesSingular {_} _.
Arguments specVersions {_} _.
Arguments sCrds {_ _} _.
Arguments sCrdsByFile {_ _} _.
Arguments sValidators {_ _} _.
Arguments crds {_ _} _.
Arguments crdsByFile {_ _} _.
Arguments validators {_ _} _.
Arguments ccrnGroup {_ _} _.
Arguments loadedPaths {_ _} _.
Arguments released {_ _} _.
Arguments snapshot {_ _} _.
Arguments Unlock {_ _} _.
Arguments countLoaded {_} _ _ _.
Arguments hasSchema {_} _.
Arguments validateCRDStructure {_} _.
Arguments isCCRNRelevant {_ _} _ _.
Arguments extractURNTemplate {_} _ _.
Arguments setCrds {_ _} _ _.
Arguments setValidators {_ _} _ _.
Arguments setCrdsByFile {_ _} _ _.
Arguments setLoadedPaths {_ _} _ _.
Arguments createSchemaValidator {_ _} _ _ _ _.
Arguments storeVersions {_ _} _ _ _ _ _.
Arguments storeCRD {_ _} _ _ _ _.
Arguments DocumentError {_} _.
Arguments DocumentSkipped {_}.
Arguments DocumentLoaded {_} _.
Arguments DocumentPanic {_} _.
Arguments processSingleDocument {_ _} _ _ _ _ _.
Arguments processDocuments {_ _} _ _ _ _ _ _ _ _ _.
Arguments processFile {_ _} _ _ _ _ _ _ _ _.
Arguments processFiles {_ _} _ _ _ _ _ _ _ _.
Arguments LoadCRDs_result {_ _} _ _ _ _ _ _ _ _.
Arguments LoadCRDs {_ _} _ _ _ _ _ _ _ _.
Arguments reloadPaths {_ _} _ _ _ _ _ _ _ _ _.
Arguments clearState {_ _} _.
Arguments Refresh {_ _} _ _ _ _ _ _ _.
Arguments IsResourceTypeSupported {_ _} _ _.
Arguments GetCRD {_ _} _ _.
Arguments lookupValidator {_ _} _ _.
Arguments validators_have_descriptors {_ _} _.
Arguments maps_agree {_ _} _.
Arguments buildable {_ _} _ _.
Arguments validators_always_build {_ _} _ _.
Arguments schemas_present {_} _ _ _ _ _.
Arguments emptySnapshot {_ _}.
Arguments templateOf {_} _ _ _.
Arguments GetURNTemplate_visiting {_} _ _ _.
Arguments GetURNTemplate {_ _} _ _ _ _.
Arguments tryPatterns {_ _} _ _ _ _ _ _ _ _ _ _.
Arguments LoadCRDsFromDirectory {_ _} _ _ _ _ _ _ _ _ _.
Arguments write {_ _} _ _.
Arguments write_descriptor {_ _} _ _ _.
Arguments write_validator {_ _} _ _ _.
Arguments write_file {_ _} _ _ _.
Arguments write_unlock {_ _} _.
Arguments descriptorOf {_} _ _.
Arguments built {_ _} _ _ _ _ _ _ _.
Arguments built_new {_ _} _ _ _ _ _ _ _.
Arguments built_load {_ _} _ _ _ _ _ _ _ _ _ _.
Arguments index {_ _} _.
Arguments infoName {_} _.
Arguments infoPlural {_} _.
Arguments infoSingular {_} _.
Arguments infoGroup {_} _.
Arguments infoKind {_} _.
Arguments infoVersion {_} _.
Arguments infoSchema {_} _.
Arguments infoURNFormat {_} _.

End Validation.

Import Validation.

(** ** pkg/validation: the Kubernetes backend *)

Module Kubernetes.

Inductive kubernetesError : Type :=
| ListFailed
| NotFound (crdVersion : string).

Section KubernetesBackend.

Context {JSONSchemaProps : Type}.

(** [strings.ToLower], with the case mapping of Unicode. *)
Variable ToLower : string -> string.

(** [released] is not a field of the Go struct: as for the filesystem
    backend, it records the cache at each release of the write lock. *)
Record KubernetesBackend : Type := {
  ccrns : gmap string (CRDInfo JSONSchemaProps);
  ccrnGroup : string;
  released : list (gmap string (CRDInfo JSONSchemaProps));
}.

Definition getCRDKeyFromCRD (crd : CustomResourceDefinition JSONSchemaProps)
    (version : string) : string :=
  ToLower (namesKind crd +:+ "." +:+ specGroup crd +:+ "/" +:+ version).

(** The annotation that [Refresh] reads; a nil map has no entry. *)
Definition urnFormatOf (crd : CustomResourceDefinition JSONSchemaProps)
    (version : string) : string :=
  match crdAnnotations crd with
  | None => EmptyString
  | Some annotations =>
      match annotations !! ("ccrn/" +:+ version +:+ ".urn-template") with
      | Some format => format
      | None => EmptyString
      end
  end.

(** The loop of [Refresh] over [crd.Spec.Versions].  As in [storeCRD],
    reading [version.Schema.OpenAPIV3Schema] through a nil
    [version.Schema] panics. *)
Fixpoint refreshVersions (crd : CustomResourceDefinition JSONSchemaProps)
    (versions : list (CustomResourceDefinitionVersion JSONSchemaProps))
    (cache : gmap string (CRDInfo JSONSchemaProps))
  : gmap string (CRDInfo JSONSchemaProps) * option panic :=
  match versions with
  | [] => (cache, None)
  | version :: rest =>
      if vServed version then
        let crdKey := getCRDKeyFromCRD crd (vName version) in
        let urnFormat := urnFormatOf crd (vName version) in
        match vSchema version with
        | None => (cache, Some NilDereference)
        | Some schema =>
            refreshVersions crd rest
              (<[crdKey :=
                   {| infoName := crdName crd; infoPlural := namesPlural crd;
                      infoSingular := namesSingular crd;
                      infoGroup := specGroup crd; infoKind := namesKind crd;
                      infoVersion := vName version; infoSchema := schema;
                      infoURNFormat := urnFormat |}]> cache)
        end
      else refreshVersions crd rest cache
  end.

(** The loop of [Refresh] over [crdList.Items]. *)
Fixpoint refreshItems (group : string)
    (items : list (CustomResourceDefinition JSONSchemaProps))
    (cache : gmap string (CRDInfo JSONSchemaProps))
  : gmap string (CRDInfo JSONSchemaProps) * option panic :=
  match items with
  | [] => (cache, None)
  | crd :: rest =>
      if Contains (specGroup crd) group then
        match refreshVersions crd (specVersions crd) cache with
        | (cache, Some p) => (cache, Some p)
        | (cache, None) => refreshItems group rest cache
        end
      else refreshItems group rest cache
  end.

(** [Refresh]; [listed] is what the cluster answers to [List] when the
    call is made ([None] for an error).  The cache is rebuilt in one
    critical section, which the deferred [Unlock] ends. *)
Definition Refresh (listed : option (list (CustomResourceDefinition JSONSchemaProps)))
    (kb : KubernetesBackend) : KubernetesBackend * outcome kubernetesError :=
  match listed with
  | None => (kb, Returns (Some ListFailed))
  | Some items =>
      let '(cache, p) := refreshItems (ccrnGroup kb) items ∅ in
      ({| ccrns := cache; ccrnGroup := ccrnGroup kb;
          released := released kb ++ [cache] |},
       match p with
       | Some p => Panics p
       | None => Returns None
       end)
  end.

(** [GetCRD]: a type that is not in the cache is looked up again after a
    refresh, whose error is only logged. *)
Definition GetCRD (listed : option (list (CustomResourceDefinition JSONSchemaProps)))
    (kb : KubernetesBackend) (crdVersion : string)
  : KubernetesBackend * returned (CRDInfo JSONSchemaProps + kubernetesError) :=
  match ccrns kb !! crdVersion with
  | Some crdInfo => (kb, Return (inl crdInfo))
  | None =>
      match Refresh listed kb with
      | (kb, Panics p) => (kb, Panicking p)
      | (kb, Returns _) =>
          match ccrns kb !! crdVersion with
          | Some crdInfo => (kb, Return (inl crdInfo))
          | None => (kb, Return (inr (NotFound crdVersion)))
          end
      end
  end.

Definition IsResourceTypeSupported (kb : KubernetesBackend) (ccrnVersion : string)
  : bool :=
  bool_decide (is_Some (ccrns kb !! ccrnVersion)).

(** The served versions of the listed definitions of the group. *)
Definition listedKeys (group : string)
    (items : list (CustomResourceDefinition JSONSchemaProps)) : list string :=
  flat_map
    (fun crd =>
       List.map (fun version => getCRDKeyFromCRD crd (vName version))
         (List.filter vServed (specVersions crd)))
    (List.filter (fun crd => Contains (specGroup crd) group) items).

End KubernetesBackend.

End Kubernetes.

(** ** pkg/validation: [CCRNValidator] *)

Module CCRNValidator.

Record ValidationResult : Type := {
  Valid : bool;
  ParsedCCRN : option ParsedResource;   (* nil, or the parsed resource *)
  Errors : list string;
  Warnings : list string;
}.

Section ValidateCCRN.

Context {JSONSchemaProps : Type}.

(** The methods of [apis.ValidationBackend] that the validator and its
    parser call; an error is given by its text.  [ValidateResource] is
    also called with a nil resource. *)
Record ValidationBackend : Type := {
  GetCRD : string -> CRDInfo JSONSchemaProps + string;
  ValidateResource : string -> option ParsedResource -> option string;
  GetURNTemplate : string -> string -> string + string;
  IsResourceTypeSupported : string -> bool;
}.

Variable backend : ValidationBackend.

(** The end of [ValidateCCRN], from the test of [parsed != nil]. *)
Definition checkResource (parsed : option ParsedResource)
  : ValidationResult * option string :=
  let validate :=
    match ValidateResource backend EmptyString parsed with
    | Some err =>
        ({| Valid := false; ParsedCCRN := parsed; Errors := [err];
            Warnings := [] |}, Some err)
    | None =>
        ({| Valid := true; ParsedCCRN := parsed; Errors := [];
            Warnings := [] |}, None)
    end in
  match parsed with
  | Some p =>
      if negb (IsResourceTypeSupported backend (CCRNKey p)) then
        ({| Valid := false; ParsedCCRN := parsed;
            Errors := ["Resource type not supported: " +:+ CCRNKey p];
            Warnings := [] |}, None)
      else validate
  | None => validate
  end.

(** [v.ValidateCCRN(ccrnStr)]: the result and the error returned with
    it.  [fuel] bounds each of the two calls of [Parse]; the error of the
    second call is dropped by the source, which goes on with a nil
    [parsed]. *)
Definition ValidateCCRN (fuel : nat) (ccrnStr : string)
  : option (returned (ValidationResult * option string)) :=
  match Parse (GetURNTemplate backend) fuel ccrnStr DEFAULT_URN_TEMPLATE with
  | None => None
  | Some (Panic p) => Some (Panicking p)
  | Some (Err e) =>
      Some (Return
              ({| Valid := false; ParsedCCRN := None; Errors := [Error e];
                  Warnings := [] |}, Some (Error e)))
  | Some (Ok parsed) =>
      if String.eqb (Format parsed) "URN" then
        match GetCRD backend (CCRNKey parsed) with
        | inr err =>
            Some (Return
                    ({| Valid := false; ParsedCCRN := Some parsed;
                        Errors := ["A CCRN definition for %s could not be retrieved: %s";
                                   CCRNKey parsed; err];
                        Warnings := [] |}, Some err))
        | inl info =>
            match Parse (GetURNTemplate backend) fuel ccrnStr (infoURNFormat info) with
            | None => None
            | Some (Panic p) => Some (Panicking p)
            | Some (Ok parsed) => Some (Return (checkResource (Some parsed)))
            | Some (Err _) => Some (Return (checkResource None))
            end
        end
      else Some (Return (checkResource (Some parsed)))
  end.

End ValidateCCRN.

End CCRNValidator.

(** ** Vocabulary of the statements about the field-list form *)

Module FieldList.

(** The double quote, byte 34. *)
Definition quote : ascii := ascii_of_nat 34.

Definition quoted (x : string) : string :=
  String quote (x +:+ String quote EmptyString).

(** A string made of white space only: a sequence of white-space runes. *)
Inductive white : string -> Prop :=
| white_nil : white EmptyString
| white_rune (x w : string) :
    isSpaceRune x = true -> white w -> white (x +:+ w).

(** [s] begins, or ends, with a white-space rune. *)
Definition starts_with_space (s : string) : bool :=
  existsb (fun x => String.prefix x s) spaceRunes.

Definition ends_with_space (s : string) : bool :=
  existsb (fun x => HasSuffix s x) spaceRunes.

(** A string with no white space at either end. *)
Definition trimmed (s : string) : bool :=
  negb (starts_with_space s) && negb (ends_with_space s).

(** The value an entry stands for, in the words of the specification: a
    value wholly wrapped in a pair of double quotes loses that pair, any
    other value is taken as it is. *)
Inductive unquoted : string -> string -> Prop :=
| unquoted_pair (x : string) : unquoted (quoted x) x
| unquoted_plain (v : string) : (forall x, v <> quoted x) -> unquoted v v.

(** An entry [w1 name w2 = w3 value w4] of a field list: the name and the
    value as written, the white space around each of them, and the value
    the entry stands for. *)
Record Entry : Type := {
  nameLead : string;
  entryName : string;
  nameTrail : string;
  valueLead : string;
  entryRaw : string;
  valueTrail : string;
  entryValue : string;
}.

Definition entryText (e : Entry) : string :=
  (nameLead e +:+ entryName e +:+ nameTrail e)
    +:+ String "=" (valueLead e +:+ entryRaw e +:+ valueTrail e).

(** The name and the written value are trimmed and hold no comma, the
    name holds no [=], what surrounds them is white space, and the value
    the entry stands for is the written value without its pair of
    quotes, if it has one. *)
Definition wellFormed (e : Entry) : Prop :=
  white (nameLead e) /\ white (nameTrail e)
  /\ white (valueLead e) /\ white (valueTrail e)
  /\ trimmed (entryName e) = true /\ trimmed (entryRaw e) = true
  /\ free_of "," (entryName e) = true /\ free_of "=" (entryName e) = true
  /\ free_of "," (entryRaw e) = true
  /\ unquoted (entryRaw e) (entryValue e).

(** The entries written one after the other, with commas between them. *)
Definition fieldListText (first : Entry) (rest : list Entry) : string :=
  foldl (fun text e => text +:+ String "," (entryText e)) (entryText first) rest.

(** The fields the entries stand for: each name bound to its value, a
    later entry replacing an earlier one of the same name. *)
Definition fieldsOf (entries : list Entry) : gmap string string :=
  foldl (fun fields e => <[entryName e := entryValue e]> fields) ∅ entries.

(** [f] applied to the last element of a list. *)
Fixpoint onLast (f : string -> string) (l : list string) : list string :=
  match l with
  | [] => []
  | [x] => [f x]
  | x :: r => x :: onLast f r
  end.

End FieldList.

Import FieldList.

(** ** Vocabulary of the statements about the rendered field list *)

Module FieldListText.

(** [v] is a text between two double quotes. *)
Definition wrapped (v : string) : bool :=
  String.eqb v (quoted (String.substring 1 (String.length v - 2) v)).

(** A field that the field-list form can carry as it is: no separator in
    the name, no comma in the value, no white space at their ends, no
    quotes around the value. *)
Definition plain_entry (k v : string) : bool :=
  free_of "," k && free_of "=" k && trimmed k
  && free_of "," v && trimmed v && negb (wrapped v).

End FieldListText.

Import FieldListText.

(** ** Templates as sequences of literals and placeholders *)

Module Template.

Inductive token : Type :=
| Lit (text : string)
| Placeholder (name : string).

Definition tokenText (t : token) : string :=
  match t with
  | Lit text => text
  | Placeholder name => "<" +:+ name +:+ ">"
  end.

(** The template string a token sequence stands for. *)
Fixpoint flatten (toks : list token) : string :=
  match toks with
  | [] => EmptyString
  | t :: rest => tokenText t +:+ flatten rest
  end.

(** A template is flat when its angle brackets only delimit placeholders:
    no literal contains [<] and no placeholder name contains [<] or [>]. *)
Definition flat_token (t : token) : bool :=
  match t with
  | Lit text => free_of "<" text
  | Placeholder name => free_of "<" name && free_of ">" name
  end.

Definition flat (toks : list token) : bool := forallb flat_token toks.

(** The first placeholder named [k] replaced by the text [v]. *)
Fixpoint fill (k v : string) (toks : list token) : list token :=
  match toks with
  | [] => []
  | Placeholder name :: rest =>
      if String.eqb name k then Lit v :: rest
      else Placeholder name :: fill k v rest
  | t :: rest => t :: fill k v rest
  end.

(** [renderURN] in the words of the specification: every placeholder
    whose name is a field is replaced by that field's value, the first
    occurrence only for each field; a placeholder with no field stays;
    values are inserted as they are. *)
Fixpoint renderURN_spec (fields : gmap string string) (toks : list token)
  : list token :=
  match toks with
  | [] => []
  | Lit text :: rest => Lit text :: renderURN_spec fields rest
  | Placeholder name :: rest =>
      match fields !! name with
      | Some value => Lit value :: renderURN_spec (delete name fields) rest
      | None => Placeholder name :: renderURN_spec fields rest
      end
  end.

(** Field names without [>] and field values without [<]. *)
Definition plain_fields (fields : gmap string string) : Prop :=
  map_Forall (fun k v => free_of ">" k = true /\ free_of "<" v = true) fields.

(** The template [p.URN(template)] works on. *)
Definition templateUsed (p : ParsedResource) (template : string) : string :=
  if String.eqb template EmptyString then UrnTemplate p else template.

End Template.

Import Template.

(** ** Concrete inputs used in the statements below *)

Module Examples.

Definition podTemplate : string := "urn:ccrn:<ccrn>/<cluster>/<name>".

Definition podTokens : list token :=
  [Lit "urn:ccrn:"; Placeholder "ccrn"; Lit "/"; Placeholder "cluster";
   Lit "/"; Placeholder "name"].

Definition podFieldList : string := "ccrn=t.g/v1, cluster=eu-de-1, name=my-pod".

Definition podFields : gmap string string :=
  {[ "ccrn" := "t.g/v1"; "cluster" := "eu-de-1"; "name" := "my-pod" ]}.

Definition podURN : string := "urn:ccrn:t.g/v1/eu-de-1/my-pod".

Definition resource (fields : gmap string string) (raw : string) : ParsedResource :=
  {| Format := "CCRN"; Fields := fields; Raw := raw; UrnTemplate := EmptyString |}.

(** The entries of [ccrn=t.g/v1, name="my-pod"], and a first entry whose
    value is written between quotes and white space. *)
Definition ccrnEntry : Entry :=
  {| nameLead := EmptyString; entryName := "ccrn"; nameTrail := EmptyString;
     valueLead := EmptyString; entryRaw := "t.g/v1"; valueTrail := EmptyString;
     entryValue := "t.g/v1" |}.

Definition nameEntry : Entry :=
  {| nameLead := " "; entryName := "name"; nameTrail := EmptyString;
     valueLead := EmptyString; entryRaw := quoted "my-pod";
     valueTrail := EmptyString; entryValue := "my-pod" |}.

Definition paddedCcrnEntry : Entry :=
  {| nameLead := EmptyString; entryName := "ccrn"; nameTrail := EmptyString;
     valueLead := " "; entryRaw := quoted "t.g/v1"; valueTrail := " ";
     entryValue := "t.g/v1" |}.

(** A field list in which the value of [cluster] is the placeholder of
    [name]. *)
Definition nestedFieldList : string := "ccrn=t.g/v1, cluster=<name>, name=my-pod".

Definition nestedFields : gmap string string :=
  {[ "ccrn" := "t.g/v1"; "cluster" := "<name>"; "name" := "my-pod" ]}.

Definition clusterFirst : list (string * string) :=
  [("ccrn", "t.g/v1"); ("cluster", "<name>"); ("name", "my-pod")].

Definition nameFirst : list (string * string) :=
  [("ccrn", "t.g/v1"); ("name", "my-pod"); ("cluster", "<name>")].

(** The same with a wildcard name and a namespace. *)
Definition wildcardTemplate : string := "urn:ccrn:<ccrn>/<namespace>/<name>".

Definition wildcardFields : gmap string string :=
  {[ "ccrn" := "t.g/v1"; "namespace" := "<name>"; "name" := "*" ]}.

Definition namespaceFirst : list (string * string) :=
  [("namespace", "<name>"); ("name", "*"); ("ccrn", "t.g/v1")].

Definition namespaceLast : list (string * string) :=
  [("name", "*"); ("namespace", "<name>"); ("ccrn", "t.g/v1")].

End Examples.

Import Examples.

(** ** A small file system for the statements about the backend *)

Module BackendExamples.

(** Schemas and validators are opaque here: there is one of each, and a
    validator can be built from every schema. *)
Definition buildValidator (schema : unit) : option unit := Some tt.

(** [crds/*.yaml] matches a malformed document and a type definition;
    every other well-formed pattern matches nothing; [[] is malformed. *)
Definition exampleGlob (pattern : string) : option (list string) :=
  if String.eqb pattern "crds/*.yaml" then Some ["crds/bad.yaml"; "crds/pod.yaml"]
  else if String.eqb pattern "[" then None
  else Some [].

Definition exampleReadFile (filePath : string) : option string :=
  if String.eqb filePath "crds/bad.yaml" then Some "not: valid: yaml"
  else if String.eqb filePath "crds/pod.yaml" then Some "pod"
  else None.

(** The files above are short: the scanner returns their lines and no
    error. *)
Definition exampleScanLines (content : string) : list string * bool :=
  (Split content (String (ascii_of_nat 10) EmptyString), false).

Definition servedVersion (name : string) (schema : option (option unit))
  : CustomResourceDefinitionVersion unit :=
  {| vName := name; vServed := true; vSchema := schema |}.

Definition podDefinition (versions : list (CustomResourceDefinitionVersion unit))
  : CustomResourceDefinition unit :=
  {| crdKind := CRDKind;
     crdName := "pods.k8s-registry.ccrn.example.com";
     crdAnnotations := Some {[ "ccrn/v1.urn-template" := podTemplate ]};
     specGroup := "k8s-registry.ccrn.example.com";
     namesKind := "Pod";
     namesPlural := "pods";
     namesSingular := "pod";
     specVersions := versions |}.

(** The decoder recognises the one document [pod] and decodes it to a
    definition with the given versions. *)
Definition decodePod (versions : list (CustomResourceDefinitionVersion unit))
    (document : string) : option (CustomResourceDefinition unit) :=
  if String.eqb document "pod" then Some (podDefinition versions) else None.

(** One served version with a schema. *)
Definition oneVersion : list (CustomResourceDefinitionVersion unit) :=
  [servedVersion "v1" (Some (Some tt))].

(** A second served version whose [schema] has no [openAPIV3Schema]. *)
Definition twoVersions : list (CustomResourceDefinitionVersion unit) :=
  [servedVersion "v1" (Some (Some tt)); servedVersion "v2" (Some None)].

Definition newBackend : FilesystemBackend unit unit :=
  NewOfflineBackend unit unit "ccrn.example.com".

Definition exampleLoad (versions : list (CustomResourceDefinitionVersion unit))
    (pattern : string) (fb : FilesystemBackend unit unit) :=
  LoadCRDs_result buildValidator exampleGlob exampleReadFile exampleScanLines
    (decodePod versions) ToLowerASCII pattern fb.

Definition exampleRefresh (versions : list (CustomResourceDefinitionVersion unit))
    (fb : FilesystemBackend unit unit) :=
  Refresh buildValidator exampleGlob exampleReadFile exampleScanLines
    (decodePod versions) ToLowerASCII fb.

(** The backend after [LoadCRDs("crds/*.yaml")]. *)
Definition loadedBackend (versions : list (CustomResourceDefinitionVersion unit))
  : FilesystemBackend unit unit :=
  (exampleLoad versions "crds/*.yaml" newBackend).1.1.

(** What [LoadCRDs("crds/*.yaml")] has counted when it returns. *)
Definition bulkResult : CRDLoadingResult :=
  {| ProcessedFiles := 2; ProcessedCRDs := 1; SkippedCRDs := 0; ErrorCount := 1;
     Errors := [DocumentFailed "crds/bad.yaml" 0 ParseYAMLFailed];
     LoadedCRDKeys := ["pod.k8s-registry.ccrn.example.com/v1"] |}.

(** The backend after a refresh of [loadedBackend]. *)
Definition refreshedPod : FilesystemBackend unit unit :=
  (exampleRefresh oneVersion (loadedBackend oneVersion)).1.

Definition refreshedTwoVersions : FilesystemBackend unit unit :=
  (exampleRefresh twoVersions (loadedBackend twoVersions)).1.

End BackendExamples.

Import BackendExamples.

(** ** Concrete inputs for the statements about the other methods *)

Module MoreExamples.

(** A backend whose template for every type is the default template. *)
Definition defaultTemplates (crdName version : string) : string + string :=
  inl DEFAULT_URN_TEMPLATE.

(** A definition with a second served version whose [schema] is nil. *)
Definition nilSchemaVersions : list (CustomResourceDefinitionVersion unit) :=
  [servedVersion "v1" (Some (Some tt)); servedVersion "v2" None].

(** [filepath.Join] on elements that need no cleaning. *)
Definition joinWithSlash (elems : list string) : string := Join elems "/".

(** A file of three lines, the second one a separator. *)
Definition twoDocuments : string :=
  "a" +:+ String (ascii_of_nat 10) ("---" +:+ String (ascii_of_nat 10) "b").

(** A cache of the Kubernetes backend that holds a type the cluster no
    longer lists. *)
Definition staleCache : Kubernetes.KubernetesBackend :=
  {| Kubernetes.ccrns :=
       {[ "old.k8s-registry.ccrn.example.com/v1" :=
            {| infoName := "olds.k8s-registry.ccrn.example.com";
               infoPlural := "olds"; infoSingular := "old";
               infoGroup := "k8s-registry.ccrn.example.com";
               infoKind := "Old"; infoVersion := "v1";
               infoSchema := Some tt; infoURNFormat := EmptyString |} ]};
     Kubernetes.ccrnGroup := "ccrn.example.com";
     Kubernetes.released := [] |}.

End MoreExamples.

Import MoreExamples.

(** * Properties *)

(** ** Facts about the string functions *)

Section StringFacts.

Lemma prefix_app (p s : string) :
  String.prefix p s = true -> s = p +:+ drop (String.length p) s.
Proof.
  revert s. induction p as [|a p IH]; intros s H.
  - reflexivity.
  - destruct s as [|b s]; simpl in H; [discriminate|].
    destruct (ascii_dec a b) as [->|]; [|discriminate].
    simpl. f_equal. apply IH, H.
Qed.

Lemma prefix_of_app (p s : string) : String.prefix p (p +:+ s) = true.
Proof.
  induction p as [|a p IH]; simpl; [destruct s; reflexivity|].
  destruct (ascii_dec a a); [exact IH|congruence].
Qed.

Lemma string_drop_app (p s : string) : drop (String.length p) (p +:+ s) = s.
Proof. induction p; simpl; auto. Qed.

Lemma string_length_app (s t : string) :
  String.length (s +:+ t) = String.length s + String.length t.
Proof. induction s; simpl; auto. Qed.

Lemma string_app_assoc (s t u : string) : (s +:+ t) +:+ u = s +:+ (t +:+ u).
Proof. induction s; simpl; congruence. Qed.

Lemma string_app_empty_r (s : string) : s +:+ EmptyString = s.
Proof. induction s; simpl; congruence. Qed.

Lemma Cut_unfold (s sep : string) :
  Cut s sep =
    if String.prefix sep s then Some (EmptyString, drop (String.length sep) s)
    else match s with
         | EmptyString => None
         | String c s' =>
             match Cut s' sep with
             | Some (a, b) => Some (String c a, b)
             | None => None
             end
         end.
Proof. destruct s; reflexivity. Qed.

(** What [Cut] returns is a decomposition of its argument. *)
Lemma Cut_app (s sep a b : string) :
  Cut s sep = Some (a, b) -> s = a +:+ sep +:+ b.
Proof.
  revert a b. induction s as [|c s IH]; intros a b; rewrite Cut_unfold.
  - destruct (String.prefix sep EmptyString) eqn:Hp; [|discriminate].
    intros [= <- <-]. apply prefix_app in Hp. exact Hp.
  - destruct (String.prefix sep (String c s)) eqn:Hp.
    + intros [= <- <-]. apply prefix_app in Hp. exact Hp.
    + destruct (Cut s sep) as [[a' b']|]; [|discriminate].
      intros [= <- <-]. simpl. f_equal. apply IH. reflexivity.
Qed.

Lemma Cut_length (s sep a b : string) :
  Cut s sep = Some (a, b) ->
  String.length s = String.length a + String.length sep + String.length b.
Proof.
  intros H. apply Cut_app in H. subst s. rewrite !string_length_app. lia.
Qed.

(** One step of [SplitN] when more than one substring is allowed. *)
Lemma SplitN_step (s sep : string) (n : nat) :
  SplitN s sep (S (S n)) =
    match Cut s sep with
    | None => [s]
    | Some (a, b) => a :: SplitN b sep (S n)
    end.
Proof. reflexivity. Qed.

Lemma SplitN_length_le (s sep : string) (n : nat) :
  length (SplitN s sep n) <= n.
Proof.
  revert s. induction n as [|n IH]; intros s; [simpl; lia|].
  destruct n as [|n]; [simpl; lia|].
  rewrite SplitN_step.
  destruct (Cut s sep) as [[a b]|]; cbn [length]; [|lia].
  specialize (IH b). lia.
Qed.

Lemma SplitN_nonempty (s sep : string) (n : nat) :
  0 < n -> 0 < length (SplitN s sep n).
Proof.
  destruct n as [|[|n]]; [lia| simpl; lia |].
  intros _. rewrite SplitN_step.
  destruct (Cut s sep) as [[a b]|]; cbn [length]; lia.
Qed.

(** Beyond [len(s) + 1] the bound on the number of substrings has no
    effect. *)
Lemma SplitN_enough (sep : string) (n m : nat) (s : string) :
  sep <> EmptyString ->
  String.length s < n -> String.length s < m ->
  SplitN s sep n = SplitN s sep m.
Proof.
  intros Hsep. revert m s.
  induction n as [|n IH]; intros m s Hn Hm; [lia|].
  destruct m as [|m]; [lia|].
  assert (Hempty : String.length s = 0 -> Cut s sep = None).
  { destruct s; [|discriminate]. intros _. simpl.
    destruct sep; [congruence|reflexivity]. }
  destruct n as [|n], m as [|m]; try reflexivity.
  - rewrite SplitN_step, Hempty by lia. reflexivity.
  - rewrite SplitN_step, Hempty by lia. reflexivity.
  - rewrite !SplitN_step.
    destruct (Cut s sep) as [[a b]|] eqn:Hcut; [|reflexivity].
    apply Cut_length in Hcut. f_equal.
    assert (0 < String.length sep) by (destruct sep; simpl; [congruence|lia]).
    apply IH; lia.
Qed.

Lemma Split_step (s sep : string) :
  sep <> EmptyString ->
  Split s sep =
    match Cut s sep with
    | None => [s]
    | Some (a, b) => a :: Split b sep
    end.
Proof.
  intros Hsep. unfold Split. destruct s as [|c s'] eqn:Hs.
  - simpl. destruct sep; [congruence|reflexivity].
  - rewrite <- Hs. replace (String.length s) with (S (String.length s'))
      by (subst s; reflexivity).
    rewrite SplitN_step.
    destruct (Cut s sep) as [[a b]|] eqn:Hcut; [|reflexivity].
    f_equal. apply Cut_length in Hcut.
    assert (0 < String.length sep) by (destruct sep; simpl; [congruence|lia]).
    assert (String.length s = S (String.length s')) by (subst s; reflexivity).
    apply SplitN_enough; [assumption|lia|lia].
Qed.

Lemma prefix_empty (s : string) : String.prefix EmptyString s = true.
Proof. destruct s; reflexivity. Qed.

(** The first occurrence of a one-byte separator. *)
Lemma Cut_byte_free (c : ascii) (a rest : string) :
  free_of c a = true ->
  Cut (a +:+ String c rest) (String c EmptyString) = Some (a, rest).
Proof.
  induction a as [|d a IH]; intros H; rewrite Cut_unfold; simpl.
  - destruct (ascii_dec c c); [|congruence].
    rewrite prefix_empty. reflexivity.
  - simpl in H. apply andb_true_iff in H as [Hd Ha].
    destruct (ascii_dec c d) as [->|_].
    + rewrite Ascii.eqb_refl in Hd. discriminate.
    + rewrite (IH Ha). reflexivity.
Qed.

Lemma Cut_byte_none (c : ascii) (a : string) :
  free_of c a = true -> Cut a (String c EmptyString) = None.
Proof.
  induction a as [|d a IH]; intros H; rewrite Cut_unfold; simpl;
    [reflexivity|].
  simpl in H. apply andb_true_iff in H as [Hd Ha].
  destruct (ascii_dec c d) as [->|_].
  - rewrite Ascii.eqb_refl in Hd. discriminate.
  - rewrite (IH Ha). reflexivity.
Qed.

End StringFacts.

(** ** The URN parser *)

Section ParserFacts.

Lemma result_bind_Ok {A B : Type} (r : result A) (k : A -> result B) (b : B) :
  (r ≫= k) = Ok b -> exists a, r = Ok a /\ k a = Ok b.
Proof. destruct r; simpl; intros H; try discriminate. eauto. Qed.

Lemma fillParts_length (i : nat) (tmpRest parts : list string) :
  length (fillParts i tmpRest parts) = length parts.
Proof.
  revert i parts. induction tmpRest as [|x rest IH]; intros i parts; simpl.
  - reflexivity.
  - rewrite IH. destruct (String.eqb x EmptyString); [reflexivity|].
    apply length_insert.
Qed.

(** [rebuildParts] panics on fewer than two elements and otherwise
    returns one element less than it was given. *)
Lemma rebuildParts_short (tmpParts : list string) :
  length tmpParts = 1 -> rebuildParts tmpParts = Panic (IndexOutOfRange 1 1).
Proof. destruct tmpParts as [|x [|y r]]; simpl; intros; try lia; reflexivity. Qed.

Lemma rebuildParts_long (tmpParts : list string) :
  2 <= length tmpParts ->
  exists parts, rebuildParts tmpParts = Ok parts
                /\ length parts = length tmpParts - 1.
Proof.
  destruct tmpParts as [|x [|y r]]; simpl; intros; try lia.
  eexists. split; [reflexivity|].
  rewrite fillParts_length. simpl. rewrite length_replicate. lia.
Qed.

(** The element the type key is read from. *)
Lemma fillParts_head (i : nat) (tmpRest parts : list string) :
  2 <= i -> fillParts i tmpRest parts !! 0 = parts !! 0.
Proof.
  revert i parts. induction tmpRest as [|x rest IH]; intros i parts Hi; simpl.
  - reflexivity.
  - rewrite IH by lia. destruct (String.eqb x EmptyString); [reflexivity|].
    apply list_lookup_insert_ne. lia.
Qed.

Lemma rebuildParts_head (t0 t1 : string) (rest parts : list string) :
  rebuildParts (t0 :: t1 :: rest) = Ok parts ->
  parts !! 0 = Some (t0 +:+ "/" +:+ t1).
Proof.
  simpl. intros [= <-]. rewrite fillParts_head by lia. reflexivity.
Qed.

Lemma Split_nonempty (s sep : string) : 0 < length (Split s sep).
Proof. apply SplitN_nonempty. lia. Qed.

(** With both prefixes in place, [parseURNFields] has two outcomes only:
    the index panic when the body or the template has no slash, and the
    segment-count error in every other case.  [parts] is always shorter
    than [templateParts], because [tmpParts] has at most
    [len(templateParts)] elements and [parts] has one less. *)
Lemma parseURNFields_outcome (urn urnTemplate : string) :
  HasPrefix urn "urn:ccrn:" = true ->
  HasPrefix urnTemplate "urn:ccrn:" = true ->
  parseURNFields urn urnTemplate =
    if Contains (TrimPrefix urn "urn:ccrn:") "/"
       && Contains (TrimPrefix urnTemplate "urn:ccrn:") "/"
    then Err (ErrSegmentCount urnTemplate urn)
    else Panic (IndexOutOfRange 1 1).
Proof.
  intros Hu Ht. unfold parseURNFields. rewrite Hu, Ht. simpl negb. cbv iota.
  set (body := TrimPrefix urn "urn:ccrn:").
  set (templateBody := TrimPrefix urnTemplate "urn:ccrn:").
  unfold Contains. rewrite (Split_step templateBody "/") by discriminate.
  destruct (Cut templateBody "/") as [[ta tb]|] eqn:Hcut.
  - assert (Hn : exists k, length (ta :: Split tb "/") = S (S k)).
    { pose proof (Split_nonempty tb "/"). cbn [length].
      destruct (length (Split tb "/")); [lia|eauto]. }
    destruct Hn as [k Hk]. rewrite Hk. rewrite SplitN_step.
    destruct (Cut body "/") as [[ba bb]|] eqn:Hb; simpl andb; cbv iota.
    + pose proof (SplitN_nonempty bb "/" (S k) ltac:(lia)) as Hne.
      pose proof (SplitN_length_le bb "/" (S k)) as Hle.
      destruct (rebuildParts_long (ba :: SplitN bb "/" (S k)))
        as (parts & -> & Hlen); [cbn [length]; lia|].
      cbn [length] in Hlen. cbn [mbind result_bind length].
      replace (length parts <? S (S k))%nat with true; [reflexivity|].
      symmetry. apply Nat.ltb_lt. lia.
    + reflexivity.
  - rewrite andb_false_r. simpl length. simpl SplitN. reflexivity.
Qed.

Lemma parseURNFields_never_Ok (urn urnTemplate : string)
    (fields : gmap string string) :
  parseURNFields urn urnTemplate <> Ok fields.
Proof.
  destruct (HasPrefix urn "urn:ccrn:") eqn:Hu.
  - destruct (HasPrefix urnTemplate "urn:ccrn:") eqn:Ht.
    + rewrite parseURNFields_outcome by assumption.
      destruct (_ && _); discriminate.
    + unfold parseURNFields. rewrite Hu, Ht. discriminate.
  - unfold parseURNFields. rewrite Hu. discriminate.
Qed.

(** The bootstrap parse of a URN with at least three segments. *)
Lemma parseURNCCRNField_segments (A B rest : string) :
  free_of "/" A = true -> free_of "/" B = true ->
  parseURNCCRNField ("urn:ccrn:" +:+ (A +:+ String "/" (B +:+ String "/" rest)))
  = Ok (A +:+ "/" +:+ B).
Proof.
  intros HA HB. unfold parseURNCCRNField, TrimPrefix, HasPrefix.
  rewrite prefix_of_app, string_drop_app.
  rewrite Split_step, Cut_byte_free by (assumption || discriminate).
  rewrite Split_step, Cut_byte_free by (assumption || discriminate).
  pose proof (Split_nonempty rest "/") as Hne.
  destruct (Split rest "/") as [|x l]; [simpl in Hne; lia|].
  reflexivity.
Qed.

Lemma parseCCRNFields_has_ccrn (input : string) (fields : gmap string string) :
  parseCCRNFields input = Ok fields -> is_Some (fields !! "ccrn").
Proof.
  unfold parseCCRNFields. destruct (negb _); [discriminate|].
  intros H. apply result_bind_Ok in H as (m & _ & H).
  destruct (m !! "ccrn") eqn:Hm; [|discriminate].
  injection H as <-. eauto.
Qed.

End ParserFacts.

(** ** White space and [TrimSpace] *)

Section TrimFacts.

(** What the table of white-space runes is made of: the encoding of a
    rune is a start byte followed by continuation bytes, and no encoding
    is the beginning of another. *)
Lemma spaceRunes_shape :
  forallb
    (fun x =>
       match x with
       | EmptyString => false
       | String a xt => RuneStart a && continuationBytes xt
       end)
    spaceRunes = true.
Proof. vm_compute. reflexivity. Qed.

Lemma spaceRunes_prefix_free :
  forallb
    (fun x => forallb (fun y => implb (String.prefix x y) (String.eqb x y)) spaceRunes)
    spaceRunes = true.
Proof. vm_compute. reflexivity. Qed.

Lemma spaceRunes_trimRight :
  forallb (fun x => String.eqb (trimRight x) EmptyString) spaceRunes = true.
Proof. vm_compute. reflexivity. Qed.

Lemma isSpaceRune_In (x : string) : isSpaceRune x = true <-> In x spaceRunes.
Proof.
  unfold isSpaceRune. rewrite existsb_exists. split.
  - intros (y & Hy & Heq). apply String.eqb_eq in Heq. subst. exact Hy.
  - intros H. exists x. split; [exact H|apply String.eqb_refl].
Qed.

Lemma spaceRune_shape (x : string) :
  isSpaceRune x = true ->
  exists a xt, x = String a xt /\ RuneStart a = true
               /\ continuationBytes xt = true.
Proof.
  intros H. apply isSpaceRune_In in H.
  pose proof spaceRunes_shape as Hall. rewrite forallb_forall in Hall.
  specialize (Hall x H). destruct x as [|a xt]; [discriminate|].
  apply andb_true_iff in Hall as [Ha Hxt]. eauto.
Qed.

(** A byte that occurs in no white-space rune occurs in no white
    space. *)
Lemma spaceRune_free_of (c : ascii) (x : string) :
  forallb (free_of c) spaceRunes = true ->
  isSpaceRune x = true -> free_of c x = true.
Proof.
  intros Hall H. apply isSpaceRune_In in H.
  rewrite forallb_forall in Hall. auto.
Qed.

Lemma free_of_app (c : ascii) (s t : string) :
  free_of c (s +:+ t) = free_of c s && free_of c t.
Proof.
  induction s as [|d s IH]; simpl; [reflexivity|].
  rewrite IH. apply andb_assoc.
Qed.

Lemma white_free_of (c : ascii) (w : string) :
  forallb (free_of c) spaceRunes = true -> white w -> free_of c w = true.
Proof.
  intros Hall Hw. induction Hw as [|x w Hx _ IH]; [reflexivity|].
  rewrite free_of_app, IH, (spaceRune_free_of c x Hall Hx). reflexivity.
Qed.

Lemma white_app (w1 w2 : string) : white w1 -> white w2 -> white (w1 +:+ w2).
Proof.
  intros H1 H2. induction H1 as [|x w Hx _ IH]; [exact H2|].
  rewrite string_app_assoc. apply white_rune; assumption.
Qed.

Lemma white_one (x : string) : isSpaceRune x = true -> white x.
Proof.
  intros H. rewrite <- (string_app_empty_r x).
  apply white_rune; [exact H|constructor].
Qed.

(** White space is empty or begins with a start byte. *)
Lemma white_head (w : string) :
  white w ->
  w = EmptyString \/ exists d r, w = String d r /\ RuneStart d = true.
Proof.
  intros [|x w0 Hx _]; [auto|]. right.
  apply spaceRune_shape in Hx as (a & xt & -> & Ha & _).
  simpl. eauto.
Qed.

(** *** Prefixes *)

Lemma prefix_refl (s : string) : String.prefix s s = true.
Proof.
  induction s as [|c s IH]; [reflexivity|]. cbn [String.prefix].
  destruct (ascii_dec c c); [exact IH|congruence].
Qed.

Lemma prefix_cons (a b : ascii) (x s : string) :
  String.prefix (String a x) (String b s) = true <->
  a = b /\ String.prefix x s = true.
Proof.
  cbn [String.prefix]. destruct (ascii_dec a b) as [->|Hne].
  - tauto.
  - split; [discriminate|]. intros [? _]. congruence.
Qed.

Lemma prefix_nil_r (x : string) :
  String.prefix x EmptyString = true -> x = EmptyString.
Proof. destruct x; [reflexivity|discriminate]. Qed.

Lemma prefix_trans (a b c : string) :
  String.prefix a b = true -> String.prefix b c = true ->
  String.prefix a c = true.
Proof.
  revert b c. induction a as [|x a IH]; intros b c Hab Hbc;
    [apply prefix_empty|].
  destruct b as [|y b]; [discriminate|]. destruct c as [|z c]; [discriminate|].
  apply prefix_cons in Hab as [-> Hab]. apply prefix_cons in Hbc as [-> Hbc].
  apply prefix_cons. eauto.
Qed.

(** Two prefixes of one string: one is a prefix of the other. *)
Lemma prefix_comparable (a b s : string) :
  String.prefix a s = true -> String.prefix b s = true ->
  String.prefix a b = true \/ String.prefix b a = true.
Proof.
  revert b s. induction a as [|x a IH]; intros b s Ha Hb.
  - left. apply prefix_empty.
  - destruct b as [|y b]; [right; reflexivity|].
    destruct s as [|z s]; [discriminate|].
    apply prefix_cons in Ha as [-> Ha]. apply prefix_cons in Hb as [-> Hb].
    destruct (IH b s Ha Hb); [left|right]; apply prefix_cons; auto.
Qed.

Lemma spaceRune_prefix_eq (x y : string) :
  isSpaceRune x = true -> isSpaceRune y = true ->
  String.prefix x y = true -> x = y.
Proof.
  intros Hx Hy Hp. apply isSpaceRune_In in Hx, Hy.
  pose proof spaceRunes_prefix_free as Hall.
  rewrite forallb_forall in Hall. specialize (Hall x Hx).
  rewrite forallb_forall in Hall. specialize (Hall y Hy).
  rewrite Hp in Hall. apply String.eqb_eq. exact Hall.
Qed.

Lemma find_existsb {A : Type} (f : A -> bool) (l : list A) :
  List.find f l = None <-> existsb f l = false.
Proof.
  induction l as [|a l IH]; simpl; [tauto|].
  destruct (f a); simpl; [split; discriminate|exact IH].
Qed.

Lemma starts_with_space_iff (s : string) :
  starts_with_space s = true <->
  exists x, isSpaceRune x = true /\ String.prefix x s = true.
Proof.
  unfold starts_with_space. rewrite existsb_exists.
  split; intros (x & Hx & Hp); exists x; split; auto; apply isSpaceRune_In; auto.
Qed.

(** *** The loop of [trimLeft] *)

Lemma stripSpaceRune_Some (s rest : string) :
  stripSpaceRune s = Some rest ->
  exists x, isSpaceRune x = true /\ s = x +:+ rest.
Proof.
  unfold stripSpaceRune.
  destruct (List.find _ spaceRunes) as [x|] eqn:Hfind; [|discriminate].
  intros [= <-]. apply find_some in Hfind as [Hin Hp].
  exists x. split; [apply isSpaceRune_In, Hin|apply prefix_app, Hp].
Qed.

Lemma stripSpaceRune_None (s : string) :
  stripSpaceRune s = None <-> starts_with_space s = false.
Proof.
  unfold stripSpaceRune, starts_with_space. rewrite <- find_existsb.
  destruct (List.find _ spaceRunes); split; congruence.
Qed.

Lemma stripSpaceRune_rune (x s : string) :
  isSpaceRune x = true -> stripSpaceRune (x +:+ s) = Some s.
Proof.
  intros Hx. destruct (stripSpaceRune (x +:+ s)) as [rest|] eqn:Hstrip.
  - apply stripSpaceRune_Some in Hstrip as (y & Hy & Heq).
    assert (x = y) as <-.
    { destruct (prefix_comparable x y (x +:+ s)) as [H|H].
      - apply prefix_of_app.
      - rewrite Heq. apply prefix_of_app.
      - apply spaceRune_prefix_eq; assumption.
      - symmetry. apply spaceRune_prefix_eq; assumption. }
    f_equal. symmetry. eapply (inj (String.append x)). exact Heq.
  - apply stripSpaceRune_None in Hstrip.
    assert (starts_with_space (x +:+ s) = true); [|congruence].
    apply starts_with_space_iff. exists x. split; [exact Hx|apply prefix_of_app].
Qed.

Lemma spaceRune_length (x : string) :
  isSpaceRune x = true -> 0 < String.length x.
Proof.
  intros H. apply spaceRune_shape in H as (a & xt & -> & _). simpl. lia.
Qed.

(** More turns than the string has bytes change nothing. *)
Lemma trimLeftLoop_enough (n m : nat) (s : string) :
  String.length s <= n -> String.length s <= m ->
  trimLeftLoop n s = trimLeftLoop m s.
Proof.
  revert m s. induction n as [|n IH]; intros m s Hn Hm.
  - destruct s; [|simpl in Hn; lia]. destruct m; reflexivity.
  - destruct m as [|m].
    + destruct s; [reflexivity|simpl in Hm; lia].
    + cbn [trimLeftLoop].
      destruct (stripSpaceRune s) as [rest|] eqn:Hstrip; [|reflexivity].
      apply stripSpaceRune_Some in Hstrip as (x & Hx & ->).
      apply spaceRune_length in Hx. rewrite string_length_app in Hn, Hm.
      apply IH; lia.
Qed.

Lemma trimLeft_unfold (s : string) :
  trimLeft s =
    match stripSpaceRune s with
    | Some rest => trimLeft rest
    | None => s
    end.
Proof.
  unfold trimLeft. destruct s as [|c s]; [reflexivity|].
  cbn [String.length trimLeftLoop].
  destruct (stripSpaceRune (String c s)) as [rest|] eqn:Hstrip; [|reflexivity].
  apply stripSpaceRune_Some in Hstrip as (x & Hx & Heq).
  apply spaceRune_length in Hx.
  assert (String.length rest <= String.length s).
  { apply (f_equal String.length) in Heq. rewrite string_length_app in Heq.
    simpl in Heq. lia. }
  apply trimLeftLoop_enough; lia.
Qed.

Lemma trimLeft_rune (x s : string) :
  isSpaceRune x = true -> trimLeft (x +:+ s) = trimLeft s.
Proof. intros H. rewrite trimLeft_unfold, stripSpaceRune_rune by exact H. reflexivity. Qed.

Lemma trimLeft_app_white (w s : string) :
  white w -> trimLeft (w +:+ s) = trimLeft s.
Proof.
  intros Hw. induction Hw as [|x w Hx _ IH]; [reflexivity|].
  rewrite string_app_assoc, trimLeft_rune by exact Hx. exact IH.
Qed.

Lemma trimLeft_id (s : string) : starts_with_space s = false -> trimLeft s = s.
Proof.
  intros H. apply stripSpaceRune_None in H. rewrite trimLeft_unfold, H.
  reflexivity.
Qed.

(** What [trimLeft] returns: the text after the leading white space. *)
Lemma trimLeft_spec (s : string) :
  exists w, white w /\ s = w +:+ trimLeft s
            /\ starts_with_space (trimLeft s) = false.
Proof.
  remember (String.length s) as n eqn:Hn. revert s Hn.
  induction n as [n IH] using lt_wf_ind. intros s Hn.
  rewrite trimLeft_unfold.
  destruct (stripSpaceRune s) as [rest|] eqn:Hstrip.
  - apply stripSpaceRune_Some in Hstrip as (x & Hx & ->).
    destruct (IH (String.length rest)) with (s := rest)
      as (w & Hw & Hrest & Hno); [|reflexivity|].
    { apply spaceRune_length in Hx. rewrite Hn, string_length_app. lia. }
    exists (x +:+ w). split; [apply white_rune; assumption|].
    split; [|exact Hno]. rewrite string_app_assoc, <- Hrest. reflexivity.
  - exists EmptyString. split; [constructor|]. split; [reflexivity|].
    apply stripSpaceRune_None, Hstrip.
Qed.

Lemma trimLeft_idem (s : string) : trimLeft (trimLeft s) = trimLeft s.
Proof.
  destruct (trimLeft_spec s) as (w & _ & _ & Hno). apply trimLeft_id, Hno.
Qed.

(** *** [trimRight] *)

Lemma trimRight_cons (c : ascii) (s : string) :
  trimRight (String c s) =
    if isSpaceRune (String c (trimRight s)) then EmptyString
    else String c (trimRight s).
Proof. reflexivity. Qed.

(** What follows a text counts only through what [trimRight] leaves of
    it. *)
Lemma trimRight_app_congr (a b b' : string) :
  trimRight b = trimRight b' -> trimRight (a +:+ b) = trimRight (a +:+ b').
Proof.
  intros H. induction a as [|c a IH]; [exact H|].
  simpl String.append. rewrite !trimRight_cons, IH. reflexivity.
Qed.

Lemma trimRight_rune (x : string) :
  isSpaceRune x = true -> trimRight x = EmptyString.
Proof.
  intros H. apply isSpaceRune_In in H.
  pose proof spaceRunes_trimRight as Hall. rewrite forallb_forall in Hall.
  apply String.eqb_eq, Hall, H.
Qed.

Lemma trimRight_white (w : string) : white w -> trimRight w = EmptyString.
Proof.
  intros Hw. induction Hw as [|x w Hx _ IH]; [reflexivity|].
  rewrite (trimRight_app_congr x w EmptyString) by exact IH.
  rewrite string_app_empty_r. apply trimRight_rune, Hx.
Qed.

Lemma trimRight_app_white (s w : string) :
  white w -> trimRight (s +:+ w) = trimRight s.
Proof.
  intros Hw. rewrite (trimRight_app_congr s w EmptyString).
  - rewrite string_app_empty_r. reflexivity.
  - apply trimRight_white, Hw.
Qed.

(** One turn of the loop of [TrimRightFunc]: a white-space rune at the end
    is removed; the loop ends with [trimRight_id]. *)
Lemma trimRight_step (s x : string) :
  isSpaceRune x = true -> trimRight (s +:+ x) = trimRight s.
Proof. intros H. apply trimRight_app_white, white_one, H. Qed.

Lemma trimRight_decompose (s : string) :
  exists w, white w /\ s = trimRight s +:+ w.
Proof.
  induction s as [|c s (w & Hw & IH)]; [exists EmptyString; split; [constructor|reflexivity]|].
  rewrite trimRight_cons.
  destruct (isSpaceRune (String c (trimRight s))) eqn:Hrune.
  - exists (String c (trimRight s) +:+ w). split.
    + apply white_rune; assumption.
    + simpl. rewrite <- IH. reflexivity.
  - exists w. split; [exact Hw|]. simpl. rewrite <- IH. reflexivity.
Qed.

Lemma HasSuffix_refl (s : string) : HasSuffix s s = true.
Proof.
  unfold HasSuffix. rewrite Nat.leb_refl, Nat.sub_diag. apply String.eqb_refl.
Qed.

Lemma HasSuffix_cons (c : ascii) (s x : string) :
  HasSuffix s x = true -> HasSuffix (String c s) x = true.
Proof.
  unfold HasSuffix. intros H. apply andb_true_iff in H as [Hlen Heq].
  apply Nat.leb_le in Hlen. cbn [String.length].
  replace (S (String.length s) - String.length x)
    with (S (String.length s - String.length x)) by lia.
  cbn [drop]. rewrite Heq, andb_true_r. apply Nat.leb_le. lia.
Qed.

Lemma HasSuffix_cons_inv (c : ascii) (s x : string) :
  HasSuffix (String c s) x = true -> HasSuffix s x = true \/ x = String c s.
Proof.
  unfold HasSuffix. intros H. apply andb_true_iff in H as [Hlen Heq].
  apply Nat.leb_le in Hlen. cbn [String.length] in *.
  destruct (Nat.le_gt_cases (String.length x) (String.length s)) as [Hle|Hgt].
  - left.
    replace (S (String.length s) - String.length x)
      with (S (String.length s - String.length x)) in Heq by lia.
    cbn [drop] in Heq. rewrite Heq, andb_true_r. apply Nat.leb_le, Hle.
  - right.
    replace (S (String.length s) - String.length x) with 0 in Heq by lia.
    cbn [drop] in Heq. apply String.eqb_eq in Heq. auto.
Qed.

Lemma ends_with_space_iff (s : string) :
  ends_with_space s = true <->
  exists x, isSpaceRune x = true /\ HasSuffix s x = true.
Proof.
  unfold ends_with_space. rewrite existsb_exists.
  split; intros (x & Hx & Hp); exists x; split; auto; apply isSpaceRune_In; auto.
Qed.

Lemma ends_with_space_nil : ends_with_space EmptyString = false.
Proof. vm_compute. reflexivity. Qed.

Lemma trimRight_no_space (s : string) : ends_with_space (trimRight s) = false.
Proof.
  induction s as [|c s IH]; [exact ends_with_space_nil|].
  rewrite trimRight_cons.
  destruct (isSpaceRune (String c (trimRight s))) eqn:Hrune;
    [exact ends_with_space_nil|].
  destruct (ends_with_space (String c (trimRight s))) eqn:Hends;
    [|reflexivity].
  apply ends_with_space_iff in Hends as (x & Hx & Hsuf).
  apply HasSuffix_cons_inv in Hsuf as [Hsuf| ->]; [|congruence].
  assert (ends_with_space (trimRight s) = true); [|congruence].
  apply ends_with_space_iff. eauto.
Qed.

Lemma trimRight_id (s : string) : ends_with_space s = false -> trimRight s = s.
Proof.
  induction s as [|c s IH]; intros H; [reflexivity|].
  assert (Hs : ends_with_space s = false).
  { destruct (ends_with_space s) eqn:Hends; [|reflexivity].
    apply ends_with_space_iff in Hends as (x & Hx & Hsuf).
    assert (ends_with_space (String c s) = true); [|congruence].
    apply ends_with_space_iff. eauto using HasSuffix_cons. }
  rewrite trimRight_cons, (IH Hs).
  destruct (isSpaceRune (String c s)) eqn:Hrune; [|reflexivity].
  assert (ends_with_space (String c s) = true); [|congruence].
  apply ends_with_space_iff. eauto using HasSuffix_refl.
Qed.

(** What [trimRight] returns: the text before the trailing white
    space. *)
Lemma trimRight_spec (s : string) :
  exists w, white w /\ s = trimRight s +:+ w
            /\ ends_with_space (trimRight s) = false.
Proof.
  destruct (trimRight_decompose s) as (w & Hw & Hs).
  exists w. auto using trimRight_no_space.
Qed.

Lemma trimRight_idem (s : string) : trimRight (trimRight s) = trimRight s.
Proof. apply trimRight_id, trimRight_no_space. Qed.

(** *** [TrimSpace] *)

(** Continuation bytes end where a rune starts. *)
Lemma continuation_prefix (xt s r : string) :
  continuationBytes xt = true ->
  (r = EmptyString \/ exists d r', r = String d r' /\ RuneStart d = true) ->
  String.prefix xt (s +:+ r) = true -> String.prefix xt s = true.
Proof.
  intros Hxt Hr. revert s. induction xt as [|c xt IH]; intros s Hp;
    [apply prefix_empty|].
  simpl in Hxt. apply andb_true_iff in Hxt as [Hc Hxt].
  destruct s as [|e s].
  - simpl String.append in Hp.
    destruct Hr as [->|(d & r' & -> & Hd)]; [discriminate|].
    apply prefix_cons in Hp as [-> _]. rewrite Hd in Hc. discriminate.
  - simpl String.append in Hp. apply prefix_cons in Hp as [-> Hp].
    apply prefix_cons. auto.
Qed.

(** Text that begins with a whole rune, put after a text, adds no white
    space at its front. *)
Lemma starts_with_space_app_rune (s r : string) :
  s <> EmptyString ->
  (r = EmptyString \/ exists d r', r = String d r' /\ RuneStart d = true) ->
  starts_with_space s = false -> starts_with_space (s +:+ r) = false.
Proof.
  intros Hs Hr Hno.
  destruct (starts_with_space (s +:+ r)) eqn:Hstart; [|reflexivity].
  apply starts_with_space_iff in Hstart as (x & Hx & Hp).
  assert (starts_with_space s = true); [|congruence].
  apply starts_with_space_iff. exists x. split; [exact Hx|].
  apply spaceRune_shape in Hx as (a & xt & -> & _ & Hxt).
  destruct s as [|b s]; [congruence|].
  simpl String.append in Hp. apply prefix_cons in Hp as [-> Hp].
  apply prefix_cons. eauto using continuation_prefix.
Qed.

Lemma starts_with_space_app (s w : string) :
  s <> EmptyString -> white w ->
  starts_with_space s = false -> starts_with_space (s +:+ w) = false.
Proof. intros Hs Hw. apply starts_with_space_app_rune; auto using white_head. Qed.

(** No white space begins with a byte that no white space contains. *)
Lemma starts_with_space_byte (c : ascii) (s : string) :
  forallb (free_of c) spaceRunes = true ->
  starts_with_space (String c s) = false.
Proof.
  intros Hall. destruct (starts_with_space (String c s)) eqn:Hstart;
    [|reflexivity].
  apply starts_with_space_iff in Hstart as (x & Hx & Hp).
  pose proof (spaceRune_free_of c x Hall Hx) as Hfree.
  apply spaceRune_shape in Hx as (a & xt & -> & _ & _).
  apply prefix_cons in Hp as [-> _].
  simpl in Hfree. rewrite Ascii.eqb_refl in Hfree. discriminate.
Qed.

Lemma isSpaceRune_free (c : ascii) (x : string) :
  forallb (free_of c) spaceRunes = true ->
  free_of c x = false -> isSpaceRune x = false.
Proof.
  intros Hall Hx. destruct (isSpaceRune x) eqn:Hrune; [|reflexivity].
  rewrite (spaceRune_free_of c x Hall Hrune) in Hx. discriminate.
Qed.

Lemma trimLeft_white (w : string) : white w -> trimLeft w = EmptyString.
Proof.
  intros Hw. rewrite <- (string_app_empty_r w), trimLeft_app_white by exact Hw.
  reflexivity.
Qed.

(** White space around a trimmed text is what [TrimSpace] removes. *)
Lemma TrimSpace_padded (w1 s w2 : string) :
  white w1 -> white w2 -> trimmed s = true ->
  TrimSpace (w1 +:+ s +:+ w2) = s.
Proof.
  intros H1 H2 Hs. unfold trimmed in Hs.
  apply andb_true_iff in Hs as [Hl Hr]. apply negb_true_iff in Hl, Hr.
  unfold TrimSpace. rewrite trimLeft_app_white by exact H1.
  destruct s as [|c s].
  - simpl String.append. rewrite trimLeft_white by exact H2. reflexivity.
  - rewrite trimLeft_id by (apply starts_with_space_app; [discriminate|assumption..]).
    rewrite trimRight_app_white by exact H2. apply trimRight_id, Hr.
Qed.

Lemma TrimSpace_trimmed (s : string) : trimmed (TrimSpace s) = true.
Proof.
  unfold trimmed, TrimSpace. rewrite trimRight_no_space, andb_true_r.
  apply negb_true_iff.
  destruct (trimLeft_spec s) as (_ & _ & _ & Hno).
  destruct (trimRight_decompose (trimLeft s)) as (w & _ & Hdec).
  destruct (starts_with_space (trimRight (trimLeft s))) eqn:Hstart;
    [|reflexivity].
  apply starts_with_space_iff in Hstart as (x & Hx & Hp).
  assert (starts_with_space (trimLeft s) = true); [|congruence].
  apply starts_with_space_iff. exists x. split; [exact Hx|].
  rewrite Hdec. eapply prefix_trans; [exact Hp|apply prefix_of_app].
Qed.

(** What [TrimSpace] returns: the text between the white space at the two
    ends. *)
Lemma TrimSpace_spec (s : string) :
  exists wl wr,
    white wl /\ white wr /\ s = wl +:+ TrimSpace s +:+ wr
    /\ trimmed (TrimSpace s) = true.
Proof.
  destruct (trimLeft_spec s) as (wl & Hwl & Hs & _).
  destruct (trimRight_decompose (trimLeft s)) as (wr & Hwr & Hdec).
  exists wl, wr. split; [exact Hwl|]. split; [exact Hwr|].
  split; [|apply TrimSpace_trimmed].
  unfold TrimSpace. rewrite <- Hdec. exact Hs.
Qed.

Lemma TrimSpace_id (s : string) : trimmed s = true -> TrimSpace s = s.
Proof.
  intros Hs. unfold trimmed in Hs.
  apply andb_true_iff in Hs as [Hl Hr]. apply negb_true_iff in Hl, Hr.
  unfold TrimSpace. rewrite trimLeft_id by exact Hl. apply trimRight_id, Hr.
Qed.

Lemma TrimSpace_idem (s : string) : TrimSpace (TrimSpace s) = TrimSpace s.
Proof. apply TrimSpace_id, TrimSpace_trimmed. Qed.

Lemma TrimSpace_app_white (s w : string) :
  white w -> TrimSpace (s +:+ w) = TrimSpace s.
Proof.
  intros Hw. destruct (TrimSpace_spec s) as (wl & wr & Hwl & Hwr & Hs & Ht).
  rewrite Hs at 1. rewrite !string_app_assoc.
  apply TrimSpace_padded; auto using white_app.
Qed.

Lemma TrimSpace_trimLeft (s : string) : TrimSpace (trimLeft s) = TrimSpace s.
Proof. unfold TrimSpace. rewrite trimLeft_idem. reflexivity. Qed.

Lemma TrimSpace_trimRight (s : string) : TrimSpace (trimRight s) = TrimSpace s.
Proof.
  destruct (trimRight_decompose s) as (w & Hw & Hdec).
  rewrite Hdec at 2. rewrite TrimSpace_app_white by exact Hw. reflexivity.
Qed.

End TrimFacts.
(** ** Entries of the field list *)

Section FieldListEntries.

(** The separators of the field list are no part of any white space. *)
Lemma spaceRunes_free_of_comma : forallb (free_of ",") spaceRunes = true.
Proof. vm_compute. reflexivity. Qed.

Lemma spaceRunes_free_of_eq : forallb (free_of "=") spaceRunes = true.
Proof. vm_compute. reflexivity. Qed.

Lemma free_of_trimLeft (c : ascii) (s : string) :
  free_of c s = true -> free_of c (trimLeft s) = true.
Proof.
  destruct (trimLeft_spec s) as (w & _ & Hs & _).
  intros H. rewrite Hs, free_of_app in H.
  apply andb_true_iff in H as [_ H]. exact H.
Qed.

Lemma trimLeft_before_eq (x y : string) :
  trimLeft (x +:+ String "=" y) = trimLeft x +:+ String "=" y.
Proof.
  destruct (trimLeft_spec x) as (w & Hw & Hx & Hno).
  rewrite Hx at 1. rewrite string_app_assoc, trimLeft_app_white by exact Hw.
  apply trimLeft_id. destruct (trimLeft x) as [|c t] eqn:Ht.
  - apply starts_with_space_byte, spaceRunes_free_of_eq.
  - apply starts_with_space_app_rune; [discriminate| |exact Hno].
    right. exists "="%char, y. split; reflexivity.
Qed.

Lemma trimRight_after_eq (a y : string) :
  trimRight (a +:+ String "=" y) = a +:+ String "=" (trimRight y).
Proof.
  assert (Hkeep : forall b, isSpaceRune (b +:+ String "=" (trimRight y)) = false).
  { intros b. apply (isSpaceRune_free "="); [exact spaceRunes_free_of_eq|].
    rewrite free_of_app. cbn [free_of]. rewrite Ascii.eqb_refl.
    apply andb_false_r. }
  induction a as [|c a IH].
  - pose proof (Hkeep EmptyString) as H. simpl String.append in *.
    rewrite trimRight_cons, H. reflexivity.
  - pose proof (Hkeep (String c a)) as H. simpl String.append in *.
    rewrite trimRight_cons, IH, H. reflexivity.
Qed.

Lemma TrimSpace_around_eq (x y : string) :
  TrimSpace (x +:+ String "=" y) = trimLeft x +:+ String "=" (trimRight y).
Proof. unfold TrimSpace. rewrite trimLeft_before_eq. apply trimRight_after_eq. Qed.

Lemma SplitN_key_value (k v : string) :
  free_of "=" k = true -> SplitN (k +:+ String "=" v) "=" 2 = [k; v].
Proof. intros H. rewrite SplitN_step, Cut_byte_free by exact H. reflexivity. Qed.

(** One turn of the loop on an entry [x=y] whose key part has no [=]. *)
Lemma parseEntries_key_value (x y : string) (rest : list string)
    (m : gmap string string) :
  free_of "=" x = true ->
  parseEntries ((x +:+ String "=" y) :: rest) m
  = parseEntries rest (<[TrimSpace x := stripQuotes (TrimSpace y)]> m).
Proof.
  intros Hx. cbn [parseEntries]. rewrite TrimSpace_around_eq.
  replace (String.eqb (trimLeft x +:+ String "=" (trimRight y)) EmptyString)
    with false by (destruct (trimLeft x); reflexivity).
  rewrite SplitN_key_value by (apply free_of_trimLeft, Hx).
  rewrite TrimSpace_trimLeft, TrimSpace_trimRight. reflexivity.
Qed.

Lemma prefix_byte (d c : ascii) (s : string) :
  String.prefix (String d EmptyString) (String c s)
  = if ascii_dec d c then true else false.
Proof.
  cbn [String.prefix]. destruct (ascii_dec d c); [apply prefix_empty|reflexivity].
Qed.

Lemma Split_sep_head (d : ascii) (s : string) :
  Split (String d s) (String d EmptyString)
  = EmptyString :: Split s (String d EmptyString).
Proof.
  rewrite Split_step by discriminate. rewrite Cut_unfold, prefix_byte.
  destruct (ascii_dec d d); [reflexivity|congruence].
Qed.

Lemma Split_other_head (d c : ascii) (s : string) :
  c <> d ->
  Split (String c s) (String d EmptyString) =
    match Split s (String d EmptyString) with
    | e :: r => String c e :: r
    | [] => []
    end.
Proof.
  intros Hc. rewrite (Split_step (String c s)) by discriminate.
  rewrite Cut_unfold, prefix_byte.
  destruct (ascii_dec d c) as [<-|_]; [congruence|].
  rewrite (Split_step s) by discriminate.
  destruct (Cut s (String d EmptyString)) as [[a b]|]; reflexivity.
Qed.

Lemma Split_free (d : ascii) (t : string) :
  free_of d t = true -> Split t (String d EmptyString) = [t].
Proof.
  intros H. rewrite Split_step, Cut_byte_none by (exact H || discriminate).
  reflexivity.
Qed.

Lemma onLast_cons (f : string -> string) (x : string) (l : list string) :
  0 < length l -> onLast f (x :: l) = x :: onLast f l.
Proof. destruct l; simpl; [lia|reflexivity]. Qed.

(** Text without the separator, appended to the input, extends the last
    entry. *)
Lemma Split_app_free (d : ascii) (s t : string) :
  free_of d t = true ->
  Split (s +:+ t) (String d EmptyString)
  = onLast (fun e => e +:+ t) (Split s (String d EmptyString)).
Proof.
  intros Ht. induction s as [|c s IH].
  - simpl String.append. rewrite Split_free by exact Ht. reflexivity.
  - simpl String.append. destruct (ascii_dec c d) as [->|Hc].
    + rewrite !Split_sep_head, IH.
      rewrite onLast_cons by apply Split_nonempty. reflexivity.
    + rewrite !(Split_other_head d c), IH by exact Hc.
      pose proof (Split_nonempty s (String d EmptyString)) as Hne.
      destruct (Split s (String d EmptyString)) as [|e [|e' r]];
        [simpl in Hne; lia| |]; reflexivity.
Qed.

(** A further entry, appended after a separator, is the new last entry. *)
Lemma Split_snoc (d : ascii) (s e : string) :
  free_of d e = true ->
  Split (s +:+ String d e) (String d EmptyString)
  = Split s (String d EmptyString) ++ [e].
Proof.
  intros He. induction s as [|c s IH].
  - simpl String.append. rewrite Split_sep_head, Split_free by exact He.
    reflexivity.
  - simpl String.append. destruct (ascii_dec c d) as [->|Hc].
    + rewrite !Split_sep_head, IH. reflexivity.
    + rewrite !(Split_other_head d c), IH by exact Hc.
      pose proof (Split_nonempty s (String d EmptyString)) as Hne.
      destruct (Split s (String d EmptyString)); [simpl in Hne; lia|reflexivity].
Qed.

Lemma parseEntries_trimmed (l : list string) (m : gmap string string) :
  parseEntries (List.map TrimSpace l) m = parseEntries l m.
Proof.
  revert m. induction l as [|e l IH]; intros m; [reflexivity|].
  cbn [List.map parseEntries]. rewrite TrimSpace_idem.
  destruct (String.eqb (TrimSpace e) EmptyString); [apply IH|].
  destruct (SplitN (TrimSpace e) "=" 2) as [|k [|v [|? ?]]]; auto.
Qed.

Lemma map_TrimSpace_onLast (w : string) (l : list string) :
  white w ->
  List.map TrimSpace (onLast (fun e => e +:+ w) l) = List.map TrimSpace l.
Proof.
  intros Hw. induction l as [|x [|y r] IH]; [reflexivity| |].
  - simpl. rewrite TrimSpace_app_white by exact Hw. reflexivity.
  - change (onLast (fun e => e +:+ w) (x :: y :: r))
      with (x :: onLast (fun e => e +:+ w) (y :: r)).
    cbn [List.map]. rewrite IH. reflexivity.
Qed.

(** Trimming the whole input before splitting it changes nothing: every
    entry is trimmed again by the loop. *)
Lemma parseEntries_outer_trim (s : string) (m : gmap string string) :
  starts_with_space s = false ->
  parseEntries (Split (TrimSpace s) ",") m = parseEntries (Split s ",") m.
Proof.
  intros Hs. unfold TrimSpace. rewrite trimLeft_id by exact Hs.
  destruct (trimRight_decompose s) as (w & Hw & Hdec).
  rewrite Hdec at 2.
  rewrite Split_app_free
    by (apply white_free_of; [exact spaceRunes_free_of_comma|exact Hw]).
  rewrite <- parseEntries_trimmed.
  rewrite <- (parseEntries_trimmed (onLast _ _)).
  rewrite map_TrimSpace_onLast by exact Hw. reflexivity.
Qed.

Lemma parseEntries_app (l1 l2 : list string) (m : gmap string string) :
  parseEntries (l1 ++ l2) m = parseEntries l1 m ≫= parseEntries l2.
Proof.
  revert m. induction l1 as [|e l1 IH]; intros m; [reflexivity|].
  cbn [app parseEntries].
  destruct (String.eqb (TrimSpace e) EmptyString); [apply IH|].
  destruct (SplitN (TrimSpace e) "=" 2) as [|k [|v [|? ?]]]; auto.
Qed.

Lemma HasPrefix_ccrn_no_space (s : string) :
  HasPrefix s "ccrn=" = true -> starts_with_space s = false.
Proof.
  intros H. apply prefix_app in H. rewrite H.
  apply starts_with_space_byte. vm_compute. reflexivity.
Qed.

Lemma HasPrefix_app (s t p : string) :
  HasPrefix s p = true -> HasPrefix (s +:+ t) p = true.
Proof.
  unfold HasPrefix. intros H. apply prefix_app in H. rewrite H.
  rewrite string_app_assoc. apply prefix_of_app.
Qed.

(** [parseCCRNFields] as the loop over the entries of the untrimmed
    input. *)
Lemma parseCCRNFields_entries (ccrn : string) :
  HasPrefix ccrn "ccrn=" = true ->
  parseCCRNFields ccrn =
    fields ← parseEntries (Split ccrn ",") ∅;
    match fields !! "ccrn" with
    | None => Err ErrMissingCCRN
    | Some _ => Ok fields
    end.
Proof.
  intros H. unfold parseCCRNFields. rewrite H. simpl negb. cbv iota.
  rewrite parseEntries_outer_trim by (apply HasPrefix_ccrn_no_space, H).
  reflexivity.
Qed.

End FieldListEntries.

(** ** Quoted values *)

Section QuotedValues.

Lemma get_app_length (x : string) (c : ascii) (r : string) :
  String.get (String.length x) (x +:+ String c r) = Some c.
Proof. induction x; simpl; auto. Qed.

Lemma substring_app_length (x r : string) :
  String.substring 0 (String.length x) (x +:+ r) = x.
Proof.
  induction x as [|c x IH]; simpl; [destruct r; reflexivity|].
  rewrite IH. reflexivity.
Qed.

Lemma stripQuotes_quoted (x : string) : stripQuotes (quoted x) = x.
Proof.
  unfold stripQuotes, quoted. cbn [String.length].
  rewrite string_length_app. cbn [String.length].
  replace (2 <=? S (String.length x + 1))%nat with true
    by (symmetry; apply Nat.leb_le; lia).
  replace (S (String.length x + 1) - 1) with (S (String.length x)) by lia.
  replace (S (String.length x + 1) - 2) with (String.length x) by lia.
  cbn [String.get]. rewrite get_app_length.
  unfold isQuote, quote. rewrite Ascii.eqb_refl. cbn [andb].
  cbn [String.substring]. apply substring_app_length.
Qed.

(** A string is its text before the last byte, followed by that byte. *)
Lemma last_byte (v : string) (c : ascii) :
  String.get (String.length v - 1) v = Some c ->
  v = String.substring 0 (String.length v - 1) v +:+ String c EmptyString.
Proof.
  induction v as [|d v IH]; [discriminate|].
  destruct v as [|e v].
  - simpl. intros [= ->]. reflexivity.
  - intros H.
    replace (String.length (String d (String e v)) - 1)
      with (S (String.length (String e v) - 1)) in *
      by (cbn [String.length]; lia).
    cbn [String.get] in H. cbn [String.substring].
    simpl String.append. f_equal. apply IH, H.
Qed.

Lemma stripQuotes_plain (v : string) :
  (forall x, v <> quoted x) -> stripQuotes v = v.
Proof.
  intros Hv. unfold stripQuotes.
  destruct (2 <=? String.length v)%nat eqn:Hlen; [|reflexivity].
  destruct (isQuote (String.get 0 v)) eqn:H0; [|reflexivity].
  destruct (isQuote (String.get (String.length v - 1) v)) eqn:H1; [|reflexivity].
  exfalso. apply Nat.leb_le in Hlen.
  destruct v as [|c v]; [simpl in Hlen; lia|].
  cbn [String.get] in H0. unfold isQuote in H0, H1.
  apply Ascii.eqb_eq in H0. subst c.
  cbn [String.length] in *.
  replace (S (String.length v) - 1) with (S (String.length v - 1)) in H1 by lia.
  cbn [String.get] in H1.
  destruct (String.get (String.length v - 1) v) as [c|] eqn:Hget; [|discriminate].
  apply Ascii.eqb_eq in H1. subst c.
  apply last_byte in Hget.
  apply (Hv (String.substring 0 (String.length v - 1) v)).
  unfold quoted. fold quote. f_equal. exact Hget.
Qed.

(** [stripQuotes] computes the value the specification describes. *)
Lemma stripQuotes_unquoted (v value : string) :
  unquoted v value -> stripQuotes v = value.
Proof.
  intros [x|v' Hv]; [apply stripQuotes_quoted|apply stripQuotes_plain, Hv].
Qed.

End QuotedValues.

(** Appending the entry [w1 k w2 = w3 v w4] to a field list that parses
    to [m], where the [w]s are white space and [k] and [v] are trimmed,
    gives [m] with [k] bound to [v], or to the text between the quotes when
    [v] is wholly wrapped in one pair of double quotes; nothing else is
    changed. *)
Lemma parseCCRNFields_entry_appended
    (pre w1 k w2 w3 v w4 value : string) (m : gmap string string) :
  parseCCRNFields pre = Ok m ->
  white w1 -> white w2 -> white w3 -> white w4 ->
  trimmed k = true -> trimmed v = true ->
  free_of "," k = true -> free_of "=" k = true -> free_of "," v = true ->
  unquoted v value ->
  parseCCRNFields
    (pre +:+ String "," ((w1 +:+ k +:+ w2) +:+ String "=" (w3 +:+ v +:+ w4)))
  = Ok (<[k := value]> m).
Proof.
  intros Hpre H1 H2 H3 H4 Hk Hv Hkc Hke Hvc Hval.
  assert (Hp : HasPrefix pre "ccrn=" = true).
  { unfold parseCCRNFields in Hpre.
    destruct (HasPrefix pre "ccrn="); [reflexivity|discriminate]. }
  rewrite parseCCRNFields_entries in Hpre by exact Hp.
  apply result_bind_Ok in Hpre as (m' & Hm' & Hcheck).
  assert (Hccrn : is_Some (m !! "ccrn") /\ m' = m).
  { destruct (m' !! "ccrn") eqn:E; [|discriminate].
    injection Hcheck as <-. eauto. }
  destruct Hccrn as [Hccrn ->].
  rewrite parseCCRNFields_entries by (apply HasPrefix_app, Hp).
  assert (Hws : forall w, white w ->
                          free_of "," w = true /\ free_of "=" w = true).
  { intros w Hw. split; apply white_free_of;
      auto using spaceRunes_free_of_comma, spaceRunes_free_of_eq. }
  destruct (Hws _ H1), (Hws _ H2), (Hws _ H3), (Hws _ H4).
  rewrite Split_snoc.
  2:{ rewrite free_of_app. cbn [free_of]. rewrite !free_of_app.
      repeat (apply andb_true_iff; split); auto. }
  rewrite parseEntries_app, Hm'. cbn [mbind result_bind].
  rewrite parseEntries_key_value.
  2:{ rewrite !free_of_app. repeat (apply andb_true_iff; split); auto. }
  cbn [parseEntries mbind result_bind].
  rewrite !TrimSpace_padded by assumption.
  rewrite (stripQuotes_unquoted v value Hval).
  destruct (decide (k = "ccrn")) as [->|Hne].
  - rewrite lookup_insert_eq. reflexivity.
  - rewrite lookup_insert_ne by exact Hne.
    destruct Hccrn as [c ->]. reflexivity.
Qed.

(** ** A whole field list, entry by entry *)

Section WholeFieldList.

(** A text without [=] that is followed by [=] and begins a string that
    starts with [ccrn=] is [ccrn]. *)
Lemma prefix_ccrn_name (x r : string) :
  free_of "=" x = true ->
  HasPrefix (x +:+ String "=" r) "ccrn=" = true ->
  x = "ccrn".
Proof.
  unfold HasPrefix. intros Hfree Hp.
  do 4 (destruct x as [|? x]; cbn [String.append] in Hp;
        apply prefix_cons in Hp as [Hc Hp]; [discriminate Hc|subst]).
  destruct x as [|c x]; [reflexivity|].
  cbn [String.append] in Hp. apply prefix_cons in Hp as [<- _].
  cbn in Hfree. repeat rewrite andb_false_r in Hfree. discriminate.
Qed.

(** The text of the entries is the text of the first one followed by
    the others. *)
Lemma fieldListText_tail (rest : list Entry) :
  exists tail, forall text,
    foldl (fun text e => text +:+ String "," (entryText e)) text rest
    = text +:+ tail.
Proof.
  induction rest as [|e rest [tail IH]].
  - exists EmptyString. intros text. symmetry. apply string_app_empty_r.
  - exists (String "," (entryText e) +:+ tail). intros text.
    cbn [foldl]. rewrite IH. apply string_app_assoc.
Qed.

(** The guard of [parseCCRNFields] fixes the name of the first entry:
    it is [ccrn], with no white space around it. *)
Lemma first_entry_is_ccrn (first : Entry) (tail : string) :
  wellFormed first ->
  HasPrefix (entryText first +:+ tail) "ccrn=" = true ->
  nameLead first = EmptyString /\ entryName first = "ccrn"
  /\ nameTrail first = EmptyString.
Proof.
  intros (H1 & H2 & _ & _ & Hk & _ & _ & Hke & _) Hp.
  unfold entryText in Hp. rewrite string_app_assoc in Hp.
  change (String "=" ?s +:+ tail) with (String "=" (s +:+ tail)) in Hp.
  apply prefix_ccrn_name in Hp.
  2:{ rewrite !free_of_app.
      rewrite (white_free_of "=" _ spaceRunes_free_of_eq H1).
      rewrite (white_free_of "=" _ spaceRunes_free_of_eq H2).
      rewrite Hke. reflexivity. }
  assert (Hname : entryName first = "ccrn").
  { rewrite <- (TrimSpace_padded (nameLead first) (entryName first)
                  (nameTrail first)) by assumption.
    rewrite Hp. vm_compute. reflexivity. }
  apply (f_equal String.length) in Hp.
  rewrite !string_length_app, Hname in Hp. cbn [String.length] in Hp.
  split; [|split; [exact Hname|]].
  - destruct (nameLead first); [reflexivity|cbn [String.length] in Hp; lia].
  - destruct (nameTrail first); [reflexivity|cbn [String.length] in Hp; lia].
Qed.

Lemma fieldsOf_snoc (entries : list Entry) (e : Entry) :
  fieldsOf (entries ++ [e]) = <[entryName e := entryValue e]> (fieldsOf entries).
Proof. unfold fieldsOf. rewrite foldl_app. reflexivity. Qed.

(** The field list of one entry. *)
Lemma parseCCRNFields_first_entry (first : Entry) :
  wellFormed first ->
  nameLead first = EmptyString -> entryName first = "ccrn" ->
  nameTrail first = EmptyString ->
  parseCCRNFields (entryText first) = Ok (fieldsOf [first]).
Proof.
  intros (H1 & H2 & H3 & H4 & Hk & Hv & Hkc & Hke & Hvc & Hval) Hlead Hname Htrail.
  assert (Hws : forall w, white w ->
                          free_of "," w = true /\ free_of "=" w = true).
  { intros w Hw. split; apply white_free_of;
      auto using spaceRunes_free_of_comma, spaceRunes_free_of_eq. }
  destruct (Hws _ H1), (Hws _ H2), (Hws _ H3), (Hws _ H4).
  rewrite parseCCRNFields_entries
    by (unfold entryText; rewrite Hlead, Hname, Htrail;
        exact (prefix_of_app "ccrn=" _)).
  unfold entryText. rewrite Split_free.
  2:{ rewrite free_of_app. cbn [free_of]. rewrite !free_of_app.
      repeat (apply andb_true_iff; split); auto. }
  rewrite parseEntries_key_value.
  2:{ rewrite !free_of_app. repeat (apply andb_true_iff; split); auto. }
  cbn [parseEntries mbind result_bind].
  rewrite !TrimSpace_padded by assumption.
  rewrite (stripQuotes_unquoted _ _ Hval).
  unfold fieldsOf. cbn [foldl]. rewrite Hname, lookup_insert_eq. reflexivity.
Qed.

Lemma parseCCRNFields_from_ccrn (first : Entry) (rest : list Entry) :
  wellFormed first ->
  nameLead first = EmptyString -> entryName first = "ccrn" ->
  nameTrail first = EmptyString ->
  Forall wellFormed rest ->
  parseCCRNFields (fieldListText first rest) = Ok (fieldsOf (first :: rest)).
Proof.
  intros Hfirst Hlead Hname Htrail.
  induction rest as [|e rest IH] using rev_ind; intros Hrest.
  - apply parseCCRNFields_first_entry; assumption.
  - apply Forall_app in Hrest as [Hrest He].
    apply Forall_inv in He.
    destruct He as (H1 & H2 & H3 & H4 & Hk & Hv & Hkc & Hke & Hvc & Hval).
    unfold fieldListText. rewrite foldl_app. cbn [foldl].
    rewrite app_comm_cons, fieldsOf_snoc.
    apply parseCCRNFields_entry_appended; auto.
Qed.

(** C8 (field-list value normalization).  A field list is a sequence of
    entries [w1 name w2 = w3 value w4] separated by commas, where the [w]s
    are white space and the name and the value are trimmed.  Whenever such
    a text passes the guard of [parseCCRNFields] (it starts with [ccrn=]),
    it parses, and every entry, the first one included, binds its name to
    its value, or to the text between the quotes when the value is wholly
    wrapped in one pair of double quotes: the white space is gone and
    nothing else is changed.  A later entry replaces an earlier one of the
    same name. *)
Theorem field_list_entries_normalized (first : Entry) (rest : list Entry) :
  wellFormed first -> Forall wellFormed rest ->
  HasPrefix (fieldListText first rest) "ccrn=" = true ->
  parseCCRNFields (fieldListText first rest) = Ok (fieldsOf (first :: rest)).
Proof.
  intros Hfirst Hrest Hp.
  destruct (fieldListText_tail rest) as [tail Htail].
  unfold fieldListText in Hp. rewrite Htail in Hp.
  apply first_entry_is_ccrn in Hp as (Hlead & Hname & Htrail);
    [|exact Hfirst].
  apply parseCCRNFields_from_ccrn; assumption.
Qed.

End WholeFieldList.

Lemma ccrnEntry_wellFormed : wellFormed ccrnEntry.
Proof.
  repeat split; try apply white_nil; try reflexivity.
  apply unquoted_plain. intros x H. discriminate.
Qed.

Lemma nameEntry_wellFormed : wellFormed nameEntry.
Proof.
  repeat split; try apply white_nil; try reflexivity.
  - exact (white_rune " " EmptyString eq_refl white_nil).
  - apply unquoted_pair.
Qed.

Lemma paddedCcrnEntry_wellFormed : wellFormed paddedCcrnEntry.
Proof.
  repeat split; try apply white_nil; try reflexivity;
    try exact (white_rune " " EmptyString eq_refl white_nil).
  apply unquoted_pair.
Qed.

(** The example of the specification, [ccrn=t.g/v1, name="my-pod"]: the
    field [name] is [my-pod]. *)
Lemma field_list_entries_normalized_witness :
  parseCCRNFields (fieldListText ccrnEntry [nameEntry])
  = Ok (<["name" := "my-pod"]> {[ "ccrn" := "t.g/v1" ]}).
Proof.
  apply (field_list_entries_normalized ccrnEntry [nameEntry]).
  - exact ccrnEntry_wellFormed.
  - constructor; [exact nameEntry_wellFormed|constructor].
  - reflexivity.
Defined.

(** The first entry is normalized like the others: in
    [ccrn= "t.g/v1" , name="my-pod"] the type key is [t.g/v1]. *)
Lemma first_entry_normalized :
  parseCCRNFields (fieldListText paddedCcrnEntry [nameEntry])
  = Ok (<["name" := "my-pod"]> {[ "ccrn" := "t.g/v1" ]}).
Proof.
  apply (parseCCRNFields_from_ccrn paddedCcrnEntry [nameEntry]);
    try reflexivity.
  - exact paddedCcrnEntry_wellFormed.
  - constructor; [exact nameEntry_wellFormed|constructor].
Qed.

(** ** Rendering a URN from a flat template *)

Section Rendering.

(** Text without the first byte of the pattern is skipped by [Cut]. *)
Lemma Cut_skip (d : ascii) (l s pat : string) :
  free_of d l = true ->
  Cut (l +:+ s) (String d pat) =
    match Cut s (String d pat) with
    | Some (a, b) => Some (l +:+ a, b)
    | None => None
    end.
Proof.
  induction l as [|c l IH]; intros H.
  - simpl String.append. destruct (Cut s (String d pat)) as [[a b]|]; reflexivity.
  - simpl in H. apply andb_true_iff in H as [Hc Hl].
    simpl String.append. rewrite Cut_unfold. cbn [String.prefix].
    destruct (ascii_dec d c) as [<-|_].
    + rewrite Ascii.eqb_refl in Hc. discriminate.
    + rewrite (IH Hl). destruct (Cut s (String d pat)) as [[a b]|]; reflexivity.
Qed.

Lemma Replace1_skip (d : ascii) (l s pat new : string) :
  free_of d l = true ->
  Replace1 (l +:+ s) (String d pat) new = l +:+ Replace1 s (String d pat) new.
Proof.
  intros H. unfold Replace1. rewrite Cut_skip by exact H.
  destruct (Cut s (String d pat)) as [[a b]|]; [|reflexivity].
  apply string_app_assoc.
Qed.

(** Two names without the closing byte, each followed by it: one is a
    prefix of the other only if the names are equal. *)
Lemma prefix_closed_name (e : ascii) (k n x y : string) :
  free_of e k = true -> free_of e n = true ->
  String.prefix (k +:+ String e x) (n +:+ String e y) = true -> k = n.
Proof.
  revert n. induction k as [|c k IH]; intros n Hk Hn.
  - destruct n as [|d n]; [reflexivity|].
    simpl String.append. cbn [String.prefix].
    simpl in Hn. apply andb_true_iff in Hn as [Hd _].
    destruct (ascii_dec e d) as [<-|_]; [|discriminate].
    rewrite Ascii.eqb_refl in Hd. discriminate.
  - simpl in Hk. apply andb_true_iff in Hk as [Hc Hk].
    destruct n as [|d n]; simpl String.append; cbn [String.prefix].
    + destruct (ascii_dec c e) as [->|_]; [|discriminate].
      rewrite Ascii.eqb_refl in Hc. discriminate.
    + simpl in Hn. apply andb_true_iff in Hn as [_ Hn].
      destruct (ascii_dec c d) as [->|_]; [|discriminate].
      intros H. f_equal. eapply IH; eauto.
Qed.

Lemma free_of_snoc_ne (d e : ascii) (n : string) :
  free_of d n = true -> d <> e -> free_of d (n +:+ String e EmptyString) = true.
Proof.
  intros Hn Hne. rewrite free_of_app, Hn. simpl.
  destruct (Ascii.eqb_spec e d); [congruence|reflexivity].
Qed.

(** One substitution on a flat template replaces the first placeholder of
    that name, and nothing else. *)
Lemma Replace1_flatten (k v : string) (toks : list token) :
  flat toks = true -> free_of ">" k = true ->
  Replace1 (flatten toks) ("<" +:+ k +:+ ">") v = flatten (fill k v toks).
Proof.
  intros Hflat Hk.
  change ("<" +:+ k +:+ ">") with (String "<" (k +:+ String ">" EmptyString)).
  induction toks as [|t toks IH]; [reflexivity|].
  simpl in Hflat. apply andb_true_iff in Hflat as [Ht Hflat].
  specialize (IH Hflat). destruct t as [text|name].
  - cbn [flatten fill tokenText]. rewrite Replace1_skip by exact Ht.
    rewrite IH. reflexivity.
  - simpl in Ht. apply andb_true_iff in Ht as [Hlt Hgt].
    cbn [flatten fill tokenText].
    change ("<" +:+ name +:+ ">")
      with (String "<" (name +:+ String ">" EmptyString)).
    destruct (String.eqb_spec name k) as [->|Hne].
    + unfold Replace1. rewrite Cut_unfold, prefix_of_app, string_drop_app.
      reflexivity.
    + simpl String.append. rewrite string_app_assoc. simpl String.append.
      unfold Replace1. rewrite Cut_unfold. cbn [String.prefix].
      destruct (ascii_dec "<" "<") as [_|]; [|congruence].
      destruct (String.prefix (k +:+ String ">" EmptyString)
                  (name +:+ String ">" (flatten toks))) eqn:Hp.
      { apply prefix_closed_name in Hp; congruence. }
      replace (name +:+ String ">" (flatten toks))
        with ((name +:+ String ">" EmptyString) +:+ flatten toks)
        by (rewrite string_app_assoc; reflexivity).
      rewrite Cut_skip by (apply free_of_snoc_ne; [exact Hlt|discriminate]).
      unfold Replace1 in IH.
      destruct (Cut (flatten toks) (String "<" (k +:+ String ">" EmptyString)))
        as [[a b]|].
      * cbn [flatten tokenText]. rewrite <- IH. simpl String.append.
        rewrite !string_app_assoc. reflexivity.
      * cbn [flatten tokenText]. rewrite <- IH. simpl String.append.
        rewrite !string_app_assoc. reflexivity.
Qed.

Lemma flat_fill (k v : string) (toks : list token) :
  flat toks = true -> free_of "<" v = true -> flat (fill k v toks) = true.
Proof.
  intros Hflat Hv. induction toks as [|t toks IH]; [reflexivity|].
  simpl in Hflat. apply andb_true_iff in Hflat as [Ht Hflat].
  destruct t as [text|name]; simpl in Ht |- *.
  - rewrite Ht. exact (IH Hflat).
  - destruct (String.eqb name k); simpl.
    + rewrite Hv. exact Hflat.
    + rewrite Ht. exact (IH Hflat).
Qed.

(** The loop of [URN] on a flat template, one [fill] for each field
    visited. *)
Lemma substituteAll_flatten (visit : list (string * string)) (toks : list token) :
  flat toks = true ->
  Forall (fun kv => free_of ">" kv.1 = true /\ free_of "<" kv.2 = true) visit ->
  substituteAll visit (flatten toks)
  = flatten (foldl (fun t kv => fill kv.1 kv.2 t) toks visit).
Proof.
  intros Hflat Hvisit. revert toks Hflat.
  induction Hvisit as [|[k v] visit [Hk Hv] _ IH]; intros toks Hflat;
    [reflexivity|].
  unfold substituteAll in *. cbn [foldl]. unfold substitute at 2.
  cbn [fst snd]. rewrite Replace1_flatten by assumption.
  apply IH, flat_fill; assumption.
Qed.

(** Filling the placeholder of a field that the rendering has not used
    amounts to rendering with that field added. *)
Lemma fill_renderURN_spec (k v : string) (fields : gmap string string)
    (toks : list token) :
  fields !! k = None ->
  fill k v (renderURN_spec fields toks) = renderURN_spec (<[k := v]> fields) toks.
Proof.
  revert fields. induction toks as [|t toks IH]; intros fields Hk;
    [reflexivity|].
  destruct t as [text|name]; cbn [renderURN_spec fill].
  - rewrite IH by exact Hk. reflexivity.
  - destruct (String.eqb_spec name k) as [->|Hne].
    + rewrite Hk, lookup_insert_eq. cbn [fill]. rewrite String.eqb_refl.
      rewrite delete_insert_id by exact Hk. reflexivity.
    + rewrite lookup_insert_ne by congruence.
      destruct (fields !! name) as [value|] eqn:Hname; cbn [fill].
      * rewrite IH by (rewrite lookup_delete_ne by exact Hne; exact Hk).
        rewrite delete_insert_ne by exact Hne. reflexivity.
      * destruct (String.eqb_spec name k); [congruence|].
        rewrite IH by exact Hk. reflexivity.
Qed.

Lemma renderURN_spec_empty (toks : list token) : renderURN_spec ∅ toks = toks.
Proof.
  induction toks as [|[text|name] toks IH]; cbn [renderURN_spec];
    rewrite ?lookup_empty, ?IH; reflexivity.
Qed.

Lemma foldl_fill_renderURN_spec (visit : list (string * string))
    (toks : list token) :
  NoDup visit.*1 ->
  foldl (fun t kv => fill kv.1 kv.2 t) toks visit
  = renderURN_spec (list_to_map visit) toks.
Proof.
  induction visit as [|[k v] visit IH] using rev_ind; intros Hnd.
  - simpl. symmetry. apply renderURN_spec_empty.
  - rewrite fmap_app, NoDup_app in Hnd. destruct Hnd as (Hnd & Hk & _).
    assert (k ∉ visit.*1).
    { intros Hin. apply (Hk k Hin). simpl. apply list_elem_of_here. }
    rewrite foldl_app. cbn [foldl fst snd]. rewrite IH by exact Hnd.
    rewrite list_to_map_snoc by assumption.
    apply fill_renderURN_spec. apply not_elem_of_list_to_map_1. assumption.
Qed.

Lemma URN_visiting_templateUsed (visit : list (string * string))
    (p : ParsedResource) (template : string) :
  URN_visiting visit p template = substituteAll visit (templateUsed p template).
Proof.
  unfold URN_visiting, templateUsed.
  destruct (String.eqb template EmptyString); [|reflexivity].
  destruct (String.eqb_spec (UrnTemplate p) EmptyString) as [->|_];
    [|reflexivity].
  induction visit as [|kv visit IH]; [reflexivity|exact IH].
Qed.

(** On a flat template and plain fields, whatever the iteration order,
    [URN] returns the rendering of the specification. *)
Lemma URN_visiting_flat (visit : list (string * string)) (p : ParsedResource)
    (template : string) (toks : list token) :
  iteration_order (Fields p) visit ->
  templateUsed p template = flatten toks ->
  flat toks = true ->
  plain_fields (Fields p) ->
  URN_visiting visit p template = flatten (renderURN_spec (Fields p) toks).
Proof.
  intros Hvisit Htpl Hflat Hplain.
  rewrite URN_visiting_templateUsed, Htpl.
  assert (Hnd : NoDup visit.*1).
  { unfold iteration_order in Hvisit. rewrite Hvisit.
    apply NoDup_fst_map_to_list. }
  rewrite substituteAll_flatten; [|exact Hflat|].
  - rewrite foldl_fill_renderURN_spec by exact Hnd.
    rewrite (list_to_map_proper visit (map_to_list (Fields p))) by assumption.
    rewrite list_to_map_to_list. reflexivity.
  - apply Forall_forall. intros [k v] Hin.
    unfold iteration_order in Hvisit. rewrite Hvisit in Hin.
    apply elem_of_map_to_list in Hin. exact (Hplain k v Hin).
Qed.

Lemma URN_visiting_flat_any (p : ParsedResource) (template out : string)
    (toks : list token) :
  templateUsed p template = flatten toks ->
  flat toks = true ->
  plain_fields (Fields p) ->
  URN p template out ->
  out = flatten (renderURN_spec (Fields p) toks).
Proof.
  intros Htpl Hflat Hplain (visit & Hvisit & ->).
  apply URN_visiting_flat; assumption.
Qed.

(** A list of entries with distinct keys is an iteration order of the map
    it builds. *)
Lemma iteration_order_list (visit : list (string * string)) :
  NoDup visit.*1 -> iteration_order (list_to_map visit) visit.
Proof. intros H. unfold iteration_order. symmetry. apply map_to_list_to_map, H. Qed.

End Rendering.

(** ** The statements about [URN] *)

Section ConcreteFields.

Lemma podFields_parsed : parseCCRNFields podFieldList = Ok podFields.
Proof. vm_compute. reflexivity. Qed.

Lemma nestedFields_parsed : parseCCRNFields nestedFieldList = Ok nestedFields.
Proof. vm_compute. reflexivity. Qed.

Lemma podFields_plain : plain_fields podFields.
Proof.
  unfold plain_fields, podFields.
  repeat (apply map_Forall_insert_2; [split; reflexivity|]).
  apply map_Forall_empty.
Qed.

Lemma podTokens_template :
  templateUsed (resource podFields podFieldList) podTemplate = flatten podTokens.
Proof. reflexivity. Qed.

Lemma iteration_order_of (visit : list (string * string))
    (m : gmap string string) :
  NoDup visit.*1 -> list_to_map visit = m -> iteration_order m visit.
Proof. intros Hnd <-. apply iteration_order_list, Hnd. Qed.

End ConcreteFields.

(** C9 (URN rendering), as amended.  On a template whose angle brackets
    only delimit placeholders, and with field names free of [>] and field
    values free of [<], every value [URN] can return is the template with
    the first placeholder of each field replaced by that field's value, the
    other placeholders left as they are. *)
Theorem URN_renders_flat_template
    (p : ParsedResource) (template out : string) (toks : list token) :
  templateUsed p template = flatten toks ->
  flat toks = true ->
  plain_fields (Fields p) ->
  URN p template out ->
  out = flatten (renderURN_spec (Fields p) toks).
Proof.
  intros Htpl Hflat Hplain (visit & Hvisit & ->).
  apply URN_visiting_flat; assumption.
Qed.

Lemma URN_renders_flat_template_witness :
  podURN = flatten (renderURN_spec podFields podTokens).
Proof.
  apply (URN_renders_flat_template (resource podFields podFieldList)
           podTemplate podURN podTokens).
  - reflexivity.
  - reflexivity.
  - exact podFields_plain.
  - exists (map_to_list podFields). split; [unfold iteration_order; reflexivity|].
    vm_compute. reflexivity.
Defined.

(** C9, as stated, fails when a value holds the placeholder of another
    field: visiting [cluster] before [name], [URN] returns a string in
    which the value of [cluster] does not occur and the placeholder [<name>]
    of the template is still there, although [name] is a field. *)
Lemma URN_nested_placeholder_counterexample :
  URN (resource nestedFields nestedFieldList) podTemplate
      "urn:ccrn:t.g/v1/my-pod/<name>"
  /\ flatten (renderURN_spec nestedFields podTokens)
     = "urn:ccrn:t.g/v1/<name>/my-pod"
  /\ "urn:ccrn:t.g/v1/my-pod/<name>"
     <> flatten (renderURN_spec nestedFields podTokens).
Proof.
  split; [|split].
  - exists clusterFirst. split; [|vm_compute; reflexivity].
    apply iteration_order_of; [|vm_compute; reflexivity].
    apply (bool_decide_unpack _). vm_compute. reflexivity.
  - vm_compute. reflexivity.
  - vm_compute. discriminate.
Qed.

(** C10 (determinism of URN rendering), as amended.  On a template whose
    angle brackets only delimit placeholders, and with field names free of
    [>] and field values free of [<], two calls of [URN] return the same
    string, whatever the order in which each visits the fields. *)
Theorem URN_deterministic_on_flat_template
    (p : ParsedResource) (template out1 out2 : string) (toks : list token) :
  templateUsed p template = flatten toks ->
  flat toks = true ->
  plain_fields (Fields p) ->
  URN p template out1 -> URN p template out2 ->
  out1 = out2.
Proof.
  intros Htpl Hflat Hplain (visit1 & Hvisit1 & ->) (visit2 & Hvisit2 & ->).
  rewrite (URN_visiting_flat visit1 p template toks) by assumption.
  rewrite (URN_visiting_flat visit2 p template toks) by assumption.
  reflexivity.
Qed.

Lemma URN_deterministic_on_flat_template_witness :
  URN_visiting [("name", "my-pod"); ("cluster", "eu-de-1"); ("ccrn", "t.g/v1")]
    (resource podFields podFieldList) podTemplate
  = URN_visiting [("cluster", "eu-de-1"); ("ccrn", "t.g/v1"); ("name", "my-pod")]
      (resource podFields podFieldList) podTemplate.
Proof.
  apply (URN_deterministic_on_flat_template (resource podFields podFieldList)
           podTemplate _ _ podTokens).
  - reflexivity.
  - reflexivity.
  - exact podFields_plain.
  - eexists. split; [|reflexivity].
    apply iteration_order_of; [|vm_compute; reflexivity].
    apply (bool_decide_unpack _). vm_compute. reflexivity.
  - eexists. split; [|reflexivity].
    apply iteration_order_of; [|vm_compute; reflexivity].
    apply (bool_decide_unpack _). vm_compute. reflexivity.
Defined.

(** C10, as stated, fails: with the value of [namespace] holding the
    placeholder of [name], two iteration orders of the same fields give two
    different strings. *)
Lemma URN_order_dependence_counterexample :
  URN (resource wildcardFields EmptyString) wildcardTemplate
      "urn:ccrn:t.g/v1/*/<name>"
  /\ URN (resource wildcardFields EmptyString) wildcardTemplate
         "urn:ccrn:t.g/v1/<name>/*"
  /\ "urn:ccrn:t.g/v1/*/<name>" <> "urn:ccrn:t.g/v1/<name>/*".
Proof.
  split; [|split].
  - exists namespaceFirst. split; [|vm_compute; reflexivity].
    apply iteration_order_of; [|vm_compute; reflexivity].
    apply (bool_decide_unpack _). vm_compute. reflexivity.
  - exists namespaceLast. split; [|vm_compute; reflexivity].
    apply iteration_order_of; [|vm_compute; reflexivity].
    apply (bool_decide_unpack _). vm_compute. reflexivity.
  - discriminate.
Qed.

(** C1 (round trip), evaluated at a field list with the template
    [urn:ccrn:<ccrn>/<cluster>/<name>]: the field list parses, every
    rendering of its fields is [urn:ccrn:t.g/v1/eu-de-1/my-pod], and parsing
    that URN with the same template returns the segment-count error instead
    of the fields. *)
Theorem round_trip_fails_on_pod_example :
  parseCCRNFields podFieldList = Ok podFields
  /\ forall out,
       URN (resource podFields podFieldList) podTemplate out ->
       out = podURN
       /\ parseURNFields out podTemplate = Err (ErrSegmentCount podTemplate out).
Proof.
  split; [exact podFields_parsed|].
  intros out Hout.
  assert (out = podURN) as ->.
  { rewrite (URN_visiting_flat_any (resource podFields podFieldList)
               podTemplate out podTokens); auto using podFields_plain. }
  split; [reflexivity|]. vm_compute. reflexivity.
Qed.

(** ** The statements about the parsers *)

Lemma parseURNFields_has_ccrn (urn urnTemplate : string)
    (fields : gmap string string) :
  parseURNFields urn urnTemplate = Ok fields -> is_Some (fields !! "ccrn").
Proof.
  unfold parseURNFields.
  destruct (negb (HasPrefix urn "urn:ccrn:")); [discriminate|].
  destruct (negb (HasPrefix urnTemplate "urn:ccrn:")); [discriminate|].
  intros H. apply result_bind_Ok in H as (parts & _ & H).
  destruct (length parts <? _)%nat; [discriminate|].
  apply result_bind_Ok in H as (m & _ & H).
  destruct (m !! "ccrn") eqn:Hm; [|discriminate].
  injection H as <-. eauto.
Qed.

(** The key the bootstrap parse returns holds a slash, so it is never
    empty. *)
Lemma parseURNCCRNField_nonempty (urn key : string) :
  parseURNCCRNField urn = Ok key -> key <> EmptyString.
Proof.
  unfold parseURNCCRNField.
  destruct (length _ <? 3)%nat; [discriminate|].
  intros H. apply result_bind_Ok in H as (p0 & _ & H).
  apply result_bind_Ok in H as (p1 & _ & H).
  injection H as <-. destruct p0; discriminate.
Qed.

(** No URN goes through [Parse]: the bootstrap branch ends in the template
    branch, and the template branch in [parseURNFields]. *)
Lemma Parse_URN_never_Ok (GetURNTemplate : string -> string -> string + string)
    (fuel : nat) (input urnTemplate : string) (p : ParsedResource) :
  HasPrefix input "ccrn=" = false ->
  Parse GetURNTemplate fuel input urnTemplate <> Some (Ok p).
Proof.
  intros Hccrn. revert urnTemplate.
  induction fuel as [|fuel IH]; intros urnTemplate; simpl; rewrite Hccrn;
    (destruct (HasPrefix input "urn:ccrn:"); [|discriminate]);
    (destruct (_ || _);
     [ destruct (parseURNCCRNField input); try discriminate;
       destruct (GetURNTemplate _ _); try discriminate; auto
     | destruct (negb _); [discriminate|];
       destruct (parseURNFields input urnTemplate) eqn:H; try discriminate;
       exfalso; eapply parseURNFields_never_Ok; eauto ]).
Qed.

(** C2 (URN parse correctness), evaluated at an input that matches its
    template segment by segment: the parse returns the segment-count
    error. *)
Theorem URN_parse_rejects_matching_input :
  parseURNFields podURN podTemplate = Err (ErrSegmentCount podTemplate podURN).
Proof. vm_compute. reflexivity. Qed.

(** C3, as stated, fails: the field list [ccrn=] parses, and the value
    under [ccrn] is the empty string. *)
Lemma empty_ccrn_counterexample :
  exists fields,
    parseCCRNFields "ccrn=" = Ok fields /\ fields !! "ccrn" = Some EmptyString.
Proof. eexists. split; vm_compute; reflexivity. Qed.

(** C3 (the [ccrn] field of a parsed result), as amended.  The field
    mapping of every successful parse, of a field list or of a URN with a
    template, has an entry under [ccrn]. *)
Theorem parsed_fields_have_ccrn_entry
    (input urnTemplate : string) (fields : gmap string string) :
  parseCCRNFields input = Ok fields
  \/ parseURNFields input urnTemplate = Ok fields ->
  is_Some (fields !! "ccrn").
Proof.
  intros [H|H]; [eapply parseCCRNFields_has_ccrn|eapply parseURNFields_has_ccrn];
    exact H.
Qed.

Lemma parsed_fields_have_ccrn_entry_witness : is_Some (podFields !! "ccrn").
Proof.
  apply (parsed_fields_have_ccrn_entry podFieldList podTemplate podFields).
  left. vm_compute. reflexivity.
Defined.

(** C4 (too few segments), evaluated at a URN whose body has no slash: the
    call panics on [tmpParts[1]] before the segment count is compared. *)
Theorem URN_parse_panics_on_single_segment :
  parseURNFields "urn:ccrn:foo" "urn:ccrn:<ccrn>/<name>"
  = Panic (IndexOutOfRange 1 1).
Proof. vm_compute. reflexivity. Qed.

(** The example of the specification, whose body has slashes, does get the
    segment-count error. *)
Lemma URN_parse_short_input :
  parseURNFields "urn:ccrn:t.g/v1/eu-de-1" podTemplate
  = Err (ErrSegmentCount podTemplate "urn:ccrn:t.g/v1/eu-de-1").
Proof. vm_compute. reflexivity. Qed.

(** The template parse rebuilds the same key in [parts[0]] whenever the
    template has at least three segments. *)
Lemma rebuildParts_type_key (A B rest : string) (n : nat) (parts : list string) :
  free_of "/" A = true -> free_of "/" B = true ->
  rebuildParts (SplitN (A +:+ String "/" (B +:+ String "/" rest)) "/" (S (S (S n))))
  = Ok parts ->
  parts !! 0 = Some (A +:+ "/" +:+ B).
Proof.
  intros HA HB.
  rewrite SplitN_step, Cut_byte_free by exact HA.
  rewrite SplitN_step, Cut_byte_free by exact HB.
  apply rebuildParts_head.
Qed.

(** ** The type key in a parse with a template *)

Section TypeKey.

(** A segment between angle brackets whose name is [ccrn] is [<ccrn>]. *)
Lemma placeholder_ccrn (t : string) :
  HasPrefix t "<" = true -> HasSuffix t ">" = true ->
  placeholderName t = Ok "ccrn" -> t = "<ccrn>".
Proof.
  unfold HasPrefix, HasSuffix, placeholderName. intros Hp Hs Hname.
  destruct t as [|c0 [|c1 [|c2 [|c3 [|c4 [|c5 [|c6 t]]]]]]];
    cbn in Hname; try discriminate.
  injection Hname as H1 H2 H3 H4. subst c1 c2 c3 c4.
  apply prefix_cons in Hp as [Hc0 _]. subst c0.
  cbn in Hs. destruct (Ascii.eqb_spec c5 ">") as [Hc5|]; [|discriminate].
  subst c5. reflexivity.
Qed.

(** The loop binds [ccrn] only at a segment [<ccrn>]. *)
Lemma matchTemplate_keeps_ccrn (templateParts parts : list string) :
  Forall (fun t => t <> "<ccrn>") templateParts ->
  forall (i : nat) (fields fields' : gmap string string),
    matchTemplate i templateParts parts fields = Ok fields' ->
    fields' !! "ccrn" = fields !! "ccrn".
Proof.
  induction 1 as [|t rest Ht _ IH]; intros i fields fields' H.
  - injection H as <-. reflexivity.
  - cbn [matchTemplate] in H.
    destruct (HasPrefix t "<" && HasSuffix t ">") eqn:Hbrackets.
    + apply andb_true_iff in Hbrackets as [Hp Hs].
      apply result_bind_Ok in H as (key & Hkey & H).
      apply result_bind_Ok in H as (p & _ & H).
      apply IH in H. rewrite H. apply lookup_insert_ne.
      intros ->. apply Ht, placeholder_ccrn; assumption.
    + destruct (String.eqb t "<ccrn>") eqn:Heq.
      * apply String.eqb_eq in Heq. contradiction.
      * apply result_bind_Ok in H as (p & _ & H).
        destruct (negb (String.eqb t p)); [discriminate|].
        apply IH in H. exact H.
Qed.

(** With [<ccrn>] as its first segment and nowhere else, the loop binds
    [ccrn] to the first part. *)
Lemma matchTemplate_ccrn_first (templateRest parts : list string)
    (fields : gmap string string) :
  Forall (fun t => t <> "<ccrn>") templateRest ->
  matchTemplate 0 ("<ccrn>" :: templateRest) parts ∅ = Ok fields ->
  fields !! "ccrn" = parts !! 0.
Proof.
  intros Hrest H. cbn [matchTemplate] in H.
  change (HasPrefix "<ccrn>" "<" && HasSuffix "<ccrn>" ">") with true in H.
  cbv iota in H. change (placeholderName "<ccrn>") with (Ok (A:=string) "ccrn") in H.
  cbn [mbind result_bind] in H.
  apply result_bind_Ok in H as (p & Hp & H).
  apply (matchTemplate_keeps_ccrn _ _ Hrest) in H.
  rewrite H, lookup_insert_eq.
  unfold elemAt in Hp. destruct (parts !! 0); [|discriminate].
  injection Hp as ->. reflexivity.
Qed.


End TypeKey.



(** ** Loading a batch of documents *)

Section LoadingFacts.

Context {JSONSchemaProps SchemaValidator : Type}.
Context (NewSchemaValidator : JSONSchemaProps -> option SchemaValidator).
Context (Glob : string -> option (list string)).
Context (ReadFile : string -> option string).
Context (ScanLines : string -> list string * bool).
Context (Unmarshal : string -> option (CustomResourceDefinition JSONSchemaProps)).
Context (ToLower : string -> string).

Local Abbreviation Backend := (FilesystemBackend JSONSchemaProps SchemaValidator).
Local Abbreviation accounted r := (ProcessedCRDs r + SkippedCRDs r + ErrorCount r).
Local Abbreviation nonEmpty := (fun d => negb (isEmptyDocument d)).

(** A document that is rejected or skipped leaves the backend as it
    was. *)
Lemma processSingleDocument_unchanged (document : string) (fb fb' : Backend)
    (o : documentOutcome JSONSchemaProps) :
  processSingleDocument NewSchemaValidator Unmarshal ToLower document fb = (fb', o) ->
  (exists e, o = DocumentError e) \/ o = DocumentSkipped ->
  fb' = fb.
Proof.
  unfold processSingleDocument.
  destruct (Unmarshal document) as [crd|]; [|intros [= <- _]; reflexivity].
  destruct (validateCRDStructure crd); [intros [= <- _]; reflexivity|].
  destruct (negb (isCCRNRelevant fb crd)); [intros [= <- _]; reflexivity|].
  destruct (storeCRD NewSchemaValidator ToLower crd fb) as [fb1 [p|]];
    intros [= <- <-] [[e He]|He]; discriminate.
Qed.

(** The loop over the documents of a file: every non-empty document is
    counted once, as loaded, skipped or failed, and a failed document does
    not end the loop. *)
Lemma processDocuments_account (filePath : string) (documents : list string) :
  forall (i : nat) (fb : Backend) (result : CRDLoadingResult)
         (loadedCRDs : list (CustomResourceDefinition JSONSchemaProps))
         fb' result' loadedCRDs',
    processDocuments NewSchemaValidator Unmarshal ToLower filePath i documents fb
      result loadedCRDs = (fb', result', loadedCRDs', None) ->
    accounted result'
    = accounted result + length (List.filter nonEmpty documents)
    /\ ProcessedFiles result' = ProcessedFiles result
    /\ (length (Errors result) = ErrorCount result ->
        length (Errors result') = ErrorCount result')
    /\ ProcessedCRDs result <= ProcessedCRDs result'
    /\ length loadedCRDs'
       = length loadedCRDs + (ProcessedCRDs result' - ProcessedCRDs result)
    /\ (ProcessedCRDs result' = ProcessedCRDs result -> fb' = fb).
Proof.
  induction documents as [|document rest IH];
    intros i fb result loadedCRDs fb' result' loadedCRDs'.
  - cbn [processDocuments]. intros [= <- <- <-]. cbn [List.filter length].
    repeat split; auto; lia.
  - cbn [processDocuments List.filter].
    destruct (isEmptyDocument document); cbn [negb]; [apply IH|].
    destruct (processSingleDocument NewSchemaValidator Unmarshal ToLower document fb)
      as [fb1 o] eqn:Hdoc.
    destruct o as [e| |crd|p]; [| | |discriminate]; intros H;
      apply IH in H; cbn [length] in *;
      destruct H as (Hacc & Hfiles & Herr & Hmono & Hlen & Hsame);
      cbn [recordError countSkipped countLoaded ProcessedFiles ProcessedCRDs
           SkippedCRDs ErrorCount Errors] in *.
    + apply processSingleDocument_unchanged in Hdoc; [subst fb1|eauto].
      repeat split; auto; try lia.
      intros Hlen0. apply Herr. rewrite length_app. cbn [length]. lia.
    + apply processSingleDocument_unchanged in Hdoc; [subst fb1|eauto].
      repeat split; auto; lia.
    + rewrite length_app in Hlen. cbn [length] in Hlen.
      repeat split; auto; lia.
Qed.

Lemma processFile_account (filePath : string) (fb fb' : Backend)
    (result result' : CRDLoadingResult) :
  processFile NewSchemaValidator ReadFile ScanLines Unmarshal ToLower filePath fb result
  = (fb', result', None) ->
  accounted result' = accounted result + entriesOfFile ReadFile ScanLines filePath
  /\ ProcessedFiles result' = S (ProcessedFiles result)
  /\ (length (Errors result) = ErrorCount result ->
      length (Errors result') = ErrorCount result')
  /\ ProcessedCRDs result <= ProcessedCRDs result'
  /\ (ProcessedCRDs result' = ProcessedCRDs result -> fb' = fb).
Proof.
  unfold processFile, entriesOfFile.
  destruct (ReadFile filePath) as [fileContent|].
  2:{ intros [= <- <-]. cbn. rewrite length_app. cbn [length].
      repeat split; auto; lia. }
  destruct (splitYAMLDocuments ScanLines fileContent) as [documents|].
  2:{ intros [= <- <-]. cbn. rewrite length_app. cbn [length].
      repeat split; auto; lia. }
  destruct (processDocuments _ _ _ _ _ _ _ _ _) as [[[fb1 result1] loaded] [p|]]
    eqn:Hdocs; [discriminate|].
  apply processDocuments_account in Hdocs.
  cbn [countFile ProcessedFiles ProcessedCRDs SkippedCRDs ErrorCount Errors length]
    in Hdocs.
  destruct Hdocs as (Hacc & Hfiles & Herr & Hmono & Hlen & Hsame).
  destruct (0 <? length loaded)%nat eqn:Hloaded; intros [= <- <-].
  - apply Nat.ltb_lt in Hloaded. repeat split; auto; try lia.
  - repeat split; auto; lia.
Qed.

Lemma processFiles_account (matchedFiles : list string) :
  forall (fb fb' : Backend) (result result' : CRDLoadingResult),
    processFiles NewSchemaValidator ReadFile ScanLines Unmarshal ToLower matchedFiles
      fb result = (fb', result', None) ->
    accounted result'
    = accounted result + entriesOfBatch ReadFile ScanLines ToLower matchedFiles
    /\ (length (Errors result) = ErrorCount result ->
        length (Errors result') = ErrorCount result')
    /\ ProcessedCRDs result <= ProcessedCRDs result'
    /\ (ProcessedCRDs result' = ProcessedCRDs result -> fb' = fb).
Proof.
  unfold entriesOfBatch.
  induction matchedFiles as [|filePath rest IH]; intros fb fb' result result'.
  - cbn. intros [= <- <-]. repeat split; auto; lia.
  - cbn [processFiles List.filter].
    destruct (isYAMLFile ToLower filePath); [|apply IH].
    destruct (processFile _ _ _ _ _ _ _ _) as [[fb1 result1] [p|]] eqn:Hfile;
      [discriminate|].
    apply processFile_account in Hfile.
    destruct Hfile as (Hacc & _ & Herr & Hmono & Hsame).
    intros H. apply IH in H. destruct H as (Hacc' & Herr' & Hmono' & Hsame').
    cbn [List.map]. unfold list_sum in *. cbn [fold_right]. split; [lia|]. split; [auto|]. split; [lia|].
    intros Heq. rewrite Hsame', Hsame by lia. reflexivity.
Qed.

(** What [LoadCRDs] has done when it returns.  It returns an error,
    before reading anything, when the pattern is malformed or matches no
    file.  Otherwise it returns an error exactly when no definition was
    loaded and at least one error was recorded, and then the descriptor
    and validator maps are as they were.  Every non-empty document of
    every readable YAML file is counted once, as loaded, skipped or
    failed. *)
Lemma LoadCRDs_outcome_of_return (pattern : string) (fb fb' : Backend)
    (err : option backendError) (summary : option CRDLoadingResult) :
  LoadCRDs_result NewSchemaValidator Glob ReadFile ScanLines Unmarshal ToLower pattern fb
  = (fb', Returns err, summary) ->
  match Glob pattern with
  | None => err = Some (BadPattern pattern) /\ summary = None /\ fb' = fb
  | Some [] => err = Some (NoFilesFound pattern) /\ summary = None /\ fb' = fb
  | Some matchedFiles =>
      exists result,
        summary = Some result
        /\ (err = None <-> 0 < ProcessedCRDs result \/ Errors result = [])
        /\ (forall e, err = Some e ->
                      e = FailedToLoadAny (Errors result)
                      /\ crds fb' = crds fb /\ validators fb' = validators fb)
        /\ length (Errors result) = ErrorCount result
        /\ ProcessedCRDs result + SkippedCRDs result + ErrorCount result
           = entriesOfBatch ReadFile ScanLines ToLower matchedFiles
  end.
Proof.
  unfold LoadCRDs_result.
  destruct (Glob pattern) as [[|filePath rest]|].
  - intros [= <- <- <-]. auto.
  - cbn [length Nat.eqb].
    destruct (processFiles _ _ _ _ _ _ _ _) as [[fb1 result] [p|]] eqn:Hfiles;
      [discriminate|].
    apply processFiles_account in Hfiles.
    cbn [emptyResult ProcessedCRDs SkippedCRDs ErrorCount Errors length] in Hfiles.
    destruct Hfiles as (Hacc & Herr & _ & Hsame).
    specialize (Herr eq_refl).
    destruct (ProcessedCRDs result =? 0)%nat eqn:Hzero;
      [apply Nat.eqb_eq in Hzero|apply Nat.eqb_neq in Hzero].
    + destruct (0 <? length (Errors result))%nat eqn:Hsome;
        [apply Nat.ltb_lt in Hsome|apply Nat.ltb_ge in Hsome];
        cbn [andb]; intros [= <- <- <-]; exists result.
      * split; [reflexivity|]. split.
        { split; [discriminate|].
          intros [H|H]; [lia|]. rewrite H in Hsome. cbn in Hsome. lia. }
        split; [|split; [exact Herr|lia]].
        intros e [= <-]. rewrite (Hsame Hzero). auto.
      * split; [reflexivity|]. split.
        { split; [|reflexivity]. intros _. right.
          destruct (Errors result); [reflexivity|cbn in Hsome; lia]. }
        split; [discriminate|]. split; [exact Herr|lia].
    + cbn [andb]. intros [= <- <- <-]. exists result.
      split; [reflexivity|]. split.
      { split; [|reflexivity]. intros _. left. lia. }
      split; [discriminate|]. split; [exact Herr|lia].
  - intros [= <- <- <-]. auto.
Qed.

End LoadingFacts.

(** The scenario of the specification: a directory with one type
    definition and one malformed document loads, with one definition
    loaded and one error recorded. *)
Lemma bulk_load_partial_success :
  exists fb result,
    exampleLoad oneVersion "crds/*.yaml" newBackend = (fb, Returns None, Some result)
    /\ ProcessedCRDs result = 1
    /\ Errors result = [DocumentFailed "crds/bad.yaml" 0 ParseYAMLFailed].
Proof. do 2 eexists. split; [vm_compute; reflexivity|]. split; reflexivity. Qed.

(** ** A batch without a nil [schema] is loaded to the end *)

Section LoadingReturns.

Context {JSONSchemaProps SchemaValidator : Type}.
Context (NewSchemaValidator : JSONSchemaProps -> option SchemaValidator).
Context (Glob : string -> option (list string)).
Context (ReadFile : string -> option string).
Context (ScanLines : string -> list string * bool).
Context (Unmarshal : string -> option (CustomResourceDefinition JSONSchemaProps)).
Context (ToLower : string -> string).

Local Abbreviation Backend := (FilesystemBackend JSONSchemaProps SchemaValidator).
Local Abbreviation withSchemas :=
  (Forall (fun version : CustomResourceDefinitionVersion JSONSchemaProps =>
             vServed version = true -> vSchema version <> None)).
Local Abbreviation decodesWithSchemas :=
  (fun document : string =>
     forall crd, Unmarshal document = Some crd -> withSchemas (specVersions crd)).

Lemma storeVersions_returns (crd : CustomResourceDefinition JSONSchemaProps)
    (versions : list (CustomResourceDefinitionVersion JSONSchemaProps))
    (fb : Backend) :
  withSchemas versions ->
  (storeVersions NewSchemaValidator ToLower crd versions fb).2 = None.
Proof.
  intros H. revert fb. induction H as [|version rest Hv _ IH]; intros fb.
  - reflexivity.
  - cbn [storeVersions]. destruct (vServed version); cbn [negb]; [|apply IH].
    destruct (vSchema version) as [schema|]; [apply IH|].
    exfalso. apply Hv; reflexivity.
Qed.

Lemma processSingleDocument_returns (document : string) (fb : Backend) :
  decodesWithSchemas document ->
  forall p,
    (processSingleDocument NewSchemaValidator Unmarshal ToLower document fb).2
    <> DocumentPanic p.
Proof.
  intros H p. unfold processSingleDocument.
  destruct (Unmarshal document) as [crd|] eqn:Hcrd; [|discriminate].
  destruct (validateCRDStructure crd); [discriminate|].
  destruct (negb (isCCRNRelevant fb crd)); [discriminate|].
  unfold storeCRD.
  pose proof (storeVersions_returns crd (specVersions crd) fb (H crd Hcrd))
    as Hstore.
  destruct (storeVersions _ _ _ _ _) as [fb1 o]. cbn [snd] in Hstore. subst o.
  discriminate.
Qed.

Lemma processDocuments_returns (filePath : string) (documents : list string) :
  forall (i : nat) (fb : Backend) (result : CRDLoadingResult)
         (loadedCRDs : list (CustomResourceDefinition JSONSchemaProps)),
    Forall decodesWithSchemas
      (List.filter (fun d => negb (isEmptyDocument d)) documents) ->
    (processDocuments NewSchemaValidator Unmarshal ToLower filePath i documents
       fb result loadedCRDs).2 = None.
Proof.
  induction documents as [|document rest IH]; intros i fb result loadedCRDs H.
  - reflexivity.
  - cbn [processDocuments List.filter] in *.
    destruct (isEmptyDocument document); cbn [negb] in H; [apply IH, H|].
    apply Forall_cons in H as [Hd Hrest].
    pose proof (processSingleDocument_returns document fb Hd) as Hp.
    destruct (processSingleDocument _ _ _ _ _) as [fb1 [e| |crd|p]];
      try (apply IH, Hrest).
    exfalso. apply (Hp p). reflexivity.
Qed.

Lemma processFile_returns (filePath : string) (fb : Backend)
    (result : CRDLoadingResult) :
  Forall decodesWithSchemas (documentsOfFile ReadFile ScanLines filePath) ->
  (processFile NewSchemaValidator ReadFile ScanLines Unmarshal ToLower filePath
     fb result).2 = None.
Proof.
  unfold processFile, documentsOfFile. intros H.
  destruct (ReadFile filePath) as [fileContent|]; [|reflexivity].
  destruct (splitYAMLDocuments ScanLines fileContent) as [documents|];
    [|reflexivity].
  pose proof (processDocuments_returns filePath documents 0 fb
                (countFile result) [] H) as Hd.
  destruct (processDocuments _ _ _ _ _ _ _ _ _) as [[[fb1 r1] l1] o].
  cbn [snd] in Hd. subst o.
  destruct (0 <? length l1)%nat; reflexivity.
Qed.

Lemma processFiles_returns (matchedFiles : list string) :
  forall (fb : Backend) (result : CRDLoadingResult),
    schemas_present ReadFile ScanLines Unmarshal ToLower matchedFiles ->
    (processFiles NewSchemaValidator ReadFile ScanLines Unmarshal ToLower
       matchedFiles fb result).2 = None.
Proof.
  unfold schemas_present, documentsOfBatch.
  induction matchedFiles as [|filePath rest IH]; intros fb result H.
  - reflexivity.
  - cbn [processFiles List.filter] in *.
    destruct (isYAMLFile ToLower filePath); [|apply IH, H].
    cbn [flat_map] in H.
    assert (Hfile : Forall decodesWithSchemas
                      (documentsOfFile ReadFile ScanLines filePath)).
    { apply Forall_forall. intros document Hin crd Hcrd.
      apply (H document crd); [|exact Hcrd].
      apply in_or_app. left. apply list_elem_of_In, Hin. }
    pose proof (processFile_returns filePath fb result Hfile) as Hf.
    destruct (processFile _ _ _ _ _ _ _ _) as [[fb1 r1] o].
    cbn [snd] in Hf. subst o. apply IH.
    intros document crd Hin. apply H. apply in_or_app. right. exact Hin.
Qed.


End LoadingReturns.

Lemma example_schemas_present :
  forall matchedFiles,
    exampleGlob "crds/*.yaml" = Some matchedFiles ->
    schemas_present exampleReadFile exampleScanLines (decodePod oneVersion)
      ToLowerASCII matchedFiles.
Proof.
  intros matchedFiles _ document crd _. unfold decodePod.
  destruct (String.eqb document "pod"); [|discriminate].
  intros [= <-]. repeat constructor. discriminate.
Qed.


(** What the proviso leaves out: when the definition has a second served
    version without [schema], the same call panics in [storeCRD]. *)
Lemma LoadCRDs_nil_schema_panics :
  (exampleLoad nilSchemaVersions "crds/*.yaml" newBackend).1.2
  = Panics NilDereference.
Proof. vm_compute. reflexivity. Qed.


(** ** The states of the index that a reader can find *)

Section RefreshFacts.

Context {JSONSchemaProps SchemaValidator : Type}.
Context (NewSchemaValidator : JSONSchemaProps -> option SchemaValidator).
Context (Glob : string -> option (list string)).
Context (ReadFile : string -> option string).
Context (ScanLines : string -> list string * bool).
Context (Unmarshal : string -> option (CustomResourceDefinition JSONSchemaProps)).
Context (ToLower : string -> string).

Local Abbreviation Backend := (FilesystemBackend JSONSchemaProps SchemaValidator).

Lemma storeVersions_released (crd : CustomResourceDefinition JSONSchemaProps)
    (versions : list (CustomResourceDefinitionVersion JSONSchemaProps))
    (fb : Backend) :
  released (storeVersions NewSchemaValidator ToLower crd versions fb).1 = released fb.
Proof.
  revert fb. induction versions as [|version rest IH]; intros fb;
    [reflexivity|].
  cbn [storeVersions]. destruct (negb (vServed version)); [apply IH|].
  destruct (vSchema version) as [schema|] eqn:Hschema; [|reflexivity].
  rewrite IH. unfold createSchemaValidator. rewrite Hschema.
  destruct schema as [schema|]; [|reflexivity].
  destruct (NewSchemaValidator schema); reflexivity.
Qed.

(** A property of the descriptor map and the validator map that the
    empty index has and that storing a decoded definition keeps is found
    in every state released during a load or a refresh. *)
Section Invariant.

Variable I : gmap string (CRDInfo JSONSchemaProps) ->
             gmap string SchemaValidator -> Prop.
Variable good : CustomResourceDefinition JSONSchemaProps -> Prop.

Hypothesis I_store :
  forall crd (fb : Backend),
    good crd -> I (crds fb) (validators fb) ->
    I (crds (storeVersions NewSchemaValidator ToLower crd (specVersions crd) fb).1)
      (validators (storeVersions NewSchemaValidator ToLower crd (specVersions crd) fb).1).
Hypothesis good_decoded :
  forall document crd, Unmarshal document = Some crd -> good crd.

Local Abbreviation holds fb := (I (crds fb) (validators fb)).
Local Abbreviation seen fb fb' :=
  (exists news,
      released fb' = released fb ++ news
      /\ Forall (fun s => I (sCrds s) (sValidators s)) news).

Lemma seen_refl (fb : Backend) : seen fb fb.
Proof. exists []. split; [symmetry; apply app_nil_r|constructor]. Qed.

Lemma seen_trans (fb1 fb2 fb3 : Backend) :
  seen fb1 fb2 -> seen fb2 fb3 -> seen fb1 fb3.
Proof.
  intros (n1 & H1 & F1) (n2 & H2 & F2). exists (n1 ++ n2). split.
  - rewrite H2, H1, app_assoc. reflexivity.
  - apply Forall_app. auto.
Qed.

Lemma storeCRD_inv (crd : CustomResourceDefinition JSONSchemaProps)
    (fb fb' : Backend) (p : option panic) :
  good crd -> holds fb ->
  storeCRD NewSchemaValidator ToLower crd fb = (fb', p) ->
  holds fb' /\ seen fb fb'.
Proof.
  intros Hgood Hfb. unfold storeCRD.
  pose proof (I_store crd fb Hgood Hfb) as Hstore.
  pose proof (storeVersions_released crd (specVersions crd) fb) as Hrel.
  destruct (storeVersions NewSchemaValidator ToLower crd (specVersions crd) fb)
    as [fb1 p1].
  cbn [fst] in *. intros [= <- <-]. split; [exact Hstore|].
  exists [snapshot fb1]. cbn [Unlock released]. rewrite Hrel.
  split; [reflexivity|]. constructor; [exact Hstore|constructor].
Qed.

Lemma processSingleDocument_inv (document : string) (fb fb' : Backend)
    (o : documentOutcome JSONSchemaProps) :
  holds fb ->
  processSingleDocument NewSchemaValidator Unmarshal ToLower document fb = (fb', o) ->
  holds fb' /\ seen fb fb'.
Proof.
  intros Hfb. unfold processSingleDocument.
  destruct (Unmarshal document) as [crd|] eqn:Hcrd;
    [|intros [= <- _]; auto using seen_refl].
  destruct (validateCRDStructure crd); [intros [= <- _]; auto using seen_refl|].
  destruct (negb (isCCRNRelevant fb crd));
    [intros [= <- _]; auto using seen_refl|].
  destruct (storeCRD NewSchemaValidator ToLower crd fb) as [fb1 p] eqn:Hstore.
  apply storeCRD_inv in Hstore; [|eauto|exact Hfb].
  destruct p; intros [= <- _]; exact Hstore.
Qed.

Lemma processDocuments_inv (filePath : string) (documents : list string) :
  forall (i : nat) (fb : Backend) result loadedCRDs fb' result' loadedCRDs' p,
    holds fb ->
    processDocuments NewSchemaValidator Unmarshal ToLower filePath i documents fb
      result loadedCRDs = (fb', result', loadedCRDs', p) ->
    holds fb' /\ seen fb fb'.
Proof.
  induction documents as [|document rest IH];
    intros i fb result loadedCRDs fb' result' loadedCRDs' p Hfb.
  - cbn [processDocuments]. intros [= <- _ _ _]. auto using seen_refl.
  - cbn [processDocuments].
    destruct (isEmptyDocument document); [apply IH, Hfb|].
    destruct (processSingleDocument NewSchemaValidator Unmarshal ToLower document fb)
      as [fb1 o] eqn:Hdoc.
    apply processSingleDocument_inv in Hdoc; [|exact Hfb].
    destruct Hdoc as [Hfb1 Hseen].
    destruct o as [e| |crd|q].
    + intros H. apply IH in H; [|exact Hfb1].
      destruct H. eauto using seen_trans.
    + intros H. apply IH in H; [|exact Hfb1].
      destruct H. eauto using seen_trans.
    + intros H. apply IH in H; [|exact Hfb1].
      destruct H. eauto using seen_trans.
    + intros [= <- _ _ _]. auto.
Qed.

Lemma processFile_inv (filePath : string) (fb fb' : Backend)
    (result result' : CRDLoadingResult) (p : option panic) :
  holds fb ->
  processFile NewSchemaValidator ReadFile ScanLines Unmarshal ToLower filePath fb result
  = (fb', result', p) ->
  holds fb' /\ seen fb fb'.
Proof.
  intros Hfb. unfold processFile.
  destruct (ReadFile filePath) as [fileContent|];
    [|intros [= <- _ _]; auto using seen_refl].
  destruct (splitYAMLDocuments ScanLines fileContent) as [documents|];
    [|intros [= <- _ _]; auto using seen_refl].
  destruct (processDocuments _ _ _ _ _ _ _ _ _) as [[[fb1 result1] loaded] q]
    eqn:Hdocs.
  apply processDocuments_inv in Hdocs; [|exact Hfb].
  destruct Hdocs as [Hfb1 Hseen].
  destruct q; [intros [= <- _ _]; auto|].
  destruct (0 <? length loaded)%nat; intros [= <- _]; [|auto].
  split; [exact Hfb1|]. eapply seen_trans; [exact Hseen|].
  eexists [_]. cbn [Unlock released setCrdsByFile]. split; [reflexivity|].
  constructor; [exact Hfb1|constructor].
Qed.

Lemma processFiles_inv (matchedFiles : list string) :
  forall (fb fb' : Backend) (result result' : CRDLoadingResult) p,
    holds fb ->
    processFiles NewSchemaValidator ReadFile ScanLines Unmarshal ToLower matchedFiles
      fb result = (fb', result', p) ->
    holds fb' /\ seen fb fb'.
Proof.
  induction matchedFiles as [|filePath rest IH];
    intros fb fb' result result' p Hfb.
  - cbn [processFiles]. intros [= <- _ _]. auto using seen_refl.
  - cbn [processFiles]. destruct (isYAMLFile ToLower filePath); [|apply IH, Hfb].
    destruct (processFile _ _ _ _ _ _ _ _) as [[fb1 result1] q] eqn:Hfile.
    apply processFile_inv in Hfile; [|exact Hfb].
    destruct Hfile as [Hfb1 Hseen].
    destruct q; [intros [= <- _ _]; auto|].
    intros H. apply IH in H; [|exact Hfb1].
    destruct H. eauto using seen_trans.
Qed.

Lemma LoadCRDs_inv (pattern : string) (fb fb' : Backend)
    (out : outcome backendError) :
  holds fb ->
  LoadCRDs NewSchemaValidator Glob ReadFile ScanLines Unmarshal ToLower pattern fb
  = (fb', out) ->
  holds fb' /\ seen fb fb'.
Proof.
  intros Hfb. unfold LoadCRDs, LoadCRDs_result.
  destruct (Glob pattern) as [matchedFiles|];
    [|intros [= <- _]; auto using seen_refl].
  destruct (length matchedFiles =? 0)%nat;
    [intros [= <- _]; auto using seen_refl|].
  destruct (processFiles _ _ _ _ _ _ _ _) as [[fb1 result] q] eqn:Hfiles.
  apply processFiles_inv in Hfiles; [|exact Hfb].
  destruct q; [intros [= <- _]; exact Hfiles|].
  destruct (_ && _); intros [= <- _]; exact Hfiles.
Qed.

Lemma reloadPaths_inv (paths : list string) :
  forall (fb fb' : Backend) allErrors allErrors' p,
    holds fb ->
    reloadPaths NewSchemaValidator Glob ReadFile ScanLines Unmarshal ToLower paths
      fb allErrors = (fb', allErrors', p) ->
    holds fb' /\ seen fb fb'.
Proof.
  induction paths as [|path rest IH]; intros fb fb' allErrors allErrors' p Hfb.
  - cbn [reloadPaths]. intros [= <- _ _]. auto using seen_refl.
  - cbn [reloadPaths].
    destruct (LoadCRDs _ _ _ _ _ _ _ _) as [fb1 out] eqn:Hload.
    apply LoadCRDs_inv in Hload; [|exact Hfb].
    destruct Hload as [Hfb1 Hseen].
    destruct out as [[err|]|q].
    + intros H. apply IH in H; [|exact Hfb1].
      destruct H. eauto using seen_trans.
    + intros H. apply IH in H; [|exact Hfb1].
      destruct H. eauto using seen_trans.
    + intros [= <- _ _]. auto.
Qed.

(** [Refresh] first releases the empty index, then the states of the
    reload. *)
Lemma Refresh_inv (fb fb' : Backend) (out : outcome refreshError) :
  I ∅ ∅ ->
  loadedPaths fb <> [] ->
  Refresh NewSchemaValidator Glob ReadFile ScanLines Unmarshal ToLower fb = (fb', out) ->
  exists later,
    released fb' = released fb ++ emptySnapshot :: later
    /\ Forall (fun s => I (sCrds s) (sValidators s)) later
    /\ holds fb'.
Proof.
  intros Hempty Hpaths. unfold Refresh.
  destruct (length (loadedPaths fb) =? 0)%nat eqn:Hlen.
  { apply Nat.eqb_eq in Hlen. destruct (loadedPaths fb); [congruence|].
    discriminate. }
  destruct (reloadPaths _ _ _ _ _ _ _ _ _) as [[fb1 allErrors] q] eqn:Hreload.
  apply reloadPaths_inv in Hreload; [|exact Hempty].
  destruct Hreload as (Hfb1 & later & Hrel & Hlater).
  cbn [Unlock clearState released setValidators setCrdsByFile setCrds snapshot
       crds crdsByFile validators] in Hrel.
  assert (Hgoal : released fb1 = released fb ++ emptySnapshot :: later).
  { rewrite Hrel, <- app_assoc. reflexivity. }
  destruct q; [intros [= <- _]; eauto|].
  destruct (0 <? length allErrors)%nat; intros [= <- _]; eauto.
Qed.

End Invariant.

Lemma lookup_insert_is_Some_same {A B : Type} (key k : string) (a : A) (b : B)
    (c : gmap string A) (v : gmap string B) :
  (is_Some (v !! k) -> is_Some (c !! k)) ->
  is_Some (<[key := b]> v !! k) -> is_Some (<[key := a]> c !! k).
Proof.
  intros H. destruct (decide (key = k)) as [->|Hne].
  - rewrite !lookup_insert_eq. eauto.
  - rewrite !lookup_insert_ne by exact Hne. exact H.
Qed.

(** Storing a definition never leaves a validator without its
    descriptor. *)
Lemma storeVersions_sub (crd : CustomResourceDefinition JSONSchemaProps)
    (versions : list (CustomResourceDefinitionVersion JSONSchemaProps)) :
  forall fb : Backend,
    (forall key, is_Some (validators fb !! key) -> is_Some (crds fb !! key)) ->
    forall key,
      is_Some (validators (storeVersions NewSchemaValidator ToLower crd versions fb).1
                 !! key) ->
      is_Some (crds (storeVersions NewSchemaValidator ToLower crd versions fb).1 !! key).
Proof.
  induction versions as [|version rest IH]; intros fb Hfb; [exact Hfb|].
  cbn [storeVersions]. destruct (negb (vServed version)); [apply IH, Hfb|].
  destruct (vSchema version) as [schema|] eqn:Hschema; [|exact Hfb].
  apply IH. intros key. unfold createSchemaValidator. rewrite Hschema.
  destruct schema as [schema|];
    [destruct (NewSchemaValidator schema) as [validator|]|];
    cbn [fst setValidators setCrds crds validators].
  - apply lookup_insert_is_Some_same, Hfb.
  - intros H. apply lookup_insert_is_Some. destruct (decide
      (getCRDKey ToLower (specGroup crd) (vName version) (namesKind crd) = key));
      auto.
  - intros H. apply lookup_insert_is_Some. destruct (decide
      (getCRDKey ToLower (specGroup crd) (vName version) (namesKind crd) = key));
      auto.
Qed.

(** When the validator of every served version can be built, storing a
    definition keeps the two maps on the same types. *)
Lemma storeVersions_agree (crd : CustomResourceDefinition JSONSchemaProps)
    (versions : list (CustomResourceDefinitionVersion JSONSchemaProps)) :
  forallb (fun version =>
             negb (vServed version) || buildable NewSchemaValidator version)
    versions = true ->
  forall fb : Backend,
    (forall key, is_Some (crds fb !! key) <-> is_Some (validators fb !! key)) ->
    forall key,
      is_Some (crds (storeVersions NewSchemaValidator ToLower crd versions fb).1 !! key)
      <-> is_Some (validators (storeVersions NewSchemaValidator ToLower crd versions fb).1
                     !! key).
Proof.
  induction versions as [|version rest IH]; intros Hall fb Hfb; [exact Hfb|].
  cbn [forallb] in Hall. apply andb_true_iff in Hall as [Hversion Hrest].
  cbn [storeVersions]. destruct (vServed version); cbn [negb orb] in *;
    [|apply IH; assumption].
  unfold buildable in Hversion.
  destruct (vSchema version) as [[schema|]|] eqn:Hschema; try discriminate.
  destruct (NewSchemaValidator schema) as [validator|] eqn:Hbuild;
    [|discriminate].
  apply IH; [exact Hrest|]. intros key.
  unfold createSchemaValidator. rewrite Hschema, Hbuild.
  cbn [fst setValidators setCrds crds validators].
  split; apply lookup_insert_is_Some_same, Hfb.
Qed.


End RefreshFacts.

Lemma oneVersion_always_builds :
  validators_always_build buildValidator (decodePod oneVersion).
Proof.
  intros document crd. unfold decodePod.
  destruct (String.eqb document "pod"); [|discriminate].
  intros [= <-]. reflexivity.
Qed.



(** * Further properties of the code *)

(** ** The field-list parser: blank and malformed entries *)

Section FieldListEdges.

(** The first occurrence of a one-byte separator, found. *)
Lemma Cut_byte_Some (c : ascii) (s a b : string) :
  Cut s (String c EmptyString) = Some (a, b) ->
  free_of c a = true /\ s = a +:+ String c b.
Proof.
  revert a b. induction s as [|d s IH]; intros a b; rewrite Cut_unfold.
  - simpl. discriminate.
  - rewrite prefix_byte. destruct (ascii_dec c d) as [<-|Hne].
    + intros [= <- <-]. split; reflexivity.
    + destruct (Cut s (String c EmptyString)) as [[a' b']|] eqn:Hcut;
        [|discriminate].
      intros [= <- <-]. destruct (IH _ _ eq_refl) as [Hfree ->].
      split; [|reflexivity]. simpl. rewrite Hfree, andb_true_r.
      apply negb_true_iff, Ascii.eqb_neq. congruence.
Qed.

(** Splitting at a one-byte separator distributes over an occurrence of
    the separator. *)
Lemma Split_app_sep (d : ascii) (a b : string) :
  Split (a +:+ String d b) (String d EmptyString)
  = Split a (String d EmptyString) ++ Split b (String d EmptyString).
Proof.
  induction a as [|c a IH].
  - simpl String.append. rewrite Split_sep_head.
    rewrite (Split_free d EmptyString) by reflexivity. reflexivity.
  - simpl String.append. destruct (ascii_dec c d) as [->|Hc].
    + rewrite !Split_sep_head, IH. reflexivity.
    + rewrite !(Split_other_head d c), IH by exact Hc.
      pose proof (Split_nonempty a (String d EmptyString)) as Hne.
      destruct (Split a (String d EmptyString)); [simpl in Hne; lia|reflexivity].
Qed.

Lemma TrimSpace_white (w : string) : white w -> TrimSpace w = EmptyString.
Proof. intros Hw. unfold TrimSpace. rewrite trimLeft_white by exact Hw. reflexivity. Qed.

Lemma free_of_TrimSpace (c : ascii) (s : string) :
  free_of c s = true -> free_of c (TrimSpace s) = true.
Proof.
  destruct (TrimSpace_spec s) as (wl & wr & _ & _ & Hs & _).
  intros H. rewrite Hs, !free_of_app in H.
  apply andb_true_iff in H as [_ H]. apply andb_true_iff in H as [H _].
  exact H.
Qed.

(** A blank entry is skipped by the loop. *)
Lemma parseEntries_blank (w : string) (rest : list string)
    (m : gmap string string) :
  white w -> parseEntries (w :: rest) m = parseEntries rest m.
Proof.
  intros Hw. cbn [parseEntries]. rewrite TrimSpace_white by exact Hw.
  reflexivity.
Qed.

(** An entry without [=] ends the loop with an error. *)
Lemma parseEntries_malformed (e : string) (rest : list string)
    (m : gmap string string) :
  free_of "=" e = true -> TrimSpace e <> EmptyString ->
  parseEntries (e :: rest) m = Err (ErrFieldFormat (TrimSpace e)).
Proof.
  intros He Hne. cbn [parseEntries].
  destruct (String.eqb_spec (TrimSpace e) EmptyString) as [Heq|_];
    [congruence|].
  rewrite SplitN_step, Cut_byte_none by (apply free_of_TrimSpace, He).
  reflexivity.
Qed.

Lemma result_bind_ret {A : Type} (r : result A) : (r ≫= Ok) = r.
Proof. destruct r; reflexivity. Qed.

Lemma result_bind_assoc {A B C : Type} (r : result A) (f : A -> result B)
    (g : B -> result C) :
  ((r ≫= f) ≫= g) = (r ≫= fun a => f a ≫= g).
Proof. destruct r; reflexivity. Qed.

End FieldListEdges.

(** X5.  A blank entry, at the end of a field list or between two
    separators, is skipped: the field list parses as it does without
    it. *)
Theorem blank_entries_are_skipped (pre w : string) :
  HasPrefix pre "ccrn=" = true -> white w ->
  parseCCRNFields (pre +:+ String "," w) = parseCCRNFields pre
  /\ forall rest,
       parseCCRNFields (pre +:+ String "," (w +:+ String "," rest))
       = parseCCRNFields (pre +:+ String "," rest).
Proof.
  intros Hp Hw.
  assert (Hfree : free_of "," w = true)
    by (apply white_free_of; [exact spaceRunes_free_of_comma|exact Hw]).
  split; [|intros rest];
    rewrite !parseCCRNFields_entries by (try apply HasPrefix_app; exact Hp).
  - rewrite Split_app_sep, (Split_free "," w) by exact Hfree.
    rewrite parseEntries_app.
    destruct (parseEntries (Split pre ",") ∅) as [m|e|p]; try reflexivity.
    cbn [mbind result_bind]. rewrite parseEntries_blank by exact Hw.
    reflexivity.
  - rewrite !Split_app_sep, (Split_free "," w) by exact Hfree.
    rewrite !parseEntries_app.
    destruct (parseEntries (Split pre ",") ∅) as [m|e|p]; try reflexivity.
    cbn [mbind result_bind app]. rewrite parseEntries_blank by exact Hw.
    reflexivity.
Qed.

Lemma blank_entries_are_skipped_witness :
  parseCCRNFields "ccrn=t.g/v1, " = parseCCRNFields "ccrn=t.g/v1"
  /\ forall rest,
       parseCCRNFields ("ccrn=t.g/v1" +:+ String "," (" " +:+ String "," rest))
       = parseCCRNFields ("ccrn=t.g/v1" +:+ String "," rest).
Proof.
  apply (blank_entries_are_skipped "ccrn=t.g/v1" " ").
  - reflexivity.
  - exact (white_rune " " EmptyString eq_refl white_nil).
Defined.

(** X6.  An entry that is not blank and holds no [=] makes the parse
    fail, whatever follows it, with the error that quotes the entry
    without the white space around it. *)
Theorem malformed_entry_is_rejected (pre e tail : string)
    (m : gmap string string) :
  parseCCRNFields pre = Ok m ->
  free_of "=" e = true -> free_of "," e = true ->
  TrimSpace e <> EmptyString ->
  tail = EmptyString \/ (exists rest, tail = String "," rest) ->
  parseCCRNFields (pre +:+ String "," (e +:+ tail))
  = Err (ErrFieldFormat (TrimSpace e)).
Proof.
  intros Hpre Heq Hcomma Hne Htail.
  assert (Hp : HasPrefix pre "ccrn=" = true).
  { unfold parseCCRNFields in Hpre.
    destruct (HasPrefix pre "ccrn="); [reflexivity|discriminate]. }
  rewrite parseCCRNFields_entries in Hpre by exact Hp.
  apply result_bind_Ok in Hpre as (m' & Hm' & _).
  rewrite parseCCRNFields_entries by (apply HasPrefix_app, Hp).
  assert (Hsplit : exists l, Split (pre +:+ String "," (e +:+ tail)) ","
                             = Split pre "," ++ e :: l).
  { destruct Htail as [->|[rest ->]].
    - exists []. rewrite string_app_empty_r, Split_app_sep.
      rewrite (Split_free "," e) by exact Hcomma. reflexivity.
    - exists (Split rest ","). rewrite !Split_app_sep.
      rewrite (Split_free "," e) by exact Hcomma. reflexivity. }
  destruct Hsplit as [l ->].
  rewrite parseEntries_app, Hm'. cbn [mbind result_bind].
  rewrite parseEntries_malformed by assumption. reflexivity.
Qed.

Lemma malformed_entry_is_rejected_witness :
  parseCCRNFields "ccrn=t.g/v1, cluster" = Err (ErrFieldFormat "cluster").
Proof.
  apply (malformed_entry_is_rejected "ccrn=t.g/v1" " cluster" EmptyString
           {[ "ccrn" := "t.g/v1" ]}).
  - vm_compute. reflexivity.
  - reflexivity.
  - reflexivity.
  - vm_compute. discriminate.
  - left. reflexivity.
Defined.

(** ** [ExtractCCRNKeyFromURN] *)

(** X7.  [ExtractCCRNKeyFromURN] does not panic and does not look at the
    prefix: it returns [A/B] exactly when what follows the prefix, if
    there is one, is [A/B/rest] with no slash in [A] and [B], and the
    error of the short URN when that text has fewer than two slashes. *)
Theorem ExtractCCRNKeyFromURN_outcome (urn : string) :
  match ExtractCCRNKeyFromURN urn with
  | Ok key =>
      exists A B rest,
        free_of "/" A = true /\ free_of "/" B = true
        /\ TrimPrefix urn "urn:ccrn:" = A +:+ String "/" (B +:+ String "/" rest)
        /\ key = A +:+ "/" +:+ B
  | Err e =>
      e = ErrURNTooShort
      /\ forall A B rest,
           TrimPrefix urn "urn:ccrn:" <> A +:+ String "/" (B +:+ String "/" rest)
  | Panic _ => False
  end.
Proof.
  unfold ExtractCCRNKeyFromURN, parseURNCCRNField.
  set (body := TrimPrefix urn "urn:ccrn:").
  destruct (length (Split body "/") <? 3)%nat eqn:Hlen.
  - apply Nat.ltb_lt in Hlen. cbn [mbind result_bind]. split; [reflexivity|].
    intros A B rest Hbody. rewrite Hbody, !Split_app_sep, !length_app in Hlen.
    pose proof (Split_nonempty A "/"). pose proof (Split_nonempty B "/").
    pose proof (Split_nonempty rest "/"). lia.
  - apply Nat.ltb_ge in Hlen.
    rewrite Split_step in Hlen |- * by discriminate.
    destruct (Cut body "/") as [[A b]|] eqn:HA; [|simpl in Hlen; lia].
    apply Cut_byte_Some in HA as [HA Hbody].
    rewrite Split_step in Hlen |- * by discriminate.
    destruct (Cut b "/") as [[B rest]|] eqn:HB; [|simpl in Hlen; lia].
    apply Cut_byte_Some in HB as [HB Hb].
    cbn. exists A, B, rest. subst b. auto.
Qed.

(** ** [Parse] *)

Section ParseFacts.

Variable GetURNTemplate : string -> string -> string + string.

Lemma HasPrefix_urn_not_ccrn (input : string) :
  HasPrefix input "urn:ccrn:" = true -> HasPrefix input "ccrn=" = false.
Proof. intros H. apply prefix_app in H. rewrite H. reflexivity. Qed.

(** On a field list, [Parse] needs neither the template nor the
    backend. *)
Lemma Parse_field_list (fuel : nat) (input urnTemplate : string) :
  HasPrefix input "ccrn=" = true ->
  Parse GetURNTemplate fuel input urnTemplate
  = Some (parsed ← parseCCRNFields input;
          Ok {| Format := "CCRN"; Fields := parsed; Raw := input;
                UrnTemplate := EmptyString |}).
Proof. intros H. destruct fuel; simpl; rewrite H; reflexivity. Qed.

(** The type name and the version that the bootstrap parse hands to the
    backend. *)
Lemma CCRNName_key (A B : string) (p : ParsedResource) :
  free_of "/" A = true ->
  Fields p !! "ccrn" = Some (A +:+ "/" +:+ B) -> CCRNName p = A.
Proof.
  intros HA Hp. unfold CCRNName. rewrite Hp.
  simpl String.append. rewrite SplitN_step, Cut_byte_free by exact HA.
  reflexivity.
Qed.

Lemma Version_key (A B : string) (p : ParsedResource) :
  free_of "/" A = true -> free_of "/" B = true ->
  Fields p !! "ccrn" = Some (A +:+ "/" +:+ B) -> Version p = B.
Proof.
  intros HA HB Hp. unfold Version. rewrite Hp.
  simpl String.append. rewrite Split_step, Cut_byte_free by (exact HA || discriminate).
  rewrite (Split_free "/" B) by exact HB. reflexivity.
Qed.

(** One turn of the recursion of [Parse] on a URN with the default
    template. *)
Lemma Parse_bootstrap (fuel : nat) (A B rest t : string) :
  free_of "/" A = true -> free_of "/" B = true ->
  t = EmptyString \/ t = DEFAULT_URN_TEMPLATE ->
  Parse GetURNTemplate fuel
    ("urn:ccrn:" +:+ (A +:+ String "/" (B +:+ String "/" rest))) t
  = match GetURNTemplate A B with
    | inr cause => Some (Err (ErrGetTemplate cause))
    | inl template =>
        match fuel with
        | O => None
        | S fuel' =>
            Parse GetURNTemplate fuel'
              ("urn:ccrn:" +:+ (A +:+ String "/" (B +:+ String "/" rest)))
              template
        end
    end.
Proof.
  intros HA HB Ht.
  set (input := "urn:ccrn:" +:+ (A +:+ String "/" (B +:+ String "/" rest))).
  assert (Hurn : HasPrefix input "urn:ccrn:" = true) by apply prefix_of_app.
  assert (Hccrn : HasPrefix input "ccrn=" = false) by reflexivity.
  assert (Hdefault : String.eqb t EmptyString || String.eqb t DEFAULT_URN_TEMPLATE = true).
  { destruct Ht as [->| ->]; reflexivity. }
  assert (Hkey : parseURNCCRNField input = Ok (A +:+ "/" +:+ B))
    by (apply parseURNCCRNField_segments; assumption).
  destruct fuel; cbn [Parse]; rewrite Hccrn, Hurn, Hdefault, Hkey;
    rewrite (CCRNName_key A B), (Version_key A B)
      by (assumption || apply lookup_singleton_eq);
    reflexivity.
Qed.

Lemma Parse_with_template (fuel : nat) (input t : string) :
  HasPrefix input "ccrn=" = false ->
  t <> EmptyString -> t <> DEFAULT_URN_TEMPLATE ->
  Parse GetURNTemplate fuel input t <> None.
Proof.
  intros Hccrn H1 H2.
  assert (Hdefault : String.eqb t EmptyString || String.eqb t DEFAULT_URN_TEMPLATE = false).
  { apply orb_false_iff. split; apply String.eqb_neq; assumption. }
  destruct fuel; cbn [Parse]; rewrite Hccrn, Hdefault;
    destruct (HasPrefix input "urn:ccrn:"); try discriminate;
    destruct (negb (HasPrefix t "urn:ccrn:")); discriminate.
Qed.

End ParseFacts.

(** X8.  On a URN [urn:ccrn:A/B/rest] and with the empty or the default
    template, [Parse] asks the backend for the template of type [A],
    version [B], and calls itself with the answer: it returns unless
    that answer is again the empty or the default template, in which case
    the recursion has no end. *)
Theorem Parse_returns_iff (GetURNTemplate : string -> string -> string + string)
    (A B rest t : string) :
  free_of "/" A = true -> free_of "/" B = true ->
  t = EmptyString \/ t = DEFAULT_URN_TEMPLATE ->
  (exists fuel,
     Parse GetURNTemplate fuel
       ("urn:ccrn:" +:+ (A +:+ String "/" (B +:+ String "/" rest))) t <> None)
  <-> GetURNTemplate A B <> inl EmptyString
      /\ GetURNTemplate A B <> inl DEFAULT_URN_TEMPLATE.
Proof.
  intros HA HB Ht. split.
  - intros [fuel Hfuel]. 
    destruct (GetURNTemplate A B) as [t'|cause] eqn:HG; [|split; discriminate].
    destruct (decide (t' = EmptyString \/ t' = DEFAULT_URN_TEMPLATE)) as [Hloop|Hok];
      [|split; intros [= ->]; tauto].
    exfalso. apply Hfuel. clear Hfuel. revert t Ht.
    induction fuel as [|fuel IH]; intros t Ht;
      rewrite Parse_bootstrap, HG by assumption; [reflexivity|].
    apply IH, Hloop.
  - intros [H1 H2].
    destruct (GetURNTemplate A B) as [t'|cause] eqn:HG.
    + exists 1. rewrite Parse_bootstrap, HG by assumption.
      apply Parse_with_template; [reflexivity|congruence|congruence].
    + exists 0. rewrite Parse_bootstrap, HG by assumption. discriminate.
Qed.

Lemma Parse_returns_iff_witness :
  (exists fuel, Parse defaultTemplates fuel "urn:ccrn:t.g/v1/my-pod" EmptyString <> None)
  <-> defaultTemplates "t.g" "v1" <> inl EmptyString
      /\ defaultTemplates "t.g" "v1" <> inl DEFAULT_URN_TEMPLATE.
Proof.
  apply (Parse_returns_iff defaultTemplates "t.g" "v1" "my-pod" EmptyString).
  - reflexivity.
  - reflexivity.
  - left. reflexivity.
Defined.

(** The resources that [Parse] returns. *)
Lemma Parse_Ok_inv (GetURNTemplate : string -> string -> string + string)
    (fuel : nat) (input urnTemplate : string) (p : ParsedResource) :
  Parse GetURNTemplate fuel input urnTemplate = Some (Ok p)
  <-> exists fields,
        parseCCRNFields input = Ok fields
        /\ p = {| Format := "CCRN"; Fields := fields; Raw := input;
                  UrnTemplate := EmptyString |}.
Proof.
  destruct (HasPrefix input "ccrn=") eqn:Hccrn.
  - rewrite Parse_field_list by exact Hccrn.
    destruct (parseCCRNFields input) as [fields|e|q]; cbn [mbind result_bind].
    + split; [intros [= <-]; eauto|intros (f & [= <-] & ->); reflexivity].
    + split; [discriminate|intros (f & [=] & _)].
    + split; [discriminate|intros (f & [=] & _)].
  - split.
    + intros H. exfalso. eapply Parse_URN_never_Ok; eauto.
    + intros (fields & Hf & _). unfold parseCCRNFields in Hf.
      rewrite Hccrn in Hf. discriminate.
Qed.

(** X9.  What [Parse] returns without an error is the parse of a field
    list, whatever the template and the backend: the format is [CCRN],
    the fields are those of [parseCCRNFields] and no URN template is
    recorded, so that [URN] with an empty template returns the empty
    string on it. *)
Theorem Parse_Ok_iff (GetURNTemplate : string -> string -> string + string)
    (fuel : nat) (input urnTemplate : string) (p : ParsedResource) :
  (Parse GetURNTemplate fuel input urnTemplate = Some (Ok p)
   <-> exists fields,
         parseCCRNFields input = Ok fields
         /\ p = {| Format := "CCRN"; Fields := fields; Raw := input;
                   UrnTemplate := EmptyString |})
  /\ (Parse GetURNTemplate fuel input urnTemplate = Some (Ok p) ->
      forall out, URN p EmptyString out -> out = EmptyString).
Proof.
  split; [apply Parse_Ok_inv|].
  intros H out (visit & _ & ->). apply Parse_Ok_inv in H as (fields & _ & ->).
  reflexivity.
Qed.

(** ** The other methods of [ParsedResource] *)

Section FieldLoops.

(** A loop that puts the entries of a map, some names excepted, into
    another map: what it leaves under a name. *)
Lemma foldl_put_lookup {V : Type} (skip : string -> bool) (g : string -> V)
    (f : gmap string V -> string * string -> gmap string V)
    (l : list (string * string)) (k : string) :
  (forall m kv, f m kv = if skip kv.1 then m else <[kv.1 := g kv.2]> m) ->
  NoDup l.*1 ->
  forall init,
    foldl f init l !! k =
      if skip k then init !! k
      else match (list_to_map l : gmap string string) !! k with
           | Some v => Some (g v)
           | None => init !! k
           end.
Proof.
  intros Hf. induction l as [|[k' v'] l IH]; intros Hnd init.
  - cbn. rewrite lookup_empty. destruct (skip k); reflexivity.
  - cbn [fmap list_fmap fst] in Hnd. apply NoDup_cons in Hnd as [Hk' Hnd].
    cbn [foldl]. rewrite (IH Hnd), Hf. cbn [fst snd list_to_map foldr uncurry].
    destruct (skip k) eqn:Hk.
    + destruct (skip k') eqn:Hk'skip; [reflexivity|].
      apply lookup_insert_ne. congruence.
    + destruct (decide (k' = k)) as [->|Hne].
      * rewrite Hk, lookup_insert_eq.
        rewrite (not_elem_of_list_to_map_1 _ _ Hk'), lookup_insert_eq.
        reflexivity.
      * rewrite lookup_insert_ne by exact Hne.
        destruct (list_to_map l !! k); [reflexivity|].
        destruct (skip k'); [reflexivity|]. apply lookup_insert_ne, Hne.
Qed.

Lemma iteration_order_NoDup (m : gmap string string)
    (visit : list (string * string)) :
  iteration_order m visit -> NoDup visit.*1 /\ list_to_map visit = m.
Proof.
  unfold iteration_order. intros H.
  assert (Hnd : NoDup visit.*1).
  { rewrite H. apply NoDup_fst_map_to_list. }
  split; [exact Hnd|].
  rewrite (list_to_map_proper _ _ Hnd H). apply list_to_map_to_list.
Qed.

End FieldLoops.

(** X4.  In the object [ToResourceMap] builds, [ccrn] is the type key and
    [metadata] holds the given name and namespace, whatever the fields
    are called; every other field is there under its name.  The order in
    which the fields are visited does not matter. *)
Theorem ToResourceMap_reserved_keys (p : ParsedResource)
    (namespace name : string) (out : gmap string any) :
  ToResourceMap p namespace name out ->
  out = <["ccrn" := AnyString (CCRNKey p)]>
          (<["metadata" := AnyObject (<["namespace" := namespace]> {[ "name" := name ]})]>
             (AnyString <$> Fields p)).
Proof.
  intros (visit & Hvisit & ->).
  apply iteration_order_NoDup in Hvisit as [Hnd Hmap].
  apply map_eq. intros k. unfold ToResourceMap_visiting.
  rewrite (foldl_put_lookup
             (fun k => String.eqb k "ccrn" || String.eqb k "metadata") AnyString)
    by (reflexivity || exact Hnd).
  rewrite Hmap.
  destruct (String.eqb_spec k "ccrn") as [->|Hccrn].
  - cbn [orb]. rewrite lookup_insert_ne by discriminate.
    rewrite lookup_singleton_eq, lookup_insert_eq. reflexivity.
  - cbn [orb]. rewrite (lookup_insert_ne _ "ccrn") by congruence.
    destruct (String.eqb_spec k "metadata") as [->|Hmeta].
    + rewrite !lookup_insert_eq. reflexivity.
    + rewrite !(lookup_insert_ne _ "metadata") by congruence.
      rewrite lookup_fmap.
      destruct (Fields p !! k); [reflexivity|].
      apply lookup_singleton_ne. congruence.
Qed.

Lemma ToResourceMap_reserved_keys_witness :
  ToResourceMap_visiting (map_to_list podFields) (resource podFields podFieldList)
    "default" "pod-validation"
  = <["ccrn" := AnyString "t.g/v1"]>
      (<["metadata" := AnyObject (<["namespace" := "default"]> {[ "name" := "pod-validation" ]})]>
         (AnyString <$> podFields)).
Proof.
  apply (ToResourceMap_reserved_keys (resource podFields podFieldList)).
  exists (map_to_list podFields). split; [|reflexivity].
  unfold iteration_order. reflexivity.
Defined.

Section TypeKey.

Lemma type_key_assoc (kind group version : string) :
  kind +:+ "." +:+ group +:+ "/" +:+ version
  = (kind +:+ "." +:+ group) +:+ "/" +:+ version.
Proof. rewrite !string_app_assoc. reflexivity. Qed.

Lemma GetKind_key (kind rest : string) (p : ParsedResource) :
  free_of "." kind = true ->
  Fields p !! "ccrn" = Some (kind +:+ "." +:+ rest) -> GetKind p = kind.
Proof.
  intros Hkind Hp. unfold GetKind. rewrite Hp. simpl String.append.
  rewrite Split_step, Cut_byte_free by (exact Hkind || discriminate).
  reflexivity.
Qed.

Lemma ApiGroup_key (kind group version : string) (p : ParsedResource) :
  free_of "." kind = true -> free_of "/" kind = true ->
  free_of "/" group = true ->
  Fields p !! "ccrn" = Some (kind +:+ "." +:+ group +:+ "/" +:+ version) ->
  ApiGroup p = group.
Proof.
  intros Hdot Hkind Hgroup Hp. unfold ApiGroup. rewrite Hp, type_key_assoc.
  simpl String.append.
  rewrite SplitN_step, Cut_byte_free
    by (rewrite free_of_app; cbn [free_of]; rewrite Hkind, Hgroup; reflexivity).
  rewrite SplitN_step, Cut_byte_free by exact Hdot. reflexivity.
Qed.

End TypeKey.

(** X2.  On a type key [kind.group/version], where [kind] holds neither a
    dot nor a slash and [group] and [version] hold no slash, the
    accessors return its parts: [GetKind] the kind, [ApiGroup] the group
    (dots included), [CCRNName] the name [kind.group], [Version] the
    version, [CCRNKey] the whole key. *)
Theorem type_key_accessors (kind group version : string) (p : ParsedResource) :
  free_of "." kind = true -> free_of "/" kind = true ->
  free_of "/" group = true -> free_of "/" version = true ->
  Fields p !! "ccrn" = Some (kind +:+ "." +:+ group +:+ "/" +:+ version) ->
  GetKind p = kind
  /\ ApiGroup p = group
  /\ CCRNName p = kind +:+ "." +:+ group
  /\ Version p = version
  /\ CCRNKey p = kind +:+ "." +:+ group +:+ "/" +:+ version.
Proof.
  intros Hdot Hkind Hgroup Hversion Hp.
  assert (Hname : free_of "/" (kind +:+ "." +:+ group) = true).
  { rewrite free_of_app. cbn [String.append free_of].
    rewrite Hkind, Hgroup. reflexivity. }
  split; [eapply GetKind_key; eassumption|].
  split; [eapply ApiGroup_key; eassumption|].
  rewrite type_key_assoc in Hp.
  split; [apply (CCRNName_key _ version); assumption|].
  split; [apply (Version_key (kind +:+ "." +:+ group)); assumption|].
  unfold CCRNKey. rewrite Hp, type_key_assoc. reflexivity.
Qed.

Lemma type_key_accessors_witness :
  let p := resource {[ "ccrn" := "pod.k8s-registry.ccrn.example.com/v1" ]} EmptyString in
  GetKind p = "pod"
  /\ ApiGroup p = "k8s-registry.ccrn.example.com"
  /\ CCRNName p = "pod.k8s-registry.ccrn.example.com"
  /\ Version p = "v1"
  /\ CCRNKey p = "pod.k8s-registry.ccrn.example.com/v1".
Proof.
  apply (type_key_accessors "pod" "k8s-registry.ccrn.example.com" "v1");
    reflexivity.
Defined.

(** X3.  On a type key [name/version] whose name has no dot, there is no
    group to return: [ApiGroup] returns the name, as [CCRNName] does, and
    [GetKind], which cuts at the first dot of the whole key, returns the
    key with its version. *)
Theorem accessors_without_group (name version : string) (p : ParsedResource) :
  free_of "." name = true -> free_of "/" name = true ->
  free_of "." version = true -> free_of "/" version = true ->
  Fields p !! "ccrn" = Some (name +:+ "/" +:+ version) ->
  ApiGroup p = name
  /\ CCRNName p = name
  /\ GetKind p = name +:+ "/" +:+ version
  /\ Version p = version.
Proof.
  intros Hdot Hname Hvdot Hversion Hp.
  split; [|split; [apply (CCRNName_key name version); assumption|split;
                   [|apply (Version_key name version); assumption]]].
  - unfold ApiGroup. rewrite Hp. simpl String.append.
    rewrite SplitN_step, Cut_byte_free by exact Hname.
    rewrite SplitN_step, Cut_byte_none by exact Hdot. reflexivity.
  - unfold GetKind. rewrite Hp.
    rewrite Split_free; [reflexivity|].
    rewrite free_of_app. cbn [String.append free_of].
    rewrite Hdot, Hvdot. reflexivity.
Qed.

Lemma accessors_without_group_witness :
  let p := resource {[ "ccrn" := "pod/v1" ]} EmptyString in
  ApiGroup p = "pod" /\ CCRNName p = "pod" /\ GetKind p = "pod/v1"
  /\ Version p = "v1".
Proof. apply (accessors_without_group "pod" "v1"); reflexivity. Defined.

(** ** Rendering the field list and parsing it back *)

Section RenderedFieldList.

Lemma wrapped_quoted (x : string) : wrapped (quoted x) = true.
Proof.
  unfold wrapped, quoted. cbn [String.length]. rewrite string_length_app.
  cbn [String.length].
  replace (S (String.length x + 1) - 2) with (String.length x) by lia.
  cbn [String.substring]. rewrite substring_app_length.
  apply String.eqb_refl.
Qed.

Lemma plain_not_wrapped (v : string) :
  wrapped v = false -> forall x, v <> quoted x.
Proof. intros H x ->. rewrite wrapped_quoted in H. discriminate. Qed.

Lemma plain_entry_inv (k v : string) :
  plain_entry k v = true ->
  free_of "," k = true /\ free_of "=" k = true /\ trimmed k = true
  /\ free_of "," v = true /\ TrimSpace v = v /\ stripQuotes v = v.
Proof.
  unfold plain_entry. intros H.
  repeat (apply andb_true_iff in H as [H ?]).
  repeat split; auto using TrimSpace_id.
  apply stripQuotes_plain, plain_not_wrapped, negb_true_iff. assumption.
Qed.

Lemma TrimSpace_after_space (k : string) :
  trimmed k = true -> TrimSpace (String " " k) = k.
Proof.
  intros Hk. rewrite <- (string_app_empty_r k) at 1.
  apply (TrimSpace_padded " " k EmptyString); [|constructor|exact Hk].
  exact (white_rune " " EmptyString eq_refl white_nil).
Qed.

(** One more field at the end of a field list that parses. *)
Lemma parseCCRNFields_append (pre k v : string) (m : gmap string string) :
  parseCCRNFields pre = Ok m ->
  plain_entry k v = true ->
  parseCCRNFields (pre +:+ ", " +:+ k +:+ "=" +:+ v) = Ok (<[k := v]> m).
Proof.
  intros Hpre Hkv.
  apply plain_entry_inv in Hkv as (Hkc & Hke & Hk & Hvc & Hv & Hq).
  assert (Hp : HasPrefix pre "ccrn=" = true).
  { unfold parseCCRNFields in Hpre.
    destruct (HasPrefix pre "ccrn="); [reflexivity|discriminate]. }
  rewrite parseCCRNFields_entries in Hpre by exact Hp.
  apply result_bind_Ok in Hpre as (m' & Hm' & Hcheck).
  assert (Hccrn : is_Some (m !! "ccrn") /\ m' = m).
  { destruct (m' !! "ccrn") eqn:E; [|discriminate].
    injection Hcheck as <-. eauto. }
  destruct Hccrn as [Hccrn ->].
  change (pre +:+ ", " +:+ k +:+ "=" +:+ v)
    with (pre +:+ String "," (String " " k +:+ String "=" v)).
  rewrite parseCCRNFields_entries by (apply HasPrefix_app, Hp).
  rewrite Split_app_sep, (Split_free "," (String " " k +:+ String "=" v)).
  2:{ rewrite free_of_app. cbn [free_of]. rewrite Hkc, Hvc. reflexivity. }
  rewrite parseEntries_app, Hm'. cbn [mbind result_bind].
  rewrite parseEntries_key_value by (cbn [free_of]; rewrite Hke; reflexivity).
  cbn [parseEntries mbind result_bind].
  rewrite TrimSpace_after_space, Hv, Hq by exact Hk.
  destruct (decide (k = "ccrn")) as [->|Hne].
  - rewrite lookup_insert_eq. reflexivity.
  - rewrite lookup_insert_ne by exact Hne.
    destruct Hccrn as [c ->]. reflexivity.
Qed.

(** The field list that holds the type key only. *)
Lemma parseCCRNFields_key_only (c : string) :
  plain_entry "ccrn" c = true ->
  parseCCRNFields ("ccrn=" +:+ c) = Ok {[ "ccrn" := c ]}.
Proof.
  intros Hkv. apply plain_entry_inv in Hkv as (_ & _ & _ & Hvc & Hv & Hq).
  rewrite parseCCRNFields_entries by apply prefix_of_app.
  rewrite Split_free by (cbn [String.append free_of]; rewrite Hvc; reflexivity).
  change ("ccrn=" +:+ c) with ("ccrn" +:+ String "=" c).
  rewrite parseEntries_key_value by reflexivity.
  cbn [parseEntries mbind result_bind]. rewrite Hv, Hq.
  change (TrimSpace "ccrn") with "ccrn".
  rewrite insert_empty, lookup_singleton_eq. reflexivity.
Qed.

(** The loop of [CCRN], followed by the parser. *)
Lemma CCRN_loop_parses (visit : list (string * string)) :
  forall (s : string) (m : gmap string string),
    parseCCRNFields s = Ok m ->
    Forall (fun kv => plain_entry kv.1 kv.2 = true) visit ->
    parseCCRNFields (foldl appendField s visit)
    = Ok (foldl (fun m kv => if String.eqb kv.1 "ccrn" then m
                             else <[kv.1 := kv.2]> m) m visit).
Proof.
  induction visit as [|[k v] visit IH]; intros s m Hs Hall; [exact Hs|].
  apply Forall_cons in Hall as [Hkv Hall]. cbn [foldl fst snd] in *.
  apply IH; [|exact Hall]. unfold appendField. cbn [fst snd].
  destruct (String.eqb k "ccrn"); cbn [negb]; [exact Hs|].
  apply parseCCRNFields_append; assumption.
Qed.

End RenderedFieldList.

(** X1.  The field list that [CCRN] renders parses back to the fields it
    was rendered from, in whatever order the fields were visited,
    provided there is a [ccrn] field and every field can be carried as it
    is: no comma in names and values, no [=] in names, no white space at
    their ends, no pair of quotes around a value. *)
Theorem CCRN_parses_back (p : ParsedResource) (out : string) :
  is_Some (Fields p !! "ccrn") ->
  map_Forall (fun k v => plain_entry k v = true) (Fields p) ->
  CCRN p out ->
  parseCCRNFields out = Ok (Fields p).
Proof.
  intros [c Hc] Hplain (visit & Hvisit & ->).
  unfold CCRN_visiting. rewrite Hc.
  assert (Hall : Forall (fun kv => plain_entry kv.1 kv.2 = true) visit).
  { unfold iteration_order in Hvisit. rewrite Hvisit.
    apply map_Forall_to_list in Hplain.
    eapply Forall_impl; [exact Hplain|]. intros [k v] H. exact H. }
  rewrite (CCRN_loop_parses visit _ {[ "ccrn" := c ]});
    [|apply parseCCRNFields_key_only, (Hplain _ _ Hc)|exact Hall].
  f_equal. apply iteration_order_NoDup in Hvisit as [Hnd Hmap].
  apply map_eq. intros k.
  rewrite (foldl_put_lookup (fun k => String.eqb k "ccrn") id)
    by (reflexivity || exact Hnd).
  rewrite Hmap. destruct (String.eqb_spec k "ccrn") as [->|Hne].
  - rewrite lookup_singleton_eq, Hc. reflexivity.
  - destruct (Fields p !! k); [reflexivity|].
    apply lookup_singleton_ne. congruence.
Qed.

Lemma CCRN_parses_back_witness :
  parseCCRNFields
    (CCRN_visiting (map_to_list podFields) (resource podFields podFieldList))
  = Ok podFields.
Proof.
  apply (CCRN_parses_back (resource podFields podFieldList)).
  - exists "t.g/v1". reflexivity.
  - apply (bool_decide_unpack _). vm_compute. reflexivity.
  - exists (map_to_list podFields). split; [|reflexivity].
    unfold iteration_order. reflexivity.
Defined.

(** ** The filesystem backend: what [storeCRD] files *)

Section StoreFacts.

Context {JSONSchemaProps SchemaValidator : Type}.
Context (NewSchemaValidator : JSONSchemaProps -> option SchemaValidator).
Context (ToLower : string -> string).

Local Abbreviation Backend := (FilesystemBackend JSONSchemaProps SchemaValidator).
Local Abbreviation keyOf crd version :=
  (getCRDKey ToLower (specGroup crd) (vName version) (namesKind crd)).

Lemma createSchemaValidator_crds (crdKey : string)
    (version : CustomResourceDefinitionVersion JSONSchemaProps) (fb : Backend) :
  crds (createSchemaValidator NewSchemaValidator crdKey version fb).1 = crds fb.
Proof.
  unfold createSchemaValidator.
  destruct (vSchema version) as [[schema|]|]; try reflexivity.
  destruct (NewSchemaValidator schema); reflexivity.
Qed.

Lemma storeVersions_panics_iff (crd : CustomResourceDefinition JSONSchemaProps)
    (versions : list (CustomResourceDefinitionVersion JSONSchemaProps)) :
  forall fb : Backend,
    ((storeVersions NewSchemaValidator ToLower crd versions fb).2 = None
     <-> Forall (fun version => vServed version = true -> vSchema version <> None)
           versions)
    /\ forall p,
         (storeVersions NewSchemaValidator ToLower crd versions fb).2 = Some p ->
         p = NilDereference.
Proof.
  induction versions as [|version rest IH]; intros fb; cbn [storeVersions].
  - split; [split; [constructor|reflexivity]|discriminate].
  - rewrite Forall_cons. destruct (vServed version); cbn [negb].
    + destruct (vSchema version) as [schema|]; cbn [snd].
      * match goal with
        | |- context [storeVersions _ _ _ rest ?fb1] =>
            destruct (IH fb1) as [Hiff Hp]
        end.
        split; [|exact Hp]. rewrite Hiff. split; [|tauto].
        intros H. split; [discriminate|exact H].
      * split; [|intros p [= <-]; reflexivity].
        split; [discriminate|]. intros [H _]. exfalso. apply H; reflexivity.
    + destruct (IH fb) as [Hiff Hp]. split; [|exact Hp].
      rewrite Hiff. split; [|tauto]. intros H. split; [discriminate|exact H].
Qed.

(** X10.  [storeCRD] panics exactly when a served version of the
    definition has no [schema] at all, and the panic is then the read
    through the nil pointer; [validateCRDStructure], which asks for one
    version with a schema, does not exclude it. *)
Theorem storeCRD_panics_iff (crd : CustomResourceDefinition JSONSchemaProps)
    (fb : Backend) :
  ((storeCRD NewSchemaValidator ToLower crd fb).2 = None
   <-> Forall (fun version => vServed version = true -> vSchema version <> None)
         (specVersions crd))
  /\ forall p,
       (storeCRD NewSchemaValidator ToLower crd fb).2 = Some p ->
       p = NilDereference.
Proof.
  unfold storeCRD.
  pose proof (storeVersions_panics_iff crd (specVersions crd) fb) as H.
  destruct (storeVersions NewSchemaValidator ToLower crd (specVersions crd) fb)
    as [fb1 p]. exact H.
Qed.

Lemma storeVersions_descriptors (crd : CustomResourceDefinition JSONSchemaProps)
    (versions : list (CustomResourceDefinitionVersion JSONSchemaProps)) :
  forall fb fb' : Backend,
    storeVersions NewSchemaValidator ToLower crd versions fb = (fb', None) ->
    (forall version,
       version ∈ versions -> vServed version = true ->
       exists last,
         last ∈ versions /\ vServed last = true
         /\ keyOf crd last = keyOf crd version
         /\ is_Some (descriptorOf crd last)
         /\ crds fb' !! keyOf crd version = descriptorOf crd last)
    /\ (forall key,
          (forall version, version ∈ versions -> vServed version = true ->
                           keyOf crd version <> key) ->
          crds fb' !! key = crds fb !! key).
Proof.
  induction versions as [|v0 rest IH]; intros fb fb'; cbn [storeVersions].
  - intros [= <-]. split; [|reflexivity].
    intros version Hin. apply elem_of_nil in Hin. contradiction.
  - destruct (vServed v0) eqn:Hserved; cbn [negb].
    + destruct (vSchema v0) as [schema|] eqn:Hschema; [|discriminate].
      intros Hstore. apply IH in Hstore as [Hin Hframe].
      rewrite createSchemaValidator_crds in Hframe. cbn [setCrds crds] in Hframe.
      assert (Hlater : forall version,
                 version ∈ rest -> vServed version = true ->
                 exists last,
                   last ∈ v0 :: rest /\ vServed last = true
                   /\ keyOf crd last = keyOf crd version
                   /\ is_Some (descriptorOf crd last)
                   /\ crds fb' !! keyOf crd version = descriptorOf crd last).
      { intros version Hv Hs. destruct (Hin version Hv Hs) as (last & Hl & H).
        exists last. split; [apply list_elem_of_further, Hl|exact H]. }
      split.
      * intros version Hv Hs. apply elem_of_cons in Hv as [->|Hv]; [|auto].
        destruct (decide (Exists (fun w => vServed w = true
                                           /\ keyOf crd w = keyOf crd v0) rest))
          as [Hex|Hnone].
        -- apply Exists_exists in Hex as (w & Hw & Hws & Hwk).
           destruct (Hlater w Hw Hws) as (last & Hl & Hls & Hlk & Hd & Hlookup).
           exists last. rewrite <- Hwk. repeat split; auto; congruence.
        -- exists v0. split; [apply list_elem_of_here|].
           split; [exact Hs|]. split; [reflexivity|].
           unfold descriptorOf. rewrite Hschema. split; [eauto|].
           rewrite Hframe; [apply lookup_insert_eq|].
           intros w Hw Hws Hwk. apply Hnone, Exists_exists. eauto.
      * intros key Hkey. rewrite Hframe.
        -- apply lookup_insert_ne, Hkey; [apply list_elem_of_here|exact Hserved].
        -- intros w Hw. apply Hkey, list_elem_of_further, Hw.
    + intros Hstore. apply IH in Hstore as [Hin Hframe]. split.
      * intros version Hv Hs. apply elem_of_cons in Hv as [->|Hv]; [congruence|].
        destruct (Hin version Hv Hs) as (last & Hl & H).
        exists last. split; [apply list_elem_of_further, Hl|exact H].
      * intros key Hkey. apply Hframe.
        intros w Hw. apply Hkey, list_elem_of_further, Hw.
Qed.

(** X11.  When [storeCRD] returns, every served version of the definition
    is in the index under its key, with the descriptor of a served
    version that has this key (two version names can give one key, the
    key being lower-cased); the entries under all other keys are as they
    were. *)
Theorem storeCRD_files_served_versions
    (crd : CustomResourceDefinition JSONSchemaProps) (fb fb' : Backend) :
  storeCRD NewSchemaValidator ToLower crd fb = (fb', None) ->
  (forall version,
     version ∈ specVersions crd -> vServed version = true ->
     exists last,
       last ∈ specVersions crd /\ vServed last = true
       /\ keyOf crd last = keyOf crd version
       /\ is_Some (descriptorOf crd last)
       /\ GetCRD (snapshot fb') (keyOf crd version) = descriptorOf crd last)
  /\ (forall key,
        (forall version, version ∈ specVersions crd -> vServed version = true ->
                         keyOf crd version <> key) ->
        GetCRD (snapshot fb') key = GetCRD (snapshot fb) key).
Proof.
  unfold storeCRD.
  destruct (storeVersions NewSchemaValidator ToLower crd (specVersions crd) fb)
    as [fb1 p] eqn:Hstore.
  intros [= <- ->]. apply storeVersions_descriptors in Hstore. exact Hstore.
Qed.

End StoreFacts.

Lemma storeCRD_files_served_versions_witness :
  GetCRD (snapshot (storeCRD buildValidator ToLowerASCII (podDefinition oneVersion)
                      newBackend).1)
    "pod.k8s-registry.ccrn.example.com/v1"
  = descriptorOf (podDefinition oneVersion) (servedVersion "v1" (Some (Some tt))).
Proof.
  destruct (storeCRD_files_served_versions buildValidator ToLowerASCII
              (podDefinition oneVersion) newBackend
              (storeCRD buildValidator ToLowerASCII (podDefinition oneVersion)
                 newBackend).1)
    as [Hin _]; [reflexivity|].
  destruct (Hin (servedVersion "v1" (Some (Some tt))))
    as (last & Hlast & _ & _ & _ & Hlookup).
  - apply list_elem_of_here.
  - reflexivity.
  - apply list_elem_of_singleton in Hlast. subst last. exact Hlookup.
Defined.

(** The definition with a served version without [schema] passes
    [validateCRDStructure], and [storeCRD] panics on it. *)
Lemma storeCRD_nil_schema :
  validateCRDStructure (podDefinition nilSchemaVersions) = None
  /\ (storeCRD buildValidator ToLowerASCII (podDefinition nilSchemaVersions)
        newBackend).2 = Some NilDereference.
Proof. split; vm_compute; reflexivity. Qed.

(** ** The filesystem backend: what a load changes *)

Section LoadWrites.

Context {JSONSchemaProps SchemaValidator : Type}.
Context (NewSchemaValidator : JSONSchemaProps -> option SchemaValidator).
Context (Glob : string -> option (list string)).
Context (ReadFile : string -> option string).
Context (ScanLines : string -> list string * bool).
Context (Unmarshal : string -> option (CustomResourceDefinition JSONSchemaProps)).
Context (ToLower : string -> string).

Local Abbreviation Backend := (FilesystemBackend JSONSchemaProps SchemaValidator).
Local Abbreviation writes := (rtc (@write JSONSchemaProps SchemaValidator)).

Lemma createSchemaValidator_writes (crdKey : string)
    (version : CustomResourceDefinitionVersion JSONSchemaProps) (fb : Backend) :
  writes fb (createSchemaValidator NewSchemaValidator crdKey version fb).1.
Proof.
  unfold createSchemaValidator.
  destruct (vSchema version) as [[schema|]|]; try reflexivity.
  destruct (NewSchemaValidator schema); [|reflexivity].
  apply rtc_once, write_validator.
Qed.

Lemma storeVersions_writes (crd : CustomResourceDefinition JSONSchemaProps)
    (versions : list (CustomResourceDefinitionVersion JSONSchemaProps)) :
  forall fb : Backend,
    writes fb (storeVersions NewSchemaValidator ToLower crd versions fb).1.
Proof.
  induction versions as [|version rest IH]; intros fb; cbn [storeVersions];
    [reflexivity|].
  destruct (negb (vServed version)); [apply IH|].
  destruct (vSchema version) as [schema|]; [|reflexivity].
  eapply rtc_l; [apply write_descriptor|].
  etransitivity; [apply createSchemaValidator_writes|apply IH].
Qed.

Lemma storeCRD_writes (crd : CustomResourceDefinition JSONSchemaProps)
    (fb : Backend) :
  writes fb (storeCRD NewSchemaValidator ToLower crd fb).1.
Proof.
  unfold storeCRD.
  pose proof (storeVersions_writes crd (specVersions crd) fb) as H.
  destruct (storeVersions NewSchemaValidator ToLower crd (specVersions crd) fb)
    as [fb1 p]. cbn [fst] in *.
  eapply rtc_r; [exact H|apply write_unlock].
Qed.

Lemma processSingleDocument_writes (document : string) (fb : Backend) :
  writes fb (processSingleDocument NewSchemaValidator Unmarshal ToLower document fb).1.
Proof.
  unfold processSingleDocument.
  destruct (Unmarshal document) as [crd|]; [|reflexivity].
  destruct (validateCRDStructure crd); [reflexivity|].
  destruct (negb (isCCRNRelevant fb crd)); [reflexivity|].
  pose proof (storeCRD_writes crd fb) as H.
  destruct (storeCRD NewSchemaValidator ToLower crd fb) as [fb1 [p|]]; exact H.
Qed.

Lemma processDocuments_writes (filePath : string) (documents : list string) :
  forall (i : nat) (fb : Backend) (result : CRDLoadingResult)
         (loadedCRDs : list (CustomResourceDefinition JSONSchemaProps)),
    writes fb
      (processDocuments NewSchemaValidator Unmarshal ToLower filePath i documents
         fb result loadedCRDs).1.1.1.
Proof.
  induction documents as [|document rest IH]; intros i fb result loadedCRDs;
    cbn [processDocuments]; [reflexivity|].
  destruct (isEmptyDocument document); [apply IH|].
  pose proof (processSingleDocument_writes document fb) as H.
  destruct (processSingleDocument NewSchemaValidator Unmarshal ToLower document fb)
    as [fb1 [e| |crd|p]]; cbn [fst] in *;
    try (etransitivity; [exact H|apply IH]).
  exact H.
Qed.

Lemma processFile_writes (filePath : string) (fb : Backend)
    (result : CRDLoadingResult) :
  writes fb
    (processFile NewSchemaValidator ReadFile ScanLines Unmarshal ToLower filePath
       fb result).1.1.
Proof.
  unfold processFile.
  destruct (ReadFile filePath) as [fileContent|]; [|reflexivity].
  destruct (splitYAMLDocuments ScanLines fileContent) as [documents|];
    [|reflexivity].
  pose proof (processDocuments_writes filePath documents 0 fb (countFile result) [])
    as H.
  destruct (processDocuments _ _ _ _ _ _ _ _ _) as [[[fb1 result1] loaded] [p|]];
    cbn [fst] in *; [exact H|].
  destruct (0 <? length loaded)%nat; [|exact H]. cbn [fst].
  etransitivity; [exact H|].
  eapply rtc_l; [apply write_file|]. apply rtc_once, write_unlock.
Qed.

Lemma processFiles_writes (matchedFiles : list string) :
  forall (fb : Backend) (result : CRDLoadingResult),
    writes fb
      (processFiles NewSchemaValidator ReadFile ScanLines Unmarshal ToLower
         matchedFiles fb result).1.1.
Proof.
  induction matchedFiles as [|filePath rest IH]; intros fb result;
    cbn [processFiles]; [reflexivity|].
  destruct (isYAMLFile ToLower filePath); [|apply IH].
  pose proof (processFile_writes filePath fb result) as H.
  destruct (processFile _ _ _ _ _ _ _ _) as [[fb1 result1] [p|]];
    cbn [fst] in *; [exact H|].
  etransitivity; [exact H|apply IH].
Qed.

(** A write leaves the group and the paths alone and takes nothing out
    of the maps. *)
Lemma write_frame (fb fb' : Backend) :
  write fb fb' ->
  ccrnGroup fb' = ccrnGroup fb
  /\ loadedPaths fb' = loadedPaths fb
  /\ (forall key, is_Some (crds fb !! key) -> is_Some (crds fb' !! key))
  /\ (forall key, is_Some (validators fb !! key) -> is_Some (validators fb' !! key))
  /\ (forall file, is_Some (crdsByFile fb !! file) ->
                   is_Some (crdsByFile fb' !! file)).
Proof.
  intros [fb0 k x|fb0 k x|fb0 k x|fb0]; cbn; repeat split; auto;
    intros key H; rewrite lookup_insert_is_Some;
    destruct (decide (k = key)); auto.
Qed.

Lemma writes_frame (fb fb' : Backend) :
  writes fb fb' ->
  ccrnGroup fb' = ccrnGroup fb
  /\ loadedPaths fb' = loadedPaths fb
  /\ (forall key, is_Some (crds fb !! key) -> is_Some (crds fb' !! key))
  /\ (forall key, is_Some (validators fb !! key) -> is_Some (validators fb' !! key))
  /\ (forall file, is_Some (crdsByFile fb !! file) ->
                   is_Some (crdsByFile fb' !! file)).
Proof.
  induction 1 as [fb|fb fb1 fb2 Hstep _ IH]; [repeat split; auto|].
  apply write_frame in Hstep as (Hg & Hp & Hc & Hv & Hf).
  destruct IH as (Hg' & Hp' & Hc' & Hv' & Hf').
  repeat split; [congruence|congruence|auto..].
Qed.

Lemma LoadCRDs_frame (pattern : string) (fb fb' : Backend)
    (o : outcome backendError) :
  LoadCRDs NewSchemaValidator Glob ReadFile ScanLines Unmarshal ToLower pattern fb
  = (fb', o) ->
  ccrnGroup fb' = ccrnGroup fb
  /\ (forall key, is_Some (crds fb !! key) -> is_Some (crds fb' !! key))
  /\ (forall key, is_Some (validators fb !! key) -> is_Some (validators fb' !! key))
  /\ (forall file, is_Some (crdsByFile fb !! file) ->
                   is_Some (crdsByFile fb' !! file)).
Proof.
  unfold LoadCRDs, LoadCRDs_result.
  destruct (Glob pattern) as [matchedFiles|]; [|intros [= <- _]; auto].
  destruct (length matchedFiles =? 0)%nat; [intros [= <- _]; auto|].
  pose proof (processFiles_writes matchedFiles fb emptyResult) as H.
  destruct (processFiles _ _ _ _ _ _ _ _) as [[fb1 result] [p|]];
    cbn [fst] in H; apply writes_frame in H as (Hg & _ & Hc & Hv & Hf).
  - intros [= <- _]. auto.
  - destruct (_ && _); intros [= <- _]; cbn; auto.
Qed.

(** X14.  [LoadCRDs] only adds to the index: whatever it returns, and also
    when it panics, every type that had a descriptor or a validator still
    has one, every file that was listed is still listed, and the group is
    the same. *)
Theorem LoadCRDs_only_adds (pattern : string) (fb fb' : Backend)
    (o : outcome backendError) :
  LoadCRDs NewSchemaValidator Glob ReadFile ScanLines Unmarshal ToLower pattern fb
  = (fb', o) ->
  ccrnGroup fb' = ccrnGroup fb
  /\ (forall key, is_Some (crds fb !! key) -> is_Some (crds fb' !! key))
  /\ (forall key, is_Some (validators fb !! key) -> is_Some (validators fb' !! key))
  /\ (forall file, is_Some (crdsByFile fb !! file) ->
                   is_Some (crdsByFile fb' !! file)).
Proof. apply LoadCRDs_frame. Qed.

Lemma LoadCRDs_paths (pattern : string) (fb fb' : Backend)
    (err : option backendError) :
  LoadCRDs NewSchemaValidator Glob ReadFile ScanLines Unmarshal ToLower pattern fb
  = (fb', Returns err) ->
  loadedPaths fb' = loadedPaths fb ++ matching Glob [pattern].
Proof.
  unfold LoadCRDs, LoadCRDs_result, matching. cbn [List.filter].
  destruct (Glob pattern) as [[|filePath rest]|];
    [intros [= <- _]; symmetry; apply app_nil_r| |
     intros [= <- _]; symmetry; apply app_nil_r].
  cbn [length Nat.eqb].
  pose proof (processFiles_writes (filePath :: rest) fb emptyResult) as H.
  destruct (processFiles _ _ _ _ _ _ _ _) as [[fb1 result] [p|]];
    cbn [fst] in H; apply writes_frame in H as (_ & Hp & _); [discriminate|].
  destruct (_ && _); intros [= <- _]; cbn; rewrite Hp; reflexivity.
Qed.

(** X12.  [LoadCRDs] that returns has added its pattern to the paths of
    the backend exactly when the pattern matched a file, also when it
    returns the error of a batch of which nothing loaded. *)
Theorem LoadCRDs_records_pattern (pattern : string) (fb fb' : Backend)
    (err : option backendError) :
  LoadCRDs NewSchemaValidator Glob ReadFile ScanLines Unmarshal ToLower pattern fb
  = (fb', Returns err) ->
  loadedPaths fb' = loadedPaths fb ++ matching Glob [pattern].
Proof. apply LoadCRDs_paths. Qed.

Lemma matching_cons (path : string) (rest : list string) :
  matching Glob (path :: rest) = matching Glob [path] ++ matching Glob rest.
Proof. unfold matching. cbn [List.filter]. destruct (Glob path) as [[|? ?]|]; reflexivity. Qed.

Lemma reloadPaths_paths (paths : list string) :
  forall (fb fb' : Backend) (allErrors allErrors' : list (string * backendError)),
    reloadPaths NewSchemaValidator Glob ReadFile ScanLines Unmarshal ToLower paths
      fb allErrors = (fb', allErrors', None) ->
    loadedPaths fb' = loadedPaths fb ++ matching Glob paths.
Proof.
  induction paths as [|path rest IH]; intros fb fb' allErrors allErrors'.
  - cbn. intros [= <- _]. symmetry. apply app_nil_r.
  - cbn [reloadPaths].
    destruct (LoadCRDs _ _ _ _ _ _ _ _) as [fb1 [err|p]] eqn:Hload;
      [|discriminate].
    apply LoadCRDs_paths in Hload.
    destruct err; intros H; apply IH in H;
      rewrite H, Hload, (matching_cons path rest), app_assoc; reflexivity.
Qed.

(** X13.  [Refresh] that returns leaves in the backend the paths it
    started from followed, once more, by those of them that still match a
    file: the reloading goes through [LoadCRDs], which records its
    pattern, so that the list grows with every refresh. *)
Theorem Refresh_repeats_paths (fb fb' : Backend) (err : option refreshError) :
  Refresh NewSchemaValidator Glob ReadFile ScanLines Unmarshal ToLower fb
  = (fb', Returns err) ->
  loadedPaths fb' = loadedPaths fb ++ matching Glob (loadedPaths fb).
Proof.
  unfold Refresh.
  destruct (length (loadedPaths fb) =? 0)%nat eqn:Hlen.
  - intros [= <- _]. apply Nat.eqb_eq in Hlen.
    destruct (loadedPaths fb); [reflexivity|discriminate].
  - cbn [Unlock clearState setValidators setCrdsByFile setCrds loadedPaths].
    destruct (reloadPaths _ _ _ _ _ _ _ _ _) as [[fb1 allErrors] [p|]] eqn:Hreload;
      [discriminate|].
    apply reloadPaths_paths in Hreload. cbn in Hreload.
    destruct (0 <? length allErrors)%nat; intros [= <- _]; exact Hreload.
Qed.

End LoadWrites.

Lemma LoadCRDs_only_adds_witness :
  is_Some (crds (exampleLoad oneVersion "crds/*.yaml" (loadedBackend oneVersion)).1.1
             !! "pod.k8s-registry.ccrn.example.com/v1").
Proof.
  destruct (LoadCRDs_only_adds buildValidator exampleGlob exampleReadFile
              exampleScanLines (decodePod oneVersion) ToLowerASCII "crds/*.yaml"
              (loadedBackend oneVersion)
              (exampleLoad oneVersion "crds/*.yaml" (loadedBackend oneVersion)).1.1
              (Returns None))
    as (_ & H & _); [vm_compute; reflexivity|].
  apply H. vm_compute. eexists. reflexivity.
Defined.

Lemma LoadCRDs_records_pattern_witness :
  loadedPaths (loadedBackend oneVersion) = ["crds/*.yaml"].
Proof.
  apply (LoadCRDs_records_pattern buildValidator exampleGlob exampleReadFile
           exampleScanLines (decodePod oneVersion) ToLowerASCII "crds/*.yaml"
           newBackend (loadedBackend oneVersion) None).
  vm_compute. reflexivity.
Defined.

Lemma Refresh_repeats_paths_witness :
  loadedPaths refreshedPod = ["crds/*.yaml"; "crds/*.yaml"].
Proof.
  apply (Refresh_repeats_paths buildValidator exampleGlob exampleReadFile
           exampleScanLines (decodePod oneVersion) ToLowerASCII
           (loadedBackend oneVersion) refreshedPod None).
  vm_compute. reflexivity.
Defined.

(** ** The filesystem backend: [GetURNTemplate] *)

Section TemplateLookup.

Context {JSONSchemaProps SchemaValidator : Type}.

Local Abbreviation Definitions := (gmap string (list (CustomResourceDefinition JSONSchemaProps))).

(** [GetURNTemplate] and [storeCRD] read the same annotation. *)
Lemma templateOf_outcome (crd : CustomResourceDefinition JSONSchemaProps)
    (name version : string) :
  match templateOf crd name version with
  | inl t => t <> EmptyString /\ extractURNTemplate crd version = t
  | inr e =>
      extractURNTemplate crd version = EmptyString
      /\ e = "URN template annotation " +:+ URNTemplateAnnotation version
               +:+ " not found in CRD " +:+ name
  end.
Proof.
  unfold templateOf, extractURNTemplate.
  destruct (crdAnnotations crd) as [annotations|]; [|auto].
  destruct (annotations !! URNTemplateAnnotation version) as [urnFormat|];
    [|auto].
  destruct (String.eqb_spec urnFormat EmptyString) as [->|Hne]; cbn [negb]; auto.
Qed.

Lemma templateOf_annotations (crd crd' : CustomResourceDefinition JSONSchemaProps)
    (name version : string) :
  crdAnnotations crd = crdAnnotations crd' ->
  templateOf crd name version = templateOf crd' name version.
Proof. unfold templateOf. intros ->. reflexivity. Qed.

(** The definitions that the two loops go through are those of the
    files, in whatever order the files are visited. *)
Lemma visited_definitions (m : Definitions)
    (visit : list (string * list (CustomResourceDefinition JSONSchemaProps)))
    (crd : CustomResourceDefinition JSONSchemaProps) :
  visit ≡ₚ map_to_list m ->
  In crd (concat visit.*2)
  <-> exists file crds, m !! file = Some crds /\ crd ∈ crds.
Proof.
  intros Hvisit. rewrite in_concat. split.
  - intros (crds & Hcrds & Hcrd).
    apply list_elem_of_In, list_elem_of_fmap in Hcrds as ([file crds'] & -> & Hin).
    rewrite Hvisit in Hin. apply elem_of_map_to_list in Hin.
    exists file, crds'. split; [exact Hin|]. apply list_elem_of_In, Hcrd.
  - intros (file & crds & Hfile & Hcrd). exists crds.
    split; [|apply list_elem_of_In, Hcrd].
    apply list_elem_of_In, list_elem_of_fmap. exists (file, crds).
    split; [reflexivity|]. rewrite Hvisit. apply elem_of_map_to_list, Hfile.
Qed.

(** X15.  What [GetURNTemplate] returns: a template, which is then not
    empty and is the annotation, for that version, of a loaded definition
    with that name, the one [storeCRD] files as [URNFormat]; or the error
    of the unknown definition, when no loaded definition has the name; or
    the error of the missing annotation, when a loaded definition with
    the name has no such annotation or an empty one. *)
Theorem GetURNTemplate_outcome (s : Snapshot JSONSchemaProps SchemaValidator)
    (name version : string) (out : string + string) :
  GetURNTemplate s name version out ->
  match out with
  | inl t =>
      t <> EmptyString
      /\ exists file crds crd,
           sCrdsByFile s !! file = Some crds /\ crd ∈ crds
           /\ crdName crd = name /\ extractURNTemplate crd version = t
  | inr e =>
      (e = "CRD " +:+ name +:+ " not found in loaded CRDs"
       /\ forall file crds crd,
            sCrdsByFile s !! file = Some crds -> crd ∈ crds ->
            crdName crd <> name)
      \/ (e = "URN template annotation " +:+ URNTemplateAnnotation version
                +:+ " not found in CRD " +:+ name
          /\ exists file crds crd,
               sCrdsByFile s !! file = Some crds /\ crd ∈ crds
               /\ crdName crd = name
               /\ extractURNTemplate crd version = EmptyString)
  end.
Proof.
  intros (visit & Hvisit & ->). unfold GetURNTemplate_visiting.
  destruct (List.find _ _) as [crd|] eqn:Hfind.
  - apply find_some in Hfind as [Hin Hname].
    apply (visited_definitions _ _ _ Hvisit) in Hin as (file & crds & Hfile & Hcrd).
    apply String.eqb_eq in Hname.
    pose proof (templateOf_outcome crd name version) as H.
    destruct (templateOf crd name version) as [t|e].
    + destruct H as [Hne Ht]. split; [exact Hne|]. eauto 8.
    + destruct H as [Ht ->]. right. split; [reflexivity|]. eauto 8.
  - left. split; [reflexivity|]. intros file crds crd Hfile Hcrd Hname.
    eapply find_none in Hfind.
    + cbn in Hfind. rewrite Hname, String.eqb_refl in Hfind. discriminate.
    + apply (visited_definitions _ _ _ Hvisit). eauto.
Qed.

(** X16.  When the loaded definitions with the name asked for carry the
    same annotations (as when there is one such definition),
    [GetURNTemplate] returns the same answer in whatever order it visits
    the files. *)
Theorem GetURNTemplate_deterministic (s : Snapshot JSONSchemaProps SchemaValidator)
    (name version : string) (out1 out2 : string + string) :
  (forall file crds crd file' crds' crd',
     sCrdsByFile s !! file = Some crds -> crd ∈ crds -> crdName crd = name ->
     sCrdsByFile s !! file' = Some crds' -> crd' ∈ crds' -> crdName crd' = name ->
     crdAnnotations crd = crdAnnotations crd') ->
  GetURNTemplate s name version out1 ->
  GetURNTemplate s name version out2 ->
  out1 = out2.
Proof.
  intros Hsame (visit1 & Hvisit1 & ->) (visit2 & Hvisit2 & ->).
  unfold GetURNTemplate_visiting.
  destruct (List.find _ (concat visit1.*2)) as [crd1|] eqn:Hfind1;
    destruct (List.find _ (concat visit2.*2)) as [crd2|] eqn:Hfind2.
  - apply find_some in Hfind1 as [Hin1 Hname1].
    apply find_some in Hfind2 as [Hin2 Hname2].
    apply (visited_definitions _ _ _ Hvisit1) in Hin1 as (f1 & l1 & Hf1 & Hc1).
    apply (visited_definitions _ _ _ Hvisit2) in Hin2 as (f2 & l2 & Hf2 & Hc2).
    apply String.eqb_eq in Hname1, Hname2.
    apply templateOf_annotations. eauto.
  - exfalso. apply find_some in Hfind1 as [Hin1 Hname1].
    apply (visited_definitions _ _ _ Hvisit1) in Hin1.
    apply (visited_definitions _ _ _ Hvisit2) in Hin1.
    eapply find_none in Hfind2; [|exact Hin1]. cbn in Hfind2. congruence.
  - exfalso. apply find_some in Hfind2 as [Hin2 Hname2].
    apply (visited_definitions _ _ _ Hvisit2) in Hin2.
    apply (visited_definitions _ _ _ Hvisit1) in Hin2.
    eapply find_none in Hfind1; [|exact Hin2]. cbn in Hfind1. congruence.
  - reflexivity.
Qed.

End TemplateLookup.

Lemma loadedBackend_files :
  crdsByFile (loadedBackend oneVersion)
  = {[ "crds/pod.yaml" := [podDefinition oneVersion] ]}.
Proof. vm_compute. reflexivity. Qed.

Lemma loadedBackend_template :
  GetURNTemplate (snapshot (loadedBackend oneVersion))
    "pods.k8s-registry.ccrn.example.com" "v1" (inl podTemplate).
Proof.
  exists [("crds/pod.yaml", [podDefinition oneVersion])]. split; [|reflexivity].
  cbn [snapshot sCrdsByFile]. rewrite loadedBackend_files, map_to_list_singleton.
  reflexivity.
Qed.

Lemma GetURNTemplate_outcome_witness :
  podTemplate <> EmptyString
  /\ exists file crds crd,
       crdsByFile (loadedBackend oneVersion) !! file = Some crds /\ crd ∈ crds
       /\ crdName crd = "pods.k8s-registry.ccrn.example.com"
       /\ extractURNTemplate crd "v1" = podTemplate.
Proof.
  exact (GetURNTemplate_outcome (snapshot (loadedBackend oneVersion))
           "pods.k8s-registry.ccrn.example.com" "v1" (inl podTemplate)
           loadedBackend_template).
Defined.

Lemma GetURNTemplate_deterministic_witness :
  inl podTemplate
  = GetURNTemplate_visiting (map_to_list (crdsByFile (loadedBackend oneVersion)))
      "pods.k8s-registry.ccrn.example.com" "v1".
Proof.
  apply (GetURNTemplate_deterministic (snapshot (loadedBackend oneVersion))
           "pods.k8s-registry.ccrn.example.com" "v1").
  - cbn [snapshot sCrdsByFile]. rewrite loadedBackend_files.
    intros file crds crd file' crds' crd' Hf Hc _ Hf' Hc' _.
    apply lookup_singleton_Some in Hf as [_ <-].
    apply lookup_singleton_Some in Hf' as [_ <-].
    apply list_elem_of_singleton in Hc, Hc'. subst. reflexivity.
  - exact loadedBackend_template.
  - exists (map_to_list (crdsByFile (loadedBackend oneVersion))).
    split; reflexivity.
Defined.

(** ** The filesystem backend: the documents of a file *)

Section SplitDocuments.

Context (ScanLines : string -> list string * bool).

Local Abbreviation separator :=
  (fun line => String.eqb (TrimSpace line) YAMLDocumentSeparator).

Lemma splitStep_documents (lines : list string) :
  forall st : list string * string,
    Forall (fun d => trimmed d = true) st.1 ->
    Forall (fun d => trimmed d = true) (foldl splitStep st lines).1
    /\ length (foldl splitStep st lines).1
       <= length st.1 + length (List.filter separator lines).
Proof.
  induction lines as [|line rest IH]; intros [documents current] Hall;
    cbn [foldl List.filter]; [split; [exact Hall|cbn; lia]|].
  unfold splitStep at 2 4. cbn [fst] in *.
  destruct (String.eqb (TrimSpace line) YAMLDocumentSeparator).
  - destruct (0 <? String.length current)%nat.
    + destruct (IH (documents ++ [TrimSpace current], EmptyString)) as [H1 H2].
      { cbn [fst]. apply Forall_app. split; [exact Hall|].
        constructor; [apply TrimSpace_trimmed|constructor]. }
      split; [exact H1|]. cbn [fst length] in *. rewrite length_app in H2.
      cbn [length] in H2. lia.
    + destruct (IH (documents, current) Hall) as [H1 H2].
      split; [exact H1|]. cbn [fst length] in *. lia.
  - apply (IH (documents, _) Hall).
Qed.

(** X17.  The documents that [splitYAMLDocuments] returns have no white
    space at their ends (a document can be empty), and there is at most
    one more of them than there are separator lines. *)
Theorem splitYAMLDocuments_trimmed (content : string) (documents : list string) :
  splitYAMLDocuments ScanLines content = Some documents ->
  Forall (fun d => trimmed d = true) documents
  /\ length documents <= S (length (List.filter separator (ScanLines content).1)).
Proof.
  unfold splitYAMLDocuments.
  destruct (String.eqb (TrimSpace content) EmptyString);
    [intros [= <-]; split; [constructor|cbn; lia]|].
  destruct (ScanLines content) as [lines failed]. cbn [fst].
  pose proof (splitStep_documents lines ([], EmptyString)) as H.
  destruct (foldl splitStep ([], EmptyString) lines) as [docs current].
  cbn [fst length] in H. destruct (H ltac:(constructor)) as [Hall Hlen].
  destruct failed; [discriminate|].
  destruct (0 <? String.length current)%nat; intros [= <-].
  - split; [|rewrite length_app; cbn [length]; lia].
    apply Forall_app. split; [exact Hall|].
    constructor; [apply TrimSpace_trimmed|constructor].
  - split; [exact Hall|lia].
Qed.

End SplitDocuments.

Lemma splitYAMLDocuments_trimmed_witness :
  Forall (fun d => trimmed d = true) ["a"; "b"]
  /\ length ["a"; "b"]
     <= S (length (List.filter
                     (fun line => String.eqb (TrimSpace line) YAMLDocumentSeparator)
                     (exampleScanLines twoDocuments).1)).
Proof.
  apply (splitYAMLDocuments_trimmed exampleScanLines twoDocuments).
  vm_compute. reflexivity.
Defined.

(** ** The filesystem backend: [LoadCRDsFromDirectory] *)

Section DirectoryFacts.

Context {JSONSchemaProps SchemaValidator : Type}.
Context (NewSchemaValidator : JSONSchemaProps -> option SchemaValidator).
Context (Glob : string -> option (list string)).
Context (ReadFile : string -> option string).
Context (ScanLines : string -> list string * bool).
Context (Unmarshal : string -> option (CustomResourceDefinition JSONSchemaProps)).
Context (ToLower : string -> string).
Context (filepathJoin : list string -> string).

Local Abbreviation Backend := (FilesystemBackend JSONSchemaProps SchemaValidator).
Local Abbreviation matched :=
  (fun pattern => exists filePath rest, Glob pattern = Some (filePath :: rest)).

Lemma LoadCRDs_nil_matched (pattern : string) (fb fb' : Backend) :
  LoadCRDs NewSchemaValidator Glob ReadFile ScanLines Unmarshal ToLower pattern fb
  = (fb', Returns None) ->
  matched pattern.
Proof.
  unfold LoadCRDs, LoadCRDs_result.
  destruct (Glob pattern) as [[|filePath rest]|]; [discriminate|eauto|discriminate].
Qed.

Lemma LoadCRDs_keeps_descriptors (pattern : string) (fb fb' : Backend)
    (o : outcome backendError) :
  LoadCRDs NewSchemaValidator Glob ReadFile ScanLines Unmarshal ToLower pattern fb
  = (fb', o) ->
  crds fb <> ∅ -> crds fb' <> ∅.
Proof.
  intros Hload Hne Hempty. apply LoadCRDs_frame in Hload as (_ & Hc & _).
  apply map_choose in Hne as (key & info & Hkey).
  destruct (Hc key) as [info' Hinfo]; [eauto|].
  rewrite Hempty, lookup_empty in Hinfo. discriminate.
Qed.

Lemma tryPatterns_inv (patterns : list string) :
  forall (fb fb' : Backend) (allErrors allErrors' : list (string * backendError))
         (totalLoaded totalLoaded' : nat),
    tryPatterns NewSchemaValidator Glob ReadFile ScanLines Unmarshal ToLower
      patterns fb allErrors totalLoaded
    = (fb', allErrors', totalLoaded', None) ->
    (totalLoaded <> 0 -> crds fb <> ∅) ->
    (totalLoaded' <> 0 -> crds fb' <> ∅)
    /\ (allErrors' = [] -> allErrors = [] /\ Forall matched patterns).
Proof.
  induction patterns as [|pattern rest IH];
    intros fb fb' allErrors allErrors' totalLoaded totalLoaded'.
  - cbn. intros [= <- <- <-] H. split; [exact H|]. intros ->. split; constructor.
  - cbn [tryPatterns].
    destruct (LoadCRDs _ _ _ _ _ _ _ _) as [fb1 [[err|]|p]] eqn:Hload;
      [| |discriminate].
    + intros Htry Hinv.
      apply IH in Htry as [H1 H2];
        [|intros H; eapply LoadCRDs_keeps_descriptors; eauto].
      split; [exact H1|]. intros He. destruct (H2 He) as [Happ _].
      apply app_eq_nil in Happ as [_ Happ]. discriminate.
    + intros Htry _.
      apply IH in Htry as [H1 H2].
      * split; [exact H1|]. intros He. destruct (H2 He) as [-> Hrest].
        split; [reflexivity|]. constructor; [|exact Hrest].
        eapply LoadCRDs_nil_matched, Hload.
      * intros Hsize Hempty. apply Hsize. rewrite Hempty. apply map_size_empty.
Qed.

(** X18.  When [LoadCRDsFromDirectory] returns no error, the index is not
    empty, or each of its four patterns ([*.yaml] and [*.yml], in the
    directory and under [**]) has matched a file. *)
Theorem LoadCRDsFromDirectory_success (dir : string) (fb fb' : Backend) :
  LoadCRDsFromDirectory NewSchemaValidator Glob ReadFile ScanLines Unmarshal
    ToLower filepathJoin dir fb = (fb', Returns None) ->
  crds fb' <> ∅ \/ Forall matched (directoryPatterns filepathJoin dir).
Proof.
  unfold LoadCRDsFromDirectory.
  destruct (tryPatterns _ _ _ _ _ _ _ _ _ _)
    as [[[fb1 allErrors] totalLoaded] [p|]] eqn:Htry; [discriminate|].
  apply tryPatterns_inv in Htry as [Hloaded Hmatched]; [|congruence].
  destruct (totalLoaded =? 0)%nat eqn:Hzero;
    [apply Nat.eqb_eq in Hzero|apply Nat.eqb_neq in Hzero].
  - destruct allErrors as [|e l]; cbn; [|discriminate].
    intros [= <-]. right. apply Hmatched. reflexivity.
  - cbn. intros [= <-]. left. auto.
Qed.

End DirectoryFacts.

Lemma LoadCRDsFromDirectory_success_witness :
  crds (LoadCRDsFromDirectory buildValidator exampleGlob exampleReadFile
          exampleScanLines (decodePod oneVersion) ToLowerASCII joinWithSlash
          "crds" newBackend).1 <> ∅
  \/ Forall (fun pattern => exists filePath rest,
                              exampleGlob pattern = Some (filePath :: rest))
       (directoryPatterns joinWithSlash "crds").
Proof.
  apply (LoadCRDsFromDirectory_success buildValidator exampleGlob exampleReadFile
           exampleScanLines (decodePod oneVersion) ToLowerASCII joinWithSlash
           "crds" newBackend).
  vm_compute. reflexivity.
Defined.

(** ** The Kubernetes backend *)

Section KubernetesFacts.

Context {JSONSchemaProps SchemaValidator : Type}.
Context (NewSchemaValidator : JSONSchemaProps -> option SchemaValidator).
Context (ToLower : string -> string).

Local Abbreviation Cache := (gmap string (CRDInfo JSONSchemaProps)).
Local Abbreviation servedKeys crd versions :=
  (List.map (fun version => Kubernetes.getCRDKeyFromCRD ToLower crd (vName version))
     (List.filter vServed versions)).

(** X19.  The two backends index a definition in the same way: the loop
    of the Kubernetes [Refresh] over the versions of a definition leaves
    in the cache the descriptors that [storeCRD] leaves in the index of
    the filesystem backend, under the same keys, and it panics on the
    same definitions. *)
Theorem kubernetes_files_what_storeCRD_files
    (crd : CustomResourceDefinition JSONSchemaProps)
    (versions : list (CustomResourceDefinitionVersion JSONSchemaProps))
    (fb : FilesystemBackend JSONSchemaProps SchemaValidator) :
  Kubernetes.refreshVersions ToLower crd versions (crds fb)
  = (crds (storeVersions NewSchemaValidator ToLower crd versions fb).1,
     (storeVersions NewSchemaValidator ToLower crd versions fb).2).
Proof.
  revert fb. induction versions as [|version rest IH]; intros fb;
    cbn [Kubernetes.refreshVersions storeVersions]; [reflexivity|].
  destruct (vServed version); cbn [negb]; [|apply IH].
  destruct (vSchema version) as [schema|]; [|reflexivity].
  rewrite <- IH, createSchemaValidator_crds. reflexivity.
Qed.

Lemma refreshVersions_keys (crd : CustomResourceDefinition JSONSchemaProps)
    (versions : list (CustomResourceDefinitionVersion JSONSchemaProps)) :
  forall (cache cache' : Cache),
    Kubernetes.refreshVersions ToLower crd versions cache = (cache', None) ->
    forall key,
      is_Some (cache' !! key)
      <-> is_Some (cache !! key) \/ In key (servedKeys crd versions).
Proof.
  induction versions as [|version rest IH]; intros cache cache';
    cbn [Kubernetes.refreshVersions List.filter].
  - intros [= <-] key. cbn. tauto.
  - destruct (vServed version); [|apply IH].
    destruct (vSchema version) as [schema|]; [|discriminate].
    intros H key. rewrite (IH _ _ H key), lookup_insert_is_Some. cbn [List.map In].
    destruct (decide (Kubernetes.getCRDKeyFromCRD ToLower crd (vName version) = key));
      tauto.
Qed.

Lemma refreshItems_keys (group : string)
    (items : list (CustomResourceDefinition JSONSchemaProps)) :
  forall (cache cache' : Cache),
    Kubernetes.refreshItems ToLower group items cache = (cache', None) ->
    forall key,
      is_Some (cache' !! key)
      <-> is_Some (cache !! key) \/ In key (Kubernetes.listedKeys ToLower group items).
Proof.
  unfold Kubernetes.listedKeys.
  induction items as [|crd rest IH]; intros cache cache';
    cbn [Kubernetes.refreshItems List.filter].
  - intros [= <-] key. cbn. tauto.
  - destruct (Contains (specGroup crd) group); [|apply IH].
    destruct (Kubernetes.refreshVersions ToLower crd (specVersions crd) cache)
      as [cache1 [p|]] eqn:Hversions; [discriminate|].
    intros H key. rewrite (IH _ _ H key), (refreshVersions_keys _ _ _ _ Hversions key).
    cbn [flat_map]. rewrite in_app_iff. tauto.
Qed.

(** X20.  A [Refresh] of the Kubernetes backend that returns without an
    error leaves in the cache the served versions of the listed
    definitions of the group and nothing else, whatever the cache held
    before; the cache is released once, complete. *)
Theorem Refresh_replaces_cache
    (items : list (CustomResourceDefinition JSONSchemaProps))
    (kb kb' : Kubernetes.KubernetesBackend) :
  Kubernetes.Refresh ToLower (Some items) kb = (kb', Returns None) ->
  (forall key,
     Kubernetes.IsResourceTypeSupported kb' key = true
     <-> In key (Kubernetes.listedKeys ToLower (Kubernetes.ccrnGroup kb) items))
  /\ Kubernetes.released kb' = Kubernetes.released kb ++ [Kubernetes.ccrns kb']
  /\ Kubernetes.ccrnGroup kb' = Kubernetes.ccrnGroup kb.
Proof.
  unfold Kubernetes.Refresh.
  destruct (Kubernetes.refreshItems ToLower (Kubernetes.ccrnGroup kb) items ∅)
    as [cache [p|]] eqn:Hitems; [discriminate|].
  intros [= <-]. cbn. split; [|auto].
  intros key. unfold Kubernetes.IsResourceTypeSupported. cbn.
  rewrite bool_decide_eq_true, (refreshItems_keys _ _ _ _ Hitems key), lookup_empty.
  split; [intros [[? [=]]|H]; exact H|auto].
Qed.

(** X21.  [GetCRD] of the Kubernetes backend returns the error of the
    unknown type only for a type that is not in the cache and, the cache
    having been refreshed, is no served version of a listed definition of
    the group; when the listing fails, the cache is left as it was. *)
Theorem GetCRD_not_found
    (listed : option (list (CustomResourceDefinition JSONSchemaProps)))
    (kb kb' : Kubernetes.KubernetesBackend) (crdVersion : string)
    (e : Kubernetes.kubernetesError) :
  Kubernetes.GetCRD ToLower listed kb crdVersion = (kb', Return (inr e)) ->
  e = Kubernetes.NotFound crdVersion
  /\ Kubernetes.ccrns kb !! crdVersion = None
  /\ match listed with
     | None => kb' = kb
     | Some items =>
         ~ In crdVersion
             (Kubernetes.listedKeys ToLower (Kubernetes.ccrnGroup kb) items)
     end.
Proof.
  unfold Kubernetes.GetCRD, Kubernetes.Refresh.
  destruct (Kubernetes.ccrns kb !! crdVersion) as [info|] eqn:Hcached;
    [discriminate|].
  destruct listed as [items|].
  - destruct (Kubernetes.refreshItems ToLower (Kubernetes.ccrnGroup kb) items ∅)
      as [cache [p|]] eqn:Hitems; [discriminate|]. cbn [Kubernetes.ccrns].
    destruct (cache !! crdVersion) as [info|] eqn:Hfresh; [discriminate|].
    intros [= <- <-]. repeat split. intros Hin.
    assert (H : is_Some (cache !! crdVersion))
      by (apply (refreshItems_keys _ _ _ _ Hitems); auto).
    rewrite Hfresh in H. destruct H as [? [=]].
  - rewrite Hcached. intros [= <- <-]. auto.
Qed.

End KubernetesFacts.

Lemma Refresh_replaces_cache_witness :
  Kubernetes.IsResourceTypeSupported
    (Kubernetes.Refresh ToLowerASCII (Some [podDefinition oneVersion]) staleCache).1
    "pod.k8s-registry.ccrn.example.com/v1" = true
  /\ ~ Kubernetes.IsResourceTypeSupported
         (Kubernetes.Refresh ToLowerASCII (Some [podDefinition oneVersion])
            staleCache).1
         "old.k8s-registry.ccrn.example.com/v1" = true.
Proof.
  destruct (Refresh_replaces_cache ToLowerASCII [podDefinition oneVersion]
              staleCache
              (Kubernetes.Refresh ToLowerASCII (Some [podDefinition oneVersion])
                 staleCache).1)
    as [H _]; [reflexivity|].
  split.
  - apply H. vm_compute. left. reflexivity.
  - intros Hold. apply H in Hold. vm_compute in Hold.
    destruct Hold as [Hold|[]]. discriminate.
Defined.

Lemma GetCRD_not_found_witness :
  ~ In "job.k8s-registry.ccrn.example.com/v1"
      (Kubernetes.listedKeys ToLowerASCII "ccrn.example.com"
         [podDefinition oneVersion]).
Proof.
  destruct (GetCRD_not_found ToLowerASCII (Some [podDefinition oneVersion])
              staleCache
              (Kubernetes.GetCRD ToLowerASCII (Some [podDefinition oneVersion])
                 staleCache "job.k8s-registry.ccrn.example.com/v1").1
              "job.k8s-registry.ccrn.example.com/v1"
              (Kubernetes.NotFound "job.k8s-registry.ccrn.example.com/v1"))
    as (_ & _ & H); [vm_compute; reflexivity|exact H].
Defined.

(** ** [CCRNValidator.ValidateCCRN] *)

Section ValidatorFacts.

Context {JSONSchemaProps : Type}.
Context (backend : @CCRNValidator.ValidationBackend JSONSchemaProps).

(** X22.  [ValidateCCRN] reports a valid resource exactly when its input
    is a field list that parses, the backend supports the type under its
    [ccrn] and [ValidateResource] accepts the parsed resource; the result
    then carries that resource and no error. *)
Theorem ValidateCCRN_valid_iff (fuel : nat) (ccrnStr : string)
    (res : CCRNValidator.ValidationResult) (err : option string) :
  CCRNValidator.ValidateCCRN backend fuel ccrnStr = Some (Return (res, err))
  /\ CCRNValidator.Valid res = true
  <-> exists fields,
        parseCCRNFields ccrnStr = Ok fields
        /\ let p := {| Format := "CCRN"; Fields := fields; Raw := ccrnStr;
                       UrnTemplate := EmptyString |} in
           CCRNValidator.IsResourceTypeSupported backend (CCRNKey p) = true
           /\ CCRNValidator.ValidateResource backend EmptyString (Some p) = None
           /\ res = {| CCRNValidator.Valid := true;
                       CCRNValidator.ParsedCCRN := Some p;
                       CCRNValidator.Errors := [];
                       CCRNValidator.Warnings := [] |}
           /\ err = None.
Proof.
  unfold CCRNValidator.ValidateCCRN.
  destruct (Parse (CCRNValidator.GetURNTemplate backend) fuel ccrnStr
              DEFAULT_URN_TEMPLATE) as [[p|e|q]|] eqn:HP.
  - apply Parse_Ok_inv in HP as (fields & Hfields & ->).
    cbn [Format]. change (String.eqb "CCRN" "URN") with false. cbv iota.
    unfold CCRNValidator.checkResource.
    split.
    + intros [Hres Hvalid]. exists fields. split; [exact Hfields|]. cbv zeta.
      destruct (CCRNValidator.IsResourceTypeSupported backend _); cbn [negb] in *.
      * destruct (CCRNValidator.ValidateResource backend _ _).
        -- injection Hres as <- <-. discriminate.
        -- injection Hres as <- <-. auto.
      * injection Hres as <- <-. discriminate.
    + intros (fields' & Hfields' & Hsup & Hval & -> & ->).
      rewrite Hfields in Hfields'. injection Hfields' as <-. cbv zeta in *.
      rewrite Hsup, Hval. cbn [negb]. auto.
  - split; [intros [[= <- <-] H]; discriminate|].
    intros (fields & Hfields & _). exfalso.
    assert (H : Parse (CCRNValidator.GetURNTemplate backend) fuel ccrnStr
                  DEFAULT_URN_TEMPLATE = Some (Ok _))
      by (apply Parse_Ok_inv; eauto).
    congruence.
  - split; [intros [[=] _]|].
    intros (fields & Hfields & _). exfalso.
    assert (H : Parse (CCRNValidator.GetURNTemplate backend) fuel ccrnStr
                  DEFAULT_URN_TEMPLATE = Some (Ok _))
      by (apply Parse_Ok_inv; eauto).
    congruence.
  - split; [intros [[=] _]|].
    intros (fields & Hfields & _). exfalso.
    assert (H : Parse (CCRNValidator.GetURNTemplate backend) fuel ccrnStr
                  DEFAULT_URN_TEMPLATE = Some (Ok _))
      by (apply Parse_Ok_inv; eauto).
    congruence.
Qed.

End ValidatorFacts.

(** ** The filesystem backend: a refresh is a reload *)

Section Reload.

Context {JSONSchemaProps SchemaValidator : Type}.
Context (NewSchemaValidator : JSONSchemaProps -> option SchemaValidator).
Context (Glob : string -> option (list string)).
Context (ReadFile : string -> option string).
Context (ScanLines : string -> list string * bool).
Context (Unmarshal : string -> option (CustomResourceDefinition JSONSchemaProps)).
Context (ToLower : string -> string).

Local Abbreviation Backend := (FilesystemBackend JSONSchemaProps SchemaValidator).

(** The loading of a batch reads nothing of the backend but its maps and
    its group: from two backends that agree on these it goes the same
    way. *)
Lemma createSchemaValidator_same (crdKey : string)
    (version : CustomResourceDefinitionVersion JSONSchemaProps)
    (fb1 fb2 : Backend) :
  index fb1 = index fb2 ->
  index (createSchemaValidator NewSchemaValidator crdKey version fb1).1
  = index (createSchemaValidator NewSchemaValidator crdKey version fb2).1.
Proof.
  unfold createSchemaValidator, index. intros H.
  destruct (vSchema version) as [[schema|]|]; try exact H.
  destruct (NewSchemaValidator schema); [|exact H]. cbn. congruence.
Qed.

Lemma storeVersions_same (crd : CustomResourceDefinition JSONSchemaProps)
    (versions : list (CustomResourceDefinitionVersion JSONSchemaProps)) :
  forall fb1 fb2 : Backend,
    index fb1 = index fb2 ->
    index (storeVersions NewSchemaValidator ToLower crd versions fb1).1
    = index (storeVersions NewSchemaValidator ToLower crd versions fb2).1
    /\ (storeVersions NewSchemaValidator ToLower crd versions fb1).2
       = (storeVersions NewSchemaValidator ToLower crd versions fb2).2.
Proof.
  induction versions as [|version rest IH]; intros fb1 fb2 H;
    cbn [storeVersions]; [auto|].
  destruct (negb (vServed version)); [apply IH, H|].
  destruct (vSchema version) as [schema|]; [|auto].
  apply IH, createSchemaValidator_same. unfold index in *. cbn. congruence.
Qed.

Lemma storeCRD_same (crd : CustomResourceDefinition JSONSchemaProps)
    (fb1 fb2 : Backend) :
  index fb1 = index fb2 ->
  index (storeCRD NewSchemaValidator ToLower crd fb1).1
  = index (storeCRD NewSchemaValidator ToLower crd fb2).1
  /\ (storeCRD NewSchemaValidator ToLower crd fb1).2
     = (storeCRD NewSchemaValidator ToLower crd fb2).2.
Proof.
  intros H. unfold storeCRD.
  destruct (storeVersions_same crd (specVersions crd) fb1 fb2 H) as [Hi Hp].
  destruct (storeVersions NewSchemaValidator ToLower crd (specVersions crd) fb1),
    (storeVersions NewSchemaValidator ToLower crd (specVersions crd) fb2).
  cbn in *. auto.
Qed.

Lemma processSingleDocument_same (document : string) (fb1 fb2 : Backend) :
  index fb1 = index fb2 ->
  index (processSingleDocument NewSchemaValidator Unmarshal ToLower document fb1).1
  = index (processSingleDocument NewSchemaValidator Unmarshal ToLower document fb2).1
  /\ (processSingleDocument NewSchemaValidator Unmarshal ToLower document fb1).2
     = (processSingleDocument NewSchemaValidator Unmarshal ToLower document fb2).2.
Proof.
  intros H. unfold processSingleDocument.
  destruct (Unmarshal document) as [crd|]; [|auto].
  destruct (validateCRDStructure crd); [auto|].
  assert (Hg : isCCRNRelevant fb1 crd = isCCRNRelevant fb2 crd).
  { unfold isCCRNRelevant. unfold index in H. congruence. }
  rewrite Hg. destruct (negb (isCCRNRelevant fb2 crd)); [auto|].
  destruct (storeCRD_same crd fb1 fb2 H) as [Hi Hp].
  destruct (storeCRD NewSchemaValidator ToLower crd fb1) as [fb1' p1],
    (storeCRD NewSchemaValidator ToLower crd fb2) as [fb2' p2].
  cbn in Hi, Hp. subst p2. destruct p1; auto.
Qed.

Lemma processDocuments_same (filePath : string) (documents : list string) :
  forall (i : nat) (fb1 fb2 : Backend) (result : CRDLoadingResult)
         (loadedCRDs : list (CustomResourceDefinition JSONSchemaProps)),
    index fb1 = index fb2 ->
    let r1 := processDocuments NewSchemaValidator Unmarshal ToLower filePath i
                documents fb1 result loadedCRDs in
    let r2 := processDocuments NewSchemaValidator Unmarshal ToLower filePath i
                documents fb2 result loadedCRDs in
    index r1.1.1.1 = index r2.1.1.1 /\ r1.1.1.2 = r2.1.1.2
    /\ r1.1.2 = r2.1.2 /\ r1.2 = r2.2.
Proof.
  induction documents as [|document rest IH];
    intros i fb1 fb2 result loadedCRDs H; cbv zeta; cbn [processDocuments];
    [cbn; auto|].
  destruct (isEmptyDocument document); [apply IH, H|].
  destruct (processSingleDocument_same document fb1 fb2 H) as [Hi Ho].
  destruct (processSingleDocument NewSchemaValidator Unmarshal ToLower document fb1)
    as [fb1' o1],
    (processSingleDocument NewSchemaValidator Unmarshal ToLower document fb2)
    as [fb2' o2].
  cbn [fst snd] in Hi, Ho. subst o2.
  destruct o1; [apply IH, Hi..|cbn; auto].
Qed.

Lemma processFile_same (filePath : string) (fb1 fb2 : Backend)
    (result : CRDLoadingResult) :
  index fb1 = index fb2 ->
  let r1 := processFile NewSchemaValidator ReadFile ScanLines Unmarshal ToLower
              filePath fb1 result in
  let r2 := processFile NewSchemaValidator ReadFile ScanLines Unmarshal ToLower
              filePath fb2 result in
  index r1.1.1 = index r2.1.1 /\ r1.1.2 = r2.1.2 /\ r1.2 = r2.2.
Proof.
  intros H. cbv zeta. unfold processFile.
  destruct (ReadFile filePath) as [fileContent|]; [|cbn; auto].
  destruct (splitYAMLDocuments ScanLines fileContent) as [documents|];
    [|cbn; auto].
  destruct (processDocuments_same filePath documents 0 fb1 fb2 (countFile result)
              [] H) as (Hi & Hr & Hl & Hp).
  destruct (processDocuments _ _ _ _ _ _ fb1 _ _) as [[[fb1' result1] loaded1] p1],
    (processDocuments _ _ _ _ _ _ fb2 _ _) as [[[fb2' result2] loaded2] p2].
  cbn [fst snd] in Hi, Hr, Hl, Hp. subst result2 loaded2 p2.
  destruct p1; [cbn; auto|].
  destruct (0 <? length loaded1)%nat; cbn; [|auto].
  split; [|auto]. unfold index in *. cbn. congruence.
Qed.

Lemma processFiles_same (matchedFiles : list string) :
  forall (fb1 fb2 : Backend) (result : CRDLoadingResult),
    index fb1 = index fb2 ->
    let r1 := processFiles NewSchemaValidator ReadFile ScanLines Unmarshal ToLower
                matchedFiles fb1 result in
    let r2 := processFiles NewSchemaValidator ReadFile ScanLines Unmarshal ToLower
                matchedFiles fb2 result in
    index r1.1.1 = index r2.1.1 /\ r1.1.2 = r2.1.2 /\ r1.2 = r2.2.
Proof.
  induction matchedFiles as [|filePath rest IH]; intros fb1 fb2 result H;
    cbv zeta; cbn [processFiles]; [cbn; auto|].
  destruct (isYAMLFile ToLower filePath); [|apply IH, H].
  destruct (processFile_same filePath fb1 fb2 result H) as (Hi & Hr & Hp).
  destruct (processFile _ _ _ _ _ _ fb1 _) as [[fb1' result1] p1],
    (processFile _ _ _ _ _ _ fb2 _) as [[fb2' result2] p2].
  cbn [fst snd] in Hi, Hr, Hp. subst result2 p2.
  destruct p1; [cbn; auto|apply IH, Hi].
Qed.

Lemma LoadCRDs_same (pattern : string) (fb1 fb2 : Backend) :
  index fb1 = index fb2 ->
  index (LoadCRDs NewSchemaValidator Glob ReadFile ScanLines Unmarshal ToLower
           pattern fb1).1
  = index (LoadCRDs NewSchemaValidator Glob ReadFile ScanLines Unmarshal ToLower
             pattern fb2).1
  /\ (LoadCRDs NewSchemaValidator Glob ReadFile ScanLines Unmarshal ToLower
        pattern fb1).2
     = (LoadCRDs NewSchemaValidator Glob ReadFile ScanLines Unmarshal ToLower
          pattern fb2).2.
Proof.
  intros H. unfold LoadCRDs, LoadCRDs_result.
  destruct (Glob pattern) as [matchedFiles|]; [|cbn; auto].
  destruct (length matchedFiles =? 0)%nat; [cbn; auto|].
  destruct (processFiles_same matchedFiles fb1 fb2 emptyResult H) as (Hi & Hr & Hp).
  destruct (processFiles _ _ _ _ _ _ fb1 _) as [[fb1' result1] p1],
    (processFiles _ _ _ _ _ _ fb2 _) as [[fb2' result2] p2].
  cbn [fst snd] in Hi, Hr, Hp. subst result2 p2.
  destruct p1; [cbn; auto|].
  destruct (_ && _); cbn; (split; [|reflexivity]); unfold index in *; cbn;
    congruence.
Qed.

(** A pattern that matches no file leaves the backend as it is. *)
Lemma LoadCRDs_unmatched (pattern : string) (fb : Backend) :
  matching Glob [pattern] = [] ->
  (LoadCRDs NewSchemaValidator Glob ReadFile ScanLines Unmarshal ToLower
     pattern fb).1 = fb.
Proof.
  unfold matching, LoadCRDs, LoadCRDs_result. cbn [List.filter].
  destruct (Glob pattern) as [[|filePath rest]|]; [reflexivity|discriminate|reflexivity].
Qed.

Lemma matching_one (pattern : string) :
  matching Glob [pattern] = [] \/ matching Glob [pattern] = [pattern].
Proof.
  unfold matching. cbn [List.filter].
  destruct (Glob pattern) as [[|filePath rest]|]; auto.
Qed.

Lemma reloadPaths_snoc (paths : list string) (pattern : string) :
  forall (fb fb1 fb' : Backend) (allErrors allErrors1 : list (string * backendError))
         (err : option backendError),
    reloadPaths NewSchemaValidator Glob ReadFile ScanLines Unmarshal ToLower paths
      fb allErrors = (fb1, allErrors1, None) ->
    LoadCRDs NewSchemaValidator Glob ReadFile ScanLines Unmarshal ToLower pattern fb1
    = (fb', Returns err) ->
    exists allErrors',
      reloadPaths NewSchemaValidator Glob ReadFile ScanLines Unmarshal ToLower
        (paths ++ [pattern]) fb allErrors = (fb', allErrors', None).
Proof.
  induction paths as [|path rest IH];
    intros fb fb1 fb' allErrors allErrors1 err.
  - cbn [reloadPaths app]. intros [= <- <-] ->. destruct err; eauto.
  - cbn [reloadPaths app].
    destruct (LoadCRDs _ _ _ _ _ _ path fb) as [fb2 [[e|]|p]]; [| |discriminate];
      apply IH.
Qed.

(** The index of a backend made by loads is the one that loading its
    paths again, from empty maps, gives. *)
Lemma built_reloads (fb : Backend) :
  built NewSchemaValidator Glob ReadFile ScanLines Unmarshal ToLower fb ->
  forall fb0 : Backend,
    index fb0 = (∅, ∅, ∅, ccrnGroup fb) ->
    exists fbc allErrors,
      reloadPaths NewSchemaValidator Glob ReadFile ScanLines Unmarshal ToLower
        (loadedPaths fb) fb0 [] = (fbc, allErrors, None)
      /\ index fbc = index fb.
Proof.
  induction 1 as [group|fb pattern fb' err _ IH Hload]; intros fb0 H0.
  - exists fb0, []. split; [reflexivity|exact H0].
  - pose proof (LoadCRDs_frame _ _ _ _ _ _ _ _ _ _ Hload) as (Hgroup & _).
    pose proof (LoadCRDs_paths _ _ _ _ _ _ _ _ _ _ Hload) as Hpaths.
    rewrite Hgroup in H0. destruct (IH fb0 H0) as (fbc & allErrors & Hreload & Hc).
    rewrite Hpaths. destruct (matching_one pattern) as [Hm|Hm]; rewrite Hm.
    + rewrite app_nil_r. exists fbc, allErrors. split; [exact Hreload|].
      rewrite Hc. f_equal. symmetry.
      rewrite <- (LoadCRDs_unmatched pattern fb Hm), Hload. reflexivity.
    + destruct (LoadCRDs_same pattern fbc fb Hc) as [Hi Ho].
      rewrite Hload in Hi, Ho. cbn [fst snd] in Hi, Ho.
      destruct (LoadCRDs NewSchemaValidator Glob ReadFile ScanLines Unmarshal
                  ToLower pattern fbc) as [fbc' o] eqn:Hloadc.
      cbn [fst snd] in Hi, Ho. subst o.
      destruct (reloadPaths_snoc _ _ _ _ _ _ _ _ Hreload Hloadc) as [allErrors' H'].
      exists fbc', allErrors'. auto.
Qed.

(** X23.  On a backend made by [NewOfflineBackend] and calls of
    [LoadCRDs] that returned, [Refresh] returns, and it leaves the three
    maps as they were: the files being what they were, the index that is
    cleared and loaded again is the same index. *)
Theorem Refresh_reloads_index (fb fb' : Backend) (out : outcome refreshError) :
  built NewSchemaValidator Glob ReadFile ScanLines Unmarshal ToLower fb ->
  Refresh NewSchemaValidator Glob ReadFile ScanLines Unmarshal ToLower fb
  = (fb', out) ->
  (exists err, out = Returns err) /\ snapshot fb' = snapshot fb.
Proof.
  intros Hbuilt. unfold Refresh.
  destruct (length (loadedPaths fb) =? 0)%nat; [intros [= <- <-]; eauto|].
  destruct (built_reloads fb Hbuilt (Unlock (clearState fb)) eq_refl)
    as (fbc & allErrors & Hreload & Hc).
  cbn [Unlock clearState setValidators setCrdsByFile setCrds loadedPaths] in *.
  rewrite Hreload.
  assert (Hs : snapshot fbc = snapshot fb).
  { unfold snapshot. unfold index in Hc. injection Hc as -> -> -> _. reflexivity. }
  destruct (0 <? length allErrors)%nat; intros [= <- <-]; eauto.
Qed.

End Reload.

Lemma loadedBackend_built :
  built buildValidator exampleGlob exampleReadFile exampleScanLines
    (decodePod oneVersion) ToLowerASCII (loadedBackend oneVersion).
Proof.
  apply (built_load _ _ _ _ _ _ newBackend "crds/*.yaml" _ None).
  - apply built_new.
  - vm_compute. reflexivity.
Qed.

Lemma Refresh_reloads_index_witness :
  snapshot refreshedPod = snapshot (loadedBackend oneVersion).
Proof.
  destruct (Refresh_reloads_index buildValidator exampleGlob exampleReadFile
              exampleScanLines (decodePod oneVersion) ToLowerASCII
              (loadedBackend oneVersion) refreshedPod (Returns None))
    as [_ H]; [exact loadedBackend_built|vm_compute; reflexivity|exact H].
Defined.

(** ** The filesystem backend: descriptors and the files they come from *)

Section DescriptorsAndFiles.

Context {JSONSchemaProps SchemaValidator : Type}.
Context (NewSchemaValidator : JSONSchemaProps -> option SchemaValidator).
Context (Glob : string -> option (list string)).
Context (ReadFile : string -> option string).
Context (ScanLines : string -> list string * bool).
Context (Unmarshal : string -> option (CustomResourceDefinition JSONSchemaProps)).
Context (ToLower : string -> string).

Local Abbreviation Backend := (FilesystemBackend JSONSchemaProps SchemaValidator).
Local Abbreviation keyOf crd version :=
  (getCRDKey ToLower (specGroup crd) (vName version) (namesKind crd)).

(** [info] is a descriptor of the definition [crd]. *)
Local Abbreviation describes crd info :=
  (crdName crd = infoName info
   /\ extractURNTemplate crd (infoVersion info) = infoURNFormat info).

(** Every descriptor is one of a listed definition, or of a definition of
    the file that is being read. *)
Local Abbreviation described fb pending :=
  (forall (key : string) (info : CRDInfo JSONSchemaProps),
     crds fb !! key = Some info ->
     (exists (file : string) (crds : list (CustomResourceDefinition JSONSchemaProps))
             (crd : CustomResourceDefinition JSONSchemaProps),
        crdsByFile fb !! file = Some crds /\ crd ∈ crds /\ describes crd info)
     \/ (exists crd : CustomResourceDefinition JSONSchemaProps,
           crd ∈ pending /\ describes crd info)).

(** What is listed for a file is what reading the file gives. *)
Local Abbreviation listed_as_read fb :=
  (forall (filePath : string)
          (loadedCRDs : list (CustomResourceDefinition JSONSchemaProps)),
     crdsByFile fb !! filePath = Some loadedCRDs ->
     exists fileContent documents,
       ReadFile filePath = Some fileContent
       /\ splitYAMLDocuments ScanLines fileContent = Some documents
       /\ forall (fb0 : Backend) (result0 : CRDLoadingResult),
            ccrnGroup fb0 = ccrnGroup fb ->
            (processDocuments NewSchemaValidator Unmarshal ToLower filePath 0
               documents fb0 result0 []).1.2 = loadedCRDs
            /\ (processDocuments NewSchemaValidator Unmarshal ToLower filePath 0
                  documents fb0 result0 []).2 = None).

Lemma storeVersions_panic_same (crd : CustomResourceDefinition JSONSchemaProps)
    (versions : list (CustomResourceDefinitionVersion JSONSchemaProps)) :
  forall fb1 fb2 : Backend,
    (storeVersions NewSchemaValidator ToLower crd versions fb1).2
    = (storeVersions NewSchemaValidator ToLower crd versions fb2).2.
Proof.
  induction versions as [|version rest IH]; intros fb1 fb2; cbn [storeVersions];
    [reflexivity|].
  destruct (negb (vServed version)); [apply IH|].
  destruct (vSchema version); [apply IH|reflexivity].
Qed.

Lemma processSingleDocument_outcome_same (document : string) (fb1 fb2 : Backend) :
  ccrnGroup fb1 = ccrnGroup fb2 ->
  (processSingleDocument NewSchemaValidator Unmarshal ToLower document fb1).2
  = (processSingleDocument NewSchemaValidator Unmarshal ToLower document fb2).2.
Proof.
  intros Hg. unfold processSingleDocument.
  destruct (Unmarshal document) as [crd|]; [|reflexivity].
  destruct (validateCRDStructure crd); [reflexivity|].
  unfold isCCRNRelevant. rewrite Hg.
  destruct (negb (Contains (specGroup crd) (ccrnGroup fb2))); [reflexivity|].
  unfold storeCRD.
  pose proof (storeVersions_panic_same crd (specVersions crd) fb1 fb2) as Hp.
  destruct (storeVersions NewSchemaValidator ToLower crd (specVersions crd) fb1)
    as [fb1' p1],
    (storeVersions NewSchemaValidator ToLower crd (specVersions crd) fb2)
    as [fb2' p2].
  cbn [snd] in Hp. subst p2. destruct p1; reflexivity.
Qed.

Lemma processSingleDocument_group (document : string) (fb : Backend) :
  ccrnGroup (processSingleDocument NewSchemaValidator Unmarshal ToLower document fb).1
  = ccrnGroup fb.
Proof.
  apply (writes_frame _ _ (processSingleDocument_writes _ _ _ document fb)).
Qed.

(** The definitions that the loop over the documents of a file gathers
    depend on the group only. *)
Lemma processDocuments_loaded_same (filePath : string) (documents : list string) :
  forall (i : nat) (fb1 fb2 : Backend) (result1 result2 : CRDLoadingResult)
         (loadedCRDs : list (CustomResourceDefinition JSONSchemaProps)),
    ccrnGroup fb1 = ccrnGroup fb2 ->
    (processDocuments NewSchemaValidator Unmarshal ToLower filePath i documents
       fb1 result1 loadedCRDs).1.2
    = (processDocuments NewSchemaValidator Unmarshal ToLower filePath i documents
         fb2 result2 loadedCRDs).1.2
    /\ (processDocuments NewSchemaValidator Unmarshal ToLower filePath i documents
          fb1 result1 loadedCRDs).2
       = (processDocuments NewSchemaValidator Unmarshal ToLower filePath i documents
            fb2 result2 loadedCRDs).2.
Proof.
  induction documents as [|document rest IH];
    intros i fb1 fb2 result1 result2 loadedCRDs Hg; cbn [processDocuments];
    [auto|].
  destruct (isEmptyDocument document); [apply IH, Hg|].
  pose proof (processSingleDocument_outcome_same document fb1 fb2 Hg) as Ho.
  pose proof (processSingleDocument_group document fb1) as Hg1.
  pose proof (processSingleDocument_group document fb2) as Hg2.
  destruct (processSingleDocument NewSchemaValidator Unmarshal ToLower document fb1)
    as [fb1' o1],
    (processSingleDocument NewSchemaValidator Unmarshal ToLower document fb2)
    as [fb2' o2].
  cbn [fst snd] in *. subst o2.
  destruct o1; [apply IH; congruence..|auto].
Qed.

Lemma storeVersions_files (crd : CustomResourceDefinition JSONSchemaProps)
    (versions : list (CustomResourceDefinitionVersion JSONSchemaProps)) :
  forall fb : Backend,
    crdsByFile (storeVersions NewSchemaValidator ToLower crd versions fb).1
    = crdsByFile fb.
Proof.
  induction versions as [|version rest IH]; intros fb; cbn [storeVersions];
    [reflexivity|].
  destruct (negb (vServed version)); [apply IH|].
  destruct (vSchema version) as [schema|]; [|reflexivity].
  rewrite IH. unfold createSchemaValidator. cbn [vSchema].
  destruct (vSchema version) as [[s|]|]; try reflexivity.
  destruct (NewSchemaValidator s); reflexivity.
Qed.

Lemma processSingleDocument_described (document : string) (fb fb' : Backend)
    (o : documentOutcome JSONSchemaProps)
    (pending : list (CustomResourceDefinition JSONSchemaProps)) :
  processSingleDocument NewSchemaValidator Unmarshal ToLower document fb = (fb', o) ->
  described fb pending ->
  crdsByFile fb' = crdsByFile fb
  /\ match o with
     | DocumentLoaded crd => described fb' (pending ++ [crd])
     | DocumentPanic _ => True
     | _ => described fb' pending
     end.
Proof.
  intros Hdoc Hfb.
  destruct o as [e| |crd|p].
  - apply processSingleDocument_unchanged in Hdoc; [subst fb'|eauto]. auto.
  - apply processSingleDocument_unchanged in Hdoc; [subst fb'|eauto]. auto.
  - unfold processSingleDocument in Hdoc.
    destruct (Unmarshal document) as [crd'|]; [|discriminate].
    destruct (validateCRDStructure crd'); [discriminate|].
    destruct (negb (isCCRNRelevant fb crd')); [discriminate|].
    destruct (storeCRD NewSchemaValidator ToLower crd' fb) as [fb1 [p|]] eqn:Hstore;
      [discriminate|].
    injection Hdoc as <- <-. unfold storeCRD in Hstore.
    pose proof (storeVersions_files crd' (specVersions crd') fb) as Hfiles.
    destruct (storeVersions NewSchemaValidator ToLower crd' (specVersions crd') fb)
      as [fb2 p] eqn:Hversions.
    injection Hstore as <- ->. cbn [fst] in Hfiles.
    apply storeVersions_descriptors in Hversions as [Hin Hframe].
    split; [exact Hfiles|]. cbn [Unlock crds crdsByFile].
    intros key info Hkey.
    destruct (decide (Exists (fun v => vServed v = true /\ keyOf crd' v = key)
                        (specVersions crd'))) as [Hex|Hnone].
    + right. exists crd'. split; [apply elem_of_app; right; apply list_elem_of_here|].
      apply Exists_exists in Hex as (v & Hv & Hs & <-).
      destruct (Hin v Hv Hs) as (last & _ & _ & _ & _ & Hlookup).
      rewrite Hkey in Hlookup. unfold descriptorOf in Hlookup.
      destruct (vSchema last); [|discriminate].
      injection Hlookup as ->. cbn. auto.
    + rewrite Hframe in Hkey.
      * rewrite Hfiles.
        destruct (Hfb key info Hkey) as [H|(crd & Hcrd & H)]; [left; exact H|].
        right. exists crd. split; [apply elem_of_app; left; exact Hcrd|exact H].
      * intros v Hv Hs Hk. apply Hnone, Exists_exists. eauto.
  - split; [|exact I].
    pose proof (processSingleDocument_writes NewSchemaValidator Unmarshal ToLower
                  document fb) as Hw.
    rewrite Hdoc in Hw. cbn [fst] in Hw.
    unfold processSingleDocument in Hdoc.
    destruct (Unmarshal document) as [crd'|]; [|discriminate].
    destruct (validateCRDStructure crd'); [discriminate|].
    destruct (negb (isCCRNRelevant fb crd')); [discriminate|].
    unfold storeCRD in Hdoc.
    pose proof (storeVersions_files crd' (specVersions crd') fb) as Hfiles.
    destruct (storeVersions NewSchemaValidator ToLower crd' (specVersions crd') fb)
      as [fb2 q]. destruct q; injection Hdoc as <- _; exact Hfiles.
Qed.

Lemma processDocuments_described (filePath : string) (documents : list string) :
  forall (i : nat) (fb fb' : Backend) (result result' : CRDLoadingResult)
         (pending pending' : list (CustomResourceDefinition JSONSchemaProps)),
    processDocuments NewSchemaValidator Unmarshal ToLower filePath i documents
      fb result pending = (fb', result', pending', None) ->
    described fb pending ->
    crdsByFile fb' = crdsByFile fb /\ described fb' pending'.
Proof.
  induction documents as [|document rest IH];
    intros i fb fb' result result' pending pending'; cbn [processDocuments].
  - intros [= <- _ <-]. auto.
  - destruct (isEmptyDocument document); [apply IH|].
    destruct (processSingleDocument NewSchemaValidator Unmarshal ToLower document fb)
      as [fb1 o] eqn:Hdoc.
    intros Hrest Hfb.
    destruct (processSingleDocument_described _ _ _ _ pending Hdoc Hfb)
      as [Hfiles Ho].
    destruct o as [e| |crd|p]; [| | |discriminate];
      apply IH in Hrest as [Hfiles' H']; try exact Ho;
      (split; [congruence|exact H']).
Qed.

Lemma processFile_described (filePath : string) (fb fb' : Backend)
    (result result' : CRDLoadingResult) :
  processFile NewSchemaValidator ReadFile ScanLines Unmarshal ToLower filePath fb
    result = (fb', result', None) ->
  described fb [] -> listed_as_read fb ->
  described fb' [] /\ listed_as_read fb'.
Proof.
  pose proof (processFile_writes NewSchemaValidator ReadFile ScanLines Unmarshal
                ToLower filePath fb result) as Hw.
  apply writes_frame in Hw as (Hgroup & _).
  unfold processFile in *.
  destruct (ReadFile filePath) as [fileContent|] eqn:Hread;
    [|intros [= <- _]; auto].
  destruct (splitYAMLDocuments ScanLines fileContent) as [documents|] eqn:Hsplit;
    [|intros [= <- _]; auto].
  destruct (processDocuments _ _ _ _ _ _ _ _ _) as [[[fb1 result1] loaded] [p|]]
    eqn:Hdocs; [discriminate|].
  intros Hfile Hfb Hread_as.
  destruct (processDocuments_described _ _ _ _ _ _ _ _ _ Hdocs Hfb)
    as [Hfiles Hdescribed].
  assert (Hloaded : forall (fb0 : Backend) (result0 : CRDLoadingResult),
             ccrnGroup fb0 = ccrnGroup fb ->
             (processDocuments NewSchemaValidator Unmarshal ToLower filePath 0
                documents fb0 result0 []).1.2 = loaded
             /\ (processDocuments NewSchemaValidator Unmarshal ToLower filePath 0
                   documents fb0 result0 []).2 = None).
  { intros fb0 result0 Hg.
    destruct (processDocuments_loaded_same filePath documents 0 fb0 fb result0
                (countFile result) [] Hg) as [H1 H2].
    rewrite Hdocs in H1, H2. auto. }
  destruct (0 <? length loaded)%nat eqn:Hsome.
  - injection Hfile as <- _. cbn [fst] in Hgroup.
    cbn [Unlock setCrdsByFile crds crdsByFile ccrnGroup] in *. split.
    + intros key info Hkey. left.
      destruct (Hdescribed key info Hkey) as [(file & l & crd & Hl & Hcrd & H)
                                             |(crd & Hcrd & H)].
      * destruct (decide (file = filePath)) as [->|Hne].
        -- exists filePath, loaded, crd. rewrite lookup_insert_eq.
           split; [reflexivity|]. split; [|exact H].
           rewrite Hfiles in Hl.
           destruct (Hread_as filePath l Hl) as (c & d & Hc & Hd & Hl').
           rewrite Hread in Hc. injection Hc as <-.
           rewrite Hsplit in Hd. injection Hd as <-.
           destruct (Hl' fb (countFile result) eq_refl) as [Heq _].
           rewrite Hdocs in Heq. cbn in Heq. subst l. exact Hcrd.
        -- exists file, l, crd. rewrite lookup_insert_ne by congruence. auto.
      * exists filePath, loaded, crd. rewrite lookup_insert_eq. auto.
    + intros file l Hl. rewrite Hgroup.
      destruct (decide (file = filePath)) as [->|Hne].
      * rewrite lookup_insert_eq in Hl. injection Hl as <-.
        exists fileContent, documents. auto.
      * rewrite lookup_insert_ne in Hl by congruence.
        rewrite Hfiles in Hl. apply Hread_as, Hl.
  - injection Hfile as <- _. cbn [fst] in Hgroup.
    apply Nat.ltb_ge in Hsome. destruct loaded; [|cbn in Hsome; lia].
    split; [exact Hdescribed|].
    intros file l Hl. rewrite Hgroup. rewrite Hfiles in Hl. apply Hread_as, Hl.
Qed.

Lemma processFiles_described (matchedFiles : list string) :
  forall (fb fb' : Backend) (result result' : CRDLoadingResult),
    processFiles NewSchemaValidator ReadFile ScanLines Unmarshal ToLower
      matchedFiles fb result = (fb', result', None) ->
    described fb [] -> listed_as_read fb ->
    described fb' [] /\ listed_as_read fb'.
Proof.
  induction matchedFiles as [|filePath rest IH]; intros fb fb' result result';
    cbn [processFiles].
  - intros [= <- _]. auto.
  - destruct (isYAMLFile ToLower filePath); [|apply IH].
    destruct (processFile _ _ _ _ _ _ _ _) as [[fb1 result1] [p|]] eqn:Hfile;
      [discriminate|].
    intros Hrest Hfb Hread.
    destruct (processFile_described _ _ _ _ _ Hfile Hfb Hread) as [H1 H2].
    eapply IH; eauto.
Qed.

Lemma built_described (fb : Backend) :
  built NewSchemaValidator Glob ReadFile ScanLines Unmarshal ToLower fb ->
  described fb [] /\ listed_as_read fb.
Proof.
  induction 1 as [group|fb pattern fb' err _ [IH1 IH2] Hload].
  - split.
    + intros key info H. cbn in H. rewrite lookup_empty in H. discriminate.
    + intros file l H. cbn in H. rewrite lookup_empty in H. discriminate.
  - unfold LoadCRDs, LoadCRDs_result in Hload.
    destruct (Glob pattern) as [matchedFiles|];
      [|injection Hload as <- _; auto].
    destruct (length matchedFiles =? 0)%nat; [injection Hload as <- _; auto|].
    destruct (processFiles _ _ _ _ _ _ _ _) as [[fb1 result] [p|]] eqn:Hfiles;
      [discriminate|].
    destruct (processFiles_described _ _ _ _ _ Hfiles IH1 IH2) as [H1 H2].
    assert (fb' = setLoadedPaths (loadedPaths fb1 ++ [pattern]) fb1) as ->
      by (destruct (_ && _); injection Hload as <- _; reflexivity).
    split; [exact H1|exact H2].
Qed.


End DescriptorsAndFiles.

